(** * nathy-vtuber backend: a shallow embedding and its verified properties

    The development follows the layout of [src/backend]:
    - [Py]        the fragment of Python's [str] and exception behaviour the
                  backend relies on;
    - [Memory]    [memory.py]: the SQLite fact table and [MemoryStore];
    - [LlmUtils]  [llm_utils.py]: [build_messages], [maybe_extract_fact];
    - [Audio]     [websocket_handler.py]: [AudioBuffer];
    - [Handler]   [websocket_handler.py]: [VTuberWebSocketHandler]. *)

From Stdlib Require Import ZArith NArith QArith Qround Qabs Lia Sorted.
From stdpp Require Import base decidable list strings gmap.

Set Default Proof Using "Type".

(* ===================================================================== *)
(** * Python values                                                       *)
(* ===================================================================== *)

Module Py.

(** A Python [str] is a sequence of Unicode code points. *)
Definition char := N.
Definition str := list char.

(** ** Source literals

    String literals of the Python sources are UTF-8 encoded; [py] decodes
    the bytes of a literal into its code points. *)

Fixpoint utf8_decode (bs : list N) (pending : nat) (acc : N) : str :=
  match bs with
  | [] => []
  | b :: bs' =>
      if (b <? 0x80)%N then b :: utf8_decode bs' 0 0%N
      else if (b <? 0xC0)%N then
        let acc' := (acc * 64 + (b - 0x80))%N in
        match pending with
        | 0%nat => utf8_decode bs' 0 0%N
        | 1%nat => acc' :: utf8_decode bs' 0 0%N
        | S p => utf8_decode bs' p acc'
        end
      else if (b <? 0xE0)%N then utf8_decode bs' 1 (b - 0xC0)%N
      else if (b <? 0xF0)%N then utf8_decode bs' 2 (b - 0xE0)%N
      else utf8_decode bs' 3 (b - 0xF0)%N
  end.

Definition py (s : String.string) : str :=
  utf8_decode (map Ascii.N_of_ascii (String.list_ascii_of_string s)) 0 0%N.
Arguments py s%_string.

(** ** Whitespace: [str.isspace], [str.strip], [str.split]

    CPython's [Py_UNICODE_ISSPACE]; [strip] and [split] without arguments
    use the same set. *)
Definition isspace (c : char) : bool :=
  ((0x09 <=? c) && (c <=? 0x0D) || (0x1C <=? c) && (c <=? 0x20)
   || (c =? 0x85) || (c =? 0xA0) || (c =? 0x1680)
   || (0x2000 <=? c) && (c <=? 0x200A)
   || (c =? 0x2028) || (c =? 0x2029) || (c =? 0x202F) || (c =? 0x205F)
   || (c =? 0x3000))%N.

Fixpoint lstrip (s : str) : str :=
  match s with
  | [] => []
  | c :: s' => if isspace c then lstrip s' else s
  end.

Definition rstrip (s : str) : str := rev (lstrip (rev s)).

Definition strip (s : str) : str := rstrip (lstrip s).

(** [s.split()]: maximal runs of non-whitespace characters. [cur] is the
    run being read. *)
Fixpoint split_go (s : str) (cur : str) : list str :=
  match s with
  | [] => match cur with [] => [] | _ => [cur] end
  | c :: s' =>
      if isspace c
      then match cur with [] => split_go s' [] | _ => cur :: split_go s' [] end
      else split_go s' (cur ++ [c])
  end.

Definition split (s : str) : list str := split_go s [].

(** ** Comparison and search *)

Definition str_eqb (a b : str) : bool := bool_decide (a = b).

Fixpoint startswith (s p : str) {struct p} : bool :=
  match p, s with
  | [], _ => true
  | _ :: _, [] => false
  | x :: p', y :: s' => (x =? y)%N && startswith s' p'
  end.

Definition endswith (s p : str) : bool := startswith (rev s) (rev p).

(** [sub in s] *)
Fixpoint contains (sub s : str) : bool :=
  startswith s sub ||
  match s with
  | [] => false
  | _ :: s' => contains sub s'
  end.

(** [sep.join(parts)] *)
Fixpoint join (sep : str) (parts : list str) : str :=
  match parts with
  | [] => []
  | [p] => p
  | p :: ps => p ++ sep ++ join sep ps
  end.

(** Truthiness of a [str] or a [list]: non-empty. *)
Definition truthy {A} (l : list A) : bool :=
  match l with [] => false | _ => true end.

(** ** The Unicode character database

    [str.lower] and [str.isalnum] consult CPython's Unicode tables. They are
    kept abstract; the one fact used about them is that on Latin-1 text
    [lower] acts character by character as [latin1_lower] does. *)
Definition latin1_lower (c : char) : char :=
  if ((0x41 <=? c) && (c <=? 0x5A)
      || (0xC0 <=? c) && (c <=? 0xDE) && negb (c =? 0xD7))%N
  then (c + 0x20)%N else c.

Class Unicode := {
  lower : str -> str;
  isalnum : char -> bool;
  lower_latin1 : forall s, Forall (fun c => (c < 0x100)%N) s ->
                           lower s = map latin1_lower s
}.

(** The tables restricted to Latin-1 (everything above is left alone). *)
Definition latin1_isalnum (c : char) : bool :=
  ((0x30 <=? c) && (c <=? 0x39) || (0x41 <=? c) && (c <=? 0x5A)
   || (0x61 <=? c) && (c <=? 0x7A)
   || (c =? 0xAA) || (c =? 0xB2) || (c =? 0xB3) || (c =? 0xB5)
   || (c =? 0xB9) || (c =? 0xBA) || (0xBC <=? c) && (c <=? 0xBE)
   || (0xC0 <=? c) && (c <=? 0xFF) && negb (c =? 0xD7) && negb (c =? 0xF7))%N.

#[export] Instance latin1 : Unicode :=
  {| lower := map latin1_lower;
     isalnum := latin1_isalnum;
     lower_latin1 := fun s _ => eq_refl |}.

(** ** Exceptions and effects

    A call either returns or raises; stateful code threads its state
    through both outcomes, since a raise does not undo earlier writes. *)
Inductive exn :=
  | ValueError (msg : str)
  | ZeroDivisionError
  | TypeError (msg : str)
  | AttributeError (msg : str)
  | OperationalError (msg : str)      (* sqlite3 *)
  | RuntimeError (msg : str)
  | OverflowError (msg : str)
  | Exception (msg : str).

(** [str(e)] *)
Definition exn_str (e : exn) : str :=
  match e with
  | ValueError m | TypeError m | AttributeError m
  | OperationalError m | RuntimeError m | OverflowError m | Exception m => m
  | ZeroDivisionError => py "integer modulo by zero"
  end.

Inductive result (A : Type) :=
  | Ok (a : A)
  | Raise (e : exn).
Arguments Ok {A} a.
Arguments Raise {A} e.

Definition M (S A : Type) : Type := S -> S * result A.

#[export] Instance M_ret {S} : MRet (M S) := fun A a s => (s, Ok a).
#[export] Instance M_bind {S} : MBind (M S) := fun A B k m s =>
  match m s with
  | (s', Ok a) => k a s'
  | (s', Raise e) => (s', Raise e)
  end.
Definition raise {S A} (e : exn) : M S A := fun s => (s, Raise e).
Definition get {S} : M S S := fun s => (s, Ok s).
Definition gets {S A} (f : S -> A) : M S A := fun s => (s, Ok (f s)).
(** The outcome of a call into a collaborator. *)
Definition call {S A} (r : result A) : M S A := fun s => (s, r).
Definition modify {S} (f : S -> S) : M S unit := fun s => (f s, Ok tt).
(** [try: m except Exception as e: h e] *)
Definition try_except {S A} (m : M S A) (h : exn -> M S A) : M S A :=
  fun s => match m s with
           | (s', Ok a) => (s', Ok a)
           | (s', Raise e) => h e s'
           end.
(** [try: m finally: f] *)
Definition try_finally {S A} (m : M S A) (f : M S unit) : M S A :=
  fun s => match m s with
           | (s', r) => match f s' with
                        | (s'', Ok _) => (s'', r)
                        | (s'', Raise e) => (s'', Raise e)
                        end
           end.

End Py.

Import Py.

(* ===================================================================== *)
(** * memory.py                                                           *)
(* ===================================================================== *)

Module Memory.

(** A row of the [facts] table. *)
Record FactRecord := {
  id : N;
  user_id : str;
  fact : str;
  created_at : str
}.

(** The database: the table in [id] order and the AUTOINCREMENT counter
    ([sqlite_sequence]). Rows are only ever inserted, each with a fresh
    largest [id], so the list is the table sorted by ascending [id]. *)
Record Db := {
  facts : list FactRecord;
  seq : N
}.

Definition empty_db : Db := {| facts := []; seq := 0 |}.

(** [INSERT INTO facts(user_id, fact, created_at) VALUES (?, ?, ?)] *)
Definition insert (db : Db) (u f ts : str) : Db :=
  {| facts := facts db ++ [{| id := seq db + 1; user_id := u;
                              fact := f; created_at := ts |}];
     seq := seq db + 1 |}.

(** [SELECT fact, created_at FROM facts WHERE user_id = ?
     ORDER BY id DESC LIMIT 200] *)
Definition select_recent (db : Db) (u : str) : list (str * str) :=
  take 200 (map (fun r => (fact r, created_at r))
                (rev (filter (fun r => user_id r = u) (facts db)))).

(** The effects of [MemoryStore]'s methods act on the database. A call
    into [sqlite3] may raise ([fault], chosen by the environment: a locked
    or unreadable file); the statement then has no effect. *)
Definition execute {A} (fault : option exn) (stmt : Db -> Db * A) : M Db A :=
  fun db => match fault with
            | Some e => (db, Raise e)
            | None => let '(db', a) := stmt db in (db', Ok a)
            end.

(** [MemoryStore.add_fact]; [now] is
    [datetime.utcnow().isoformat(timespec=seconds)]. *)
Definition add_fact (fault : option exn) (now : str) (u f : str) : M Db unit :=
  let fact_clean := strip f in
  if negb (truthy fact_clean) then mret tt
  else execute fault (fun db => (insert db u fact_clean now, tt)).

Section Retrieval.
Context `{Unicode}.

Definition extra_letters : str := py "_áàâãéèêíìîóòôõúùûç".

(** [_tokenize]: [cur] and [buff] are the loop's two lists. *)
Fixpoint tokenize_go (text cur : str) (buff : list str) : list str :=
  match text with
  | [] => if truthy cur then buff ++ [cur] else buff
  | ch :: text' =>
      if isalnum ch || bool_decide (ch ∈ extra_letters)
      then tokenize_go text' (cur ++ [ch]) buff
      else if truthy cur then tokenize_go text' [] (buff ++ [cur])
           else tokenize_go text' cur buff
  end.

Definition _tokenize (text : str) : list str := tokenize_go text [] [].

Definition query_tokens (query : str) : list str :=
  let q := lower (strip query) in
  filter (fun t => (3 <= length t)%nat) (_tokenize q).

(** The inner [for t in tokens] loop. *)
Definition score (tokens : list str) (f : str) : nat :=
  length (filter (fun t => contains t (lower f) = true) tokens).

(** The first [for fact, created_at in rows] loop. *)
Definition score_rows (tokens : list str) (rows : list (str * str))
  : list (nat * str) :=
  omap (fun row => let sc := score tokens (fst row) in
                   if (0 <? sc)%nat then Some (sc, fst row) else None) rows.

(** [scored.sort(key=lambda x: x[0], reverse=True)]: a stable sort, the
    larger scores first, equal scores in their order of arrival. *)
Fixpoint insert_desc (x : nat * str) (l : list (nat * str)) : list (nat * str) :=
  match l with
  | [] => [x]
  | y :: l' => if (fst x <? fst y)%nat then y :: insert_desc x l'
               else x :: y :: l'
  end.

Definition sort_desc (l : list (nat * str)) : list (nat * str) :=
  foldr insert_desc [] l.

(** Scores never increase along the sorted list. *)
Inductive descending : list (nat * str) -> Prop :=
  | descending_nil : descending []
  | descending_cons x l :
      Forall (fun y => (fst y <= fst x)%nat) l -> descending l ->
      descending (x :: l).

(** The de-duplicating loop over [scored], from the state [(seen, out)]. *)
Fixpoint collect (limit : Z) (scored : list (nat * str))
    (seen : gset str) (out : list str) : gset str * list str :=
  match scored with
  | [] => (seen, out)
  | (_, f) :: rest =>
      if decide (f ∈ seen) then collect limit rest seen out
      else
        let seen' := {[ f ]} ∪ seen in
        let out' := out ++ [f] in
        if (limit <=? Z.of_nat (length out'))%Z then (seen', out')
        else collect limit rest seen' out'
  end.

(** The fallback loop over [rows], from the state [out2]. *)
Fixpoint recent (limit : Z) (rows : list (str * str))
    (seen : gset str) (out2 : list str) : list str :=
  match rows with
  | [] => out2
  | (f, _) :: rest =>
      let out2' := if decide (f ∈ seen) then out2 else out2 ++ [f] in
      if (Z.min limit 3 <=? Z.of_nat (length out2'))%Z then out2'
      else recent limit rest seen out2'
  end.

(** The body of [get_top_facts] once the rows are fetched. *)
Definition top_facts (rows : list (str * str)) (query : str) (limit : Z)
  : list str :=
  let tokens := query_tokens query in
  let scored := sort_desc (score_rows tokens rows) in
  let '(seen, out) := collect limit scored ∅ [] in
  if truthy out then out else recent limit rows seen [].

(** [MemoryStore.get_top_facts] *)
Definition get_top_facts (fault : option exn) (u query : str) (limit : Z)
  : M Db (list str) :=
  rows ← execute fault (fun db => (db, select_recent db u));
  mret (top_facts rows query limit).

End Retrieval.

End Memory.

Import Memory.

(* ===================================================================== *)
(** * llm_utils.py                                                        *)
(* ===================================================================== *)

Module LlmUtils.

(** A chat message: a dict with the keys [role] and [content]. *)
Record message := {
  role : str;
  content : str
}.

Definition nl : str := [10%N].

Section WithUnicode.
Context `{Unicode}.

(** The bulleted block: one line [- f] per fact, joined by newlines; empty
    when there are no facts. *)
Definition memory_block (facts : list str) : str :=
  if truthy facts then join nl (map (fun f => py "- " ++ f) facts) else [].

(** The system prompt, a blank line, the introductory line, the block. *)
Definition with_memories (system_prompt block : str) : str :=
  system_prompt ++ nl ++ nl ++ py "Memórias relevantes sobre o usuário:"
                ++ nl ++ block.

Definition base_messages (system_prompt user_text : str) : list message :=
  [ {| role := py "system"; content := system_prompt |};
    {| role := py "user"; content := user_text |} ].

(** [build_messages]; [fault] is the outcome of the store's query. *)
Definition build_messages (fault : option exn)
    (user_id user_text system_prompt : str) : M Db (list message) :=
  try_except
    (facts ← get_top_facts fault user_id user_text 6;
     let block := memory_block facts in
     let final_system_prompt :=
       if truthy (strip block) then with_memories system_prompt block
       else system_prompt in
     mret [ {| role := py "system"; content := final_system_prompt |};
            {| role := py "user"; content := user_text |} ])
    (fun _ => mret (base_messages system_prompt user_text)).

Definition prefixes : list str :=
  [ py "meu nome é ";
    py "eu me chamo ";
    py "eu gosto de ";
    py "eu não gosto de ";
    py "minha comida favorita é ";
    py "minha cor favorita é ";
    py "eu moro em ";
    py "eu tenho ";
    py "eu não tenho ";
    py "eu sou ";
    py "eu não sou ";
    py "eu trabalho como ";
    py "eu estudo ";
    py "eu moro em ";
    py "eu nasci em ";
    py "meu aniversário é ";
    py "eu tenho medo de ";
    py "eu adoro ";
    py "eu odeio ";
    py "eu prefiro " ].

Definition question_prefixes : list str :=
  [ py "quem é ";
    py "o que é ";
    py "qual é ";
    py "quando é ";
    py "onde fica ";
    py "por que ";
    py "como é " ].

Definition terminators : list str := [ py "."; py "!"; py "?" ].

(** [any(s.startswith(p) for p in ps)] *)
Definition startswith_any (s : str) (ps : list str) : bool :=
  existsb (startswith s) ps.

(** [s.endswith((p1, ..., pn))] *)
Definition endswith_any (s : str) (ps : list str) : bool :=
  existsb (endswith s) ps.

(** [maybe_extract_fact] *)
Definition maybe_extract_fact (user_text : str) : option str :=
  let t := strip user_text in
  if negb (truthy t) then None
  else
    let lower_t := lower t in
    if startswith_any lower_t prefixes then Some t
    else if startswith_any lower_t question_prefixes then None
    else if (length (split t) <=? 15)%nat && endswith_any t terminators
         then Some t
         else None.

(** ** The extraction policy, in the words of the specification

    Each step applies only when the steps before it did not. *)

(** Nothing but whitespace. *)
Definition blank (text : str) : Prop :=
  Forall (fun c => isspace c = true) text.

(** The lowercased text starts with one of the prefixes [ps]. *)
Definition begins_with (ps : list str) (t : str) : Prop :=
  exists p rest, p ∈ ps /\ lower t = p ++ rest.

(** The text ends in a full stop, an exclamation or a question mark. *)
Definition ends_sentence (t : str) : Prop :=
  exists body c, t = body ++ [c] /\ c ∈ py ".!?".

(** At most 15 whitespace-separated tokens, and terminal punctuation. *)
Definition short_sentence (t : str) : Prop :=
  (length (split t) <= 15)%nat /\ ends_sentence t.

Inductive extraction_policy (text : str) : option str -> Prop :=
  | policy_blank :
      blank text ->
      extraction_policy text None
  | policy_statement :
      ~ blank text ->
      begins_with prefixes (strip text) ->
      extraction_policy text (Some (strip text))
  | policy_question :
      ~ blank text ->
      ~ begins_with prefixes (strip text) ->
      begins_with question_prefixes (strip text) ->
      extraction_policy text None
  | policy_short :
      ~ blank text ->
      ~ begins_with prefixes (strip text) ->
      ~ begins_with question_prefixes (strip text) ->
      short_sentence (strip text) ->
      extraction_policy text (Some (strip text))
  | policy_other :
      ~ blank text ->
      ~ begins_with prefixes (strip text) ->
      ~ begins_with question_prefixes (strip text) ->
      ~ short_sentence (strip text) ->
      extraction_policy text None.

End WithUnicode.

End LlmUtils.

Import LlmUtils.

(* ===================================================================== *)
(** * websocket_handler.py: AudioBuffer                                   *)
(* ===================================================================== *)

Module Audio.

Section Buffer.
(** Samples are [float32]; nothing here computes with them. *)
Context {sample : Type}.

Record AudioBuffer := {
  data : list sample;
  sample_rate : Z;
  start_idx : Z;
  end_idx : Z;
  is_recording : bool
}.

Definition set_data (d : list sample) (b : AudioBuffer) : AudioBuffer :=
  {| data := d; sample_rate := sample_rate b; start_idx := start_idx b;
     end_idx := end_idx b; is_recording := is_recording b |}.
Definition set_start_idx (i : Z) (b : AudioBuffer) : AudioBuffer :=
  {| data := data b; sample_rate := sample_rate b; start_idx := i;
     end_idx := end_idx b; is_recording := is_recording b |}.
Definition set_end_idx (i : Z) (b : AudioBuffer) : AudioBuffer :=
  {| data := data b; sample_rate := sample_rate b; start_idx := start_idx b;
     end_idx := i; is_recording := is_recording b |}.
Definition set_is_recording (r : bool) (b : AudioBuffer) : AudioBuffer :=
  {| data := data b; sample_rate := sample_rate b; start_idx := start_idx b;
     end_idx := end_idx b; is_recording := r |}.

(** [__post_init__], with [max_samples] computed: that many zeros, both
    cursors at 0, not recording. *)
Definition new (zero : sample) (rate : Z) (max_samples : nat) : AudioBuffer :=
  {| data := replicate max_samples zero; sample_rate := rate;
     start_idx := 0; end_idx := 0; is_recording := false |}.

(** [int(x)] on a float: truncation towards zero. *)
Definition int_of (x : Q) : Z :=
  if Qle_bool 0 x then Qfloor x else Qceiling x.

(** The constructor the [dataclass] decorator generates from the fields
    [data], [sample_rate] and [max_duration = 30.0], followed by
    [__post_init__]. An argument the caller leaves out is [None] here; the
    first two fields have no default, and leaving one out is a
    [TypeError]. [np.zeros] rejects a negative size. *)
Definition AudioBuffer_init (zero : sample) (data_arg : option (list sample))
    (sample_rate_arg : option Z) (max_duration_arg : option Q)
  : result AudioBuffer :=
  match data_arg, sample_rate_arg with
  | Some _, Some rate =>
      let max_duration := default 30%Q max_duration_arg in
      let max_samples := int_of (inject_Z rate * max_duration) in
      if (max_samples <? 0)%Z
      then Raise (ValueError (py "negative dimensions are not allowed"))
      else Ok (new zero rate (Z.to_nat max_samples))
  | _, _ => Raise (TypeError (py "missing required positional argument"))
  end.

(** ** Slices

    A slice bound [i] on a sequence of length [n]: negative bounds count
    from the end, and every bound is clipped to [0..n]. *)
Definition slice_bound (n i : Z) : nat :=
  Z.to_nat (if (i <? 0)%Z then Z.max 0 (i + n) else Z.min i n).

(** [a[lo:hi]] *)
Definition slice (a : list sample) (lo hi : Z) : list sample :=
  let n := Z.of_nat (length a) in
  let lo' := slice_bound n lo in
  let hi' := slice_bound n hi in
  take (hi' - lo') (drop lo' a).

(** [a[lo:hi] = v] on a NumPy array: [v] must have the length of the slice,
    or length 1 (it is then broadcast); otherwise NumPy raises. *)
Definition assign_slice (a : list sample) (lo hi : Z) (v : list sample)
  : result (list sample) :=
  let n := Z.of_nat (length a) in
  let lo' := slice_bound n lo in
  let hi' := slice_bound n hi in
  let k := (hi' - lo')%nat in
  if (length v =? k)%nat then Ok (take lo' a ++ v ++ drop (lo' + k) a)
  else match v with
       | [x] => Ok (take lo' a ++ replicate k x ++ drop (lo' + k) a)
       | _ => Raise (ValueError (py "could not broadcast input array"))
       end.

(** The statement [self.data[lo:hi] = v]. *)
Definition store (lo hi : Z) (v : list sample) : M AudioBuffer unit :=
  fun b => match assign_slice (data b) lo hi v with
           | Ok d => (set_data d b, Ok tt)
           | Raise e => (b, Raise e)
           end.

(** [x % len(self.data)] *)
Definition mod_len (x : Z) : M AudioBuffer Z :=
  fun b => let n := Z.of_nat (length (data b)) in
           if (n =? 0)%Z then (b, Raise ZeroDivisionError)
           else (b, Ok (x mod n)%Z).

(** [AudioBuffer.append] *)
Definition append (audio_chunk : list sample) : M AudioBuffer unit :=
  let chunk_size := Z.of_nat (length audio_chunk) in
  if (chunk_size =? 0)%Z then mret tt
  else
    b ← get;
    let n := Z.of_nat (length (data b)) in
    used ← mod_len (end_idx b - start_idx b);
    let available := (n - used)%Z in
    (if (available <? chunk_size)%Z
     then s ← mod_len (start_idx b + (chunk_size - available));
          modify (set_start_idx s)
     else mret tt) ;;
    end_ ← mod_len (end_idx b + chunk_size);
    (if (end_idx b <? end_)%Z
     then store (end_idx b) end_ audio_chunk
     else
       let remaining := (n - end_idx b)%Z in
       store (end_idx b) n (slice audio_chunk 0 remaining) ;;
       store 0 end_ (slice audio_chunk remaining chunk_size)) ;;
    modify (set_end_idx end_).

(** [AudioBuffer.get_audio]. The products are taken exactly: the rounding
    of the floating-point product, and the [OverflowError] of [int] on a
    product beyond the doubles, are not part of this definition. *)
Definition get_audio (start_time end_time : Q) (b : AudioBuffer)
  : result (list sample) :=
  let start_sample := int_of (start_time * inject_Z (sample_rate b)) in
  let end_sample := int_of (end_time * inject_Z (sample_rate b)) in
  let n := Z.of_nat (length (data b)) in
  if (n =? 0)%Z then Raise ZeroDivisionError
  else
    let s := ((start_idx b + start_sample) mod n)%Z in
    let e := ((start_idx b + end_sample) mod n)%Z in
    if (s <? e)%Z then Ok (slice (data b) s e)
    else Ok (slice (data b) s n ++ slice (data b) 0 e).

(** [AudioBuffer.clear] *)
Definition clear (b : AudioBuffer) : AudioBuffer :=
  set_is_recording false (set_end_idx 0 (set_start_idx 0 b)).

(** The unread window: the samples from [start_idx] up to [end_idx],
    around the ring. *)
Definition window_size (b : AudioBuffer) : Z :=
  ((end_idx b - start_idx b) mod Z.of_nat (length (data b)))%Z.

(** The states a buffer built by [new] can reach: a ring of positive
    capacity with both cursors inside it. *)
Definition well_formed (b : AudioBuffer) : Prop :=
  let n := Z.of_nat (length (data b)) in
  (0 < n /\ 0 <= start_idx b < n /\ 0 <= end_idx b < n)%Z.

End Buffer.
Arguments AudioBuffer : clear implicits.

End Audio.

Import Audio.

(* ===================================================================== *)
(** * websocket_handler.py: VTuberWebSocketHandler                        *)
(* ===================================================================== *)

Module Handler.

Definition SAMPLE_RATE : Z := 16000.
Definition CHUNK_SIZE : Z := 1024.
Definition SILENCE_THRESHOLD : Q := 1 # 100.
Definition SILENCE_DURATION : Q := 3 # 2.

(** JSON scalars, the dicts sent to the client (in the order written) and
    the dicts received from it. *)
Inductive jvalue :=
  | JStr (s : str)
  | JNum (q : Q)
  | JBool (b : bool)
  | JNull
  | JOther.                           (* arrays and objects *)

Definition dict := list (string * jvalue).

#[export] Instance jvalue_eq_dec : EqDecision jvalue.
Proof.
  intros x y. unfold Decision.
  decide equality; try apply (list_eq_dec (A := N)); try apply bool_eq_dec.
  destruct q as [a b], q0 as [c d].
  destruct (decide (a = c)); [|right; congruence].
  destruct (decide (b = d)); [left; congruence|right; congruence].
Defined.

(** What the handler passes to the transport: [send_text] of a JSON
    document, or [send_bytes] of 16-bit PCM. *)
Inductive frame :=
  | Text (payload : dict)
  | Bytes (pcm : list Z).

Inductive WebSocket := Socket (peer : N).

Section WithCollaborators.
Context {sample : Type} `{Unicode}.

Record STTResult := {
  stt_text : str;
  stt_language : str;
  stt_confidence : Q
}.

Record TTSResult := {
  tts_audio : list sample;
  tts_sample_rate : Z
}.

(** The collaborators and the environment of one handler: each entry is
    the outcome the corresponding call has. *)
Record Env := {
  ollama_chat : list message -> str -> str -> result str;
  openai_chat : list message -> result str;
  transcribe : list sample -> result STTResult;
  synthesize : str -> result TTSResult;
  (** [sqlite3] raising inside [get_top_facts], inside [add_fact] *)
  memory_read_fault : option exn;
  memory_write_fault : option exn;
  (** [datetime.utcnow()], formatted *)
  utcnow : str;
  (** [random.choice(l)] is [l[random_index mod len(l)]] *)
  random_index : nat;
  (** [np.linalg.norm(chunk) / np.sqrt(len(chunk)) > threshold] *)
  louder_than : list sample -> Q -> bool;
  (** [audio / np.max(np.abs(audio) + 1e-5)] *)
  normalize : list sample -> list sample;
  (** [(audio * 32767).astype(np.int16)] *)
  to_int16 : list sample -> list Z;
  (** [float(s)] on a string *)
  parse_float : str -> option Q
}.

Record Handler := {
  ollama_host : str;
  ollama_model : str;
  llm_provider : str;
  system_prompt : str;
  websocket : option WebSocket;
  current_user_id : option str;
  is_listening : bool;
  audio_buffer : AudioBuffer sample;
  vad_threshold : Q;
  last_audio_time : Q;
  silence_start_time : option Q
}.

Definition set_websocket (v : option WebSocket) (h : Handler) : Handler :=
  {| ollama_host := ollama_host h; ollama_model := ollama_model h;
     llm_provider := llm_provider h; system_prompt := system_prompt h;
     websocket := v; current_user_id := current_user_id h;
     is_listening := is_listening h; audio_buffer := audio_buffer h;
     vad_threshold := vad_threshold h; last_audio_time := last_audio_time h;
     silence_start_time := silence_start_time h |}.
Definition set_current_user_id (v : option str) (h : Handler) : Handler :=
  {| ollama_host := ollama_host h; ollama_model := ollama_model h;
     llm_provider := llm_provider h; system_prompt := system_prompt h;
     websocket := websocket h; current_user_id := v;
     is_listening := is_listening h; audio_buffer := audio_buffer h;
     vad_threshold := vad_threshold h; last_audio_time := last_audio_time h;
     silence_start_time := silence_start_time h |}.
Definition set_is_listening (v : bool) (h : Handler) : Handler :=
  {| ollama_host := ollama_host h; ollama_model := ollama_model h;
     llm_provider := llm_provider h; system_prompt := system_prompt h;
     websocket := websocket h; current_user_id := current_user_id h;
     is_listening := v; audio_buffer := audio_buffer h;
     vad_threshold := vad_threshold h; last_audio_time := last_audio_time h;
     silence_start_time := silence_start_time h |}.
Definition set_audio_buffer (v : AudioBuffer sample) (h : Handler) : Handler :=
  {| ollama_host := ollama_host h; ollama_model := ollama_model h;
     llm_provider := llm_provider h; system_prompt := system_prompt h;
     websocket := websocket h; current_user_id := current_user_id h;
     is_listening := is_listening h; audio_buffer := v;
     vad_threshold := vad_threshold h; last_audio_time := last_audio_time h;
     silence_start_time := silence_start_time h |}.
Definition set_vad_threshold (v : Q) (h : Handler) : Handler :=
  {| ollama_host := ollama_host h; ollama_model := ollama_model h;
     llm_provider := llm_provider h; system_prompt := system_prompt h;
     websocket := websocket h; current_user_id := current_user_id h;
     is_listening := is_listening h; audio_buffer := audio_buffer h;
     vad_threshold := v; last_audio_time := last_audio_time h;
     silence_start_time := silence_start_time h |}.
Definition set_last_audio_time (v : Q) (h : Handler) : Handler :=
  {| ollama_host := ollama_host h; ollama_model := ollama_model h;
     llm_provider := llm_provider h; system_prompt := system_prompt h;
     websocket := websocket h; current_user_id := current_user_id h;
     is_listening := is_listening h; audio_buffer := audio_buffer h;
     vad_threshold := vad_threshold h; last_audio_time := v;
     silence_start_time := silence_start_time h |}.
Definition set_silence_start_time (v : option Q) (h : Handler) : Handler :=
  {| ollama_host := ollama_host h; ollama_model := ollama_model h;
     llm_provider := llm_provider h; system_prompt := system_prompt h;
     websocket := websocket h; current_user_id := current_user_id h;
     is_listening := is_listening h; audio_buffer := audio_buffer h;
     vad_threshold := vad_threshold h; last_audio_time := last_audio_time h;
     silence_start_time := v |}.

(** The attribute assignments of [__init__] in their order, given the
    buffer that line 104 constructs. *)
Definition init_with (buffer : AudioBuffer sample)
    (host model prompt provider : str) : Handler :=
  let h := {| ollama_host := host; ollama_model := model;
              llm_provider := provider; system_prompt := prompt;
              websocket := None;
              current_user_id := None;
              is_listening := false;
              audio_buffer := buffer;
              vad_threshold := SILENCE_THRESHOLD;
              last_audio_time := 0%Q;
              silence_start_time := None |} in
  let h := set_vad_threshold (1 # 2) h in
  let h := set_current_user_id (Some (py "default")) h in
  let h := set_websocket None h in
  h.

(** [VTuberWebSocketHandler.__init__]. The buffer is built by
    [AudioBuffer(sample_rate=SAMPLE_RATE)]: no [data], no [max_duration]. *)
Definition __init__ (z : sample) (host model prompt provider : str)
  : result Handler :=
  match AudioBuffer_init z None (Some SAMPLE_RATE) None with
  | Ok buffer => Ok (init_with buffer host model prompt provider)
  | Raise e => Raise e
  end.

(** ** The state one handler acts on

    [self]; the database behind [self.memory]; the frames passed to the
    transport so far, oldest first; the number of [_process_audio] tasks
    that wait in the event loop. *)
Record World := {
  self : Handler;
  memory : Db;
  sent : list frame;
  tasks : nat
}.

Definition upd_self (f : Handler -> Handler) (w : World) : World :=
  {| self := f (self w); memory := memory w; sent := sent w; tasks := tasks w |}.
Definition set_memory (db : Db) (w : World) : World :=
  {| self := self w; memory := db; sent := sent w; tasks := tasks w |}.
Definition push_frame (f : frame) (w : World) : World :=
  {| self := self w; memory := memory w; sent := sent w ++ [f]; tasks := tasks w |}.
Definition set_tasks (n : nat) (w : World) : World :=
  {| self := self w; memory := memory w; sent := sent w; tasks := n |}.
Definition upd_buffer (f : AudioBuffer sample -> AudioBuffer sample) : World -> World :=
  upd_self (fun h => set_audio_buffer (f (audio_buffer h)) h).

(** A method of [self.memory] run on the handler's state. *)
Definition on_memory {A} (m : M Db A) : M World A :=
  fun w => let '(db, r) := m (memory w) in (set_memory db w, r).

(** A method of [self.audio_buffer] run on the handler's state. *)
Definition on_buffer {A} (m : M (AudioBuffer sample) A) : M World A :=
  fun w => let '(b, r) := m (audio_buffer (self w)) in
           (upd_self (set_audio_buffer b) w, r).

(** [self.current_user_id] where a [str] is expected. *)
Definition user_of (h : Handler) : str := default [] (current_user_id h).

Context (env : Env).

(** [_send_message]: without a socket nothing happens; with one, the
    document goes to [send_text], and whatever [send_text] raises is logged
    and dropped. *)
Definition _send_message (data : dict) : M World unit :=
  fun w => match websocket (self w) with
           | Some _ => (push_frame (Text data) w, Ok tt)
           | None => (w, Ok tt)
           end.

(** [_send_error] *)
Definition _send_error (message : str) : M World unit :=
  try_except
    (_send_message [("type", JStr (py "error")); ("message", JStr message)])
    (fun _ => mret tt).

(** [_send_audio] *)
Definition _send_audio (audio_data : list sample) (rate : Z) : M World unit :=
  fun w => match websocket (self w) with
           | Some _ => (push_frame (Bytes (to_int16 env audio_data)) w, Ok tt)
           | None => (w, Ok tt)
           end.

(** [any(word in text for word in words)] *)
Definition any_in (text : str) (words : list str) : bool :=
  existsb (fun word => contains word text) words.

(** [random.choice] *)
Definition random_choice (l : list str) : str :=
  default [] (l !! (random_index env mod length l)%nat).

Definition greeting_words : list str :=
  [py "oi"; py "ola"; py "olá"; py "eai"; py "e aí"].
Definition question_words : list str :=
  [py "qual"; py "como"; py "onde"; py "quando"; py "por que"].
Definition compliment_words : list str :=
  [py "linda"; py "bonita"; py "legal"; py "gostosa"; py "maravilhosa"].

Definition greetings : list str :=
  [ py "Oieee! Tudo bem? 😊";
    py "Olá! Que bom conversar com você! 🌸";
    py "E aí! Sumida! 😄";
    py "Oiiee! Como vai? ✨" ].
Definition question_responses : list str :=
  [ py "Hmm, boa pergunta! Mas sem o Ollama eu não consigo pensar muito fundo... 🤔";
    py "Nossa, você me pegou! Preciso do meu cérebro AI para responder direito! 🧠";
    py "Essa é difícil! Meu superpoder AI está em manutenção! 😅";
    py "Bom... sem meus superpoderes de IA, fico um pouco limitada! 🤖" ].
Definition compliment_responses : list str :=
  [ py "Awwwn, você é muito gentil! 😊💕";
    py "Nossa, obrigada! Fiquei toda corada! 🌸";
    py "Para de! Você me deixa sem jeito! 😄";
    py "Mashiaaa! Você é o melhor! ✨" ].
Definition default_responses : list str :=
  [ py "Legal! Mas sem o Ollama eu não consigo responder muito bem... 😅";
    py "Hmm, interessante! Preciso do meu cérebro AI para conversar direitinho! 🤖";
    py "Nossa, você sabe que sem meu superpoder de IA fico meio limitada? 🤔";
    py "Legal demais! Mas para responder melhor, preciso do Ollama rodando! 🌸" ].

(** [_generate_fallback_response] *)
Definition _generate_fallback_response (user_text : str) : str :=
  let text_lower := lower user_text in
  if any_in text_lower greeting_words then random_choice greetings
  else if contains (py "?") user_text || any_in text_lower question_words
  then random_choice question_responses
  else if any_in text_lower compliment_words
  then random_choice compliment_responses
  else random_choice default_responses.

(** The two lines [fact = maybe_extract_fact(text)] and
    [if fact: self.memory.add_fact(...)]. *)
Definition remember (text : str) : M World unit :=
  match maybe_extract_fact text with
  | Some fact =>
      if truthy fact
      then h ← gets self;
           on_memory (add_fact (memory_write_fault env) (utcnow env)
                               (user_of h) fact)
      else mret tt
  | None => mret tt
  end.

(** [build_messages(self.current_user_id, text, self.memory, self.system_prompt)] *)
Definition prompt_for (text : str) : M World (list message) :=
  h ← gets self;
  on_memory (build_messages (memory_read_fault env)
                            (user_of h) text (system_prompt h)).

(** [_process_text_message] *)
Definition _process_text_message (text : str) : M World unit :=
  try_except
    (_send_message [("type", JStr (py "transcription")); ("text", JStr text)] ;;
     response_text ←
       try_except
         (h ← gets self;
          if bool_decide (llm_provider h = py "openai")
          then messages ← prompt_for text;
               call (openai_chat env messages)
          else messages ← prompt_for text;
               call (ollama_chat env messages (ollama_host h) (ollama_model h)))
         (fun _ => mret (_generate_fallback_response text));
     remember text ;;
     _send_message [("type", JStr (py "response")); ("text", JStr response_text)] ;;
     tts_result ← call (synthesize env response_text);
     _send_audio (tts_audio tts_result) (tts_sample_rate tts_result))
    (fun e =>
       try_except
         (_send_error (py "Error processing text message: " ++ exn_str e))
         (fun _ => mret tt)).

(** [min(a, b)] on floats. *)
Definition fmin (a b : Q) : Q := if Qlt_le_dec b a then b else a.

(** The [try] block of [_process_audio]; leaving it early is the [return]
    of the source. The quotient is taken exactly. *)
Definition process_segment : M World unit :=
  h ← gets self;
  let b := audio_buffer h in
  let audio_duration :=
    fmin 10 (inject_Z (end_idx b - start_idx b) / inject_Z SAMPLE_RATE) in
  audio_data ← call (get_audio 0 audio_duration b);
  if negb (truthy audio_data) then mret tt
  else
    let audio_data := normalize env audio_data in
    result ← call (transcribe env audio_data);
    if negb (truthy (strip (stt_text result))) then mret tt
    else
      _send_message [("type", JStr (py "user_speech"));
                     ("text", JStr (stt_text result));
                     ("language", JStr (stt_language result));
                     ("confidence", JNum (stt_confidence result))] ;;
      messages ← prompt_for (stt_text result);
      response_text ←
        call (ollama_chat env messages (ollama_host h) (ollama_model h));
      remember (stt_text result) ;;
      _send_message [("type", JStr (py "assistant_text"));
                     ("text", JStr response_text)] ;;
      tts_result ← call (synthesize env response_text);
      _send_audio (tts_audio tts_result) (tts_sample_rate tts_result).

(** [_process_audio] *)
Definition _process_audio : M World unit :=
  h ← gets self;
  if negb (is_recording (audio_buffer h)) then mret tt
  else
    modify (upd_buffer (set_is_recording false)) ;;
    try_finally
      (try_except process_segment
         (fun e =>
            try_except
              (_send_error (py "Error processing audio: " ++ exn_str e))
              (fun _ => mret tt)))
      (modify (upd_buffer clear)).

(** [audio_callback], on the first channel [audio_chunk] of [indata];
    [current_time] is what [time.time()] returns. The callback is the one
    given to [sd.InputStream]: PortAudio calls it on its own thread, where
    no event loop runs, so that [asyncio.create_task] raises
    [RuntimeError] (the coroutine object it was given is never run). *)
Definition audio_callback (audio_chunk : list sample) (current_time : Q)
  : M World unit :=
  if negb (truthy audio_chunk) then mret tt
  else
    on_buffer (append audio_chunk) ;;
    h ← gets self;
    let is_speaking := louder_than env audio_chunk (vad_threshold h) in
    if is_speaking then
      modify (upd_self (set_last_audio_time current_time)) ;;
      modify (upd_self (set_silence_start_time None)) ;;
      (if negb (is_recording (audio_buffer h))
       then modify (upd_buffer (set_is_recording true))
       else mret tt)
    else if is_recording (audio_buffer h) then
      (if silence_start_time h is None
       then modify (upd_self (set_silence_start_time (Some current_time)))
       else mret tt) ;;
      h ← gets self;
      let since := default 0%Q (silence_start_time h) in
      if Qle_bool SILENCE_DURATION (current_time - since)
      then raise (RuntimeError (py "no running event loop"))
      else mret tt
    else mret tt.

(** The integers from which [float] raises [OverflowError]: those that
    round to a magnitude beyond the largest double. *)
Definition float_overflow : Z := 2 ^ 1024 - 2 ^ 970.

(** [float(x)] on a decoded JSON value. A number beyond the range of the
    doubles can only be a JSON integer. *)
Definition float_of (x : jvalue) : result Q :=
  match x with
  | JNum q =>
      if Qle_bool (inject_Z float_overflow) (Qabs q)
      then Raise (OverflowError (py "int too large to convert to float"))
      else Ok q
  | JBool b => Ok (if b then 1%Q else 0%Q)
  | JStr s => match parse_float env s with
              | Some q => Ok q
              | None => Raise (ValueError (py "could not convert string to float"))
              end
  | JNull | JOther =>
      Raise (TypeError (py "float() argument must be a string or a real number"))
  end.

(** [message.get(key, default).strip()] *)
Definition get_stripped (message : gmap string jvalue) (key : string) : result str :=
  match message !! key with
  | None => Ok (strip [])
  | Some (JStr s) => Ok (strip s)
  | Some _ => Raise (AttributeError (py "object has no attribute strip"))
  end.

(** What [json.loads] hands to [_handle_message]: a dict for a JSON
    object, and any other value as it is ([JOther] is then a list). *)
Inductive document :=
  | Dict (fields : gmap string jvalue)
  | NotDict (value : jvalue).

(** [_handle_message]; [message.get] exists on a dict only. *)
Definition _handle_message (received : document) : M World unit :=
  match received with
  | NotDict _ => raise (AttributeError (py "object has no attribute get"))
  | Dict message =>
  let msg_type := message !! "type" in
  if bool_decide (msg_type = Some (JStr (py "start_listening"))) then
    modify (upd_self (set_is_listening true)) ;;
    _send_message [("type", JStr (py "status")); ("status", JStr (py "listening"))]
  else if bool_decide (msg_type = Some (JStr (py "stop_listening"))) then
    modify (upd_self (set_is_listening false)) ;;
    _send_message [("type", JStr (py "status")); ("status", JStr (py "idle"))]
  else if bool_decide (msg_type = Some (JStr (py "text"))) then
    text ← call (get_stripped message "text");
    if truthy text then _process_text_message text else mret tt
  else if bool_decide (msg_type = Some (JStr (py "audio_config"))) then
    match message !! "vad_threshold" with
    | Some v =>
        x ← call (float_of v);
        modify (upd_self (set_vad_threshold x))
    | None => mret tt
    end
  else if bool_decide (msg_type = Some (JStr (py "ping"))) then
    _send_message [("type", JStr (py "pong"))]
  else mret tt
  end.

(** ** The run of a handler

    The audio thread delivers chunks to [audio_callback]; the event loop
    runs the [_process_audio] tasks that wait in it, one at a time and each
    to its end. An exception ends the callback or the task where it is
    raised. *)
Inductive event :=
  | Chunk (audio_chunk : list sample) (current_time : Q)
  | RunTask.

Definition step (w : World) (e : event) : World :=
  match e with
  | Chunk c t => fst (audio_callback c t w)
  | RunTask =>
      match tasks w with
      | O => w
      | S n => fst (_process_audio (set_tasks n w))
      end
  end.

Definition run (w : World) (es : list event) : World := foldl step w es.

(** An end-of-speech hand-off: a task that finds the recording flag set,
    and so cuts the window and passes it on. *)
Definition hands_off (w : World) (e : event) : bool :=
  match e with
  | Chunk _ _ => false
  | RunTask => bool_decide (tasks w ≠ O) && is_recording (audio_buffer (self w))
  end.

Fixpoint handoffs (w : World) (es : list event) : nat :=
  match es with
  | [] => 0
  | e :: es' => (if hands_off w e then 1 else 0) + handoffs (step w e) es'
  end.

(** ** Vocabulary of the properties *)

(** The completion call of a turn on [text]: the provider's answer to the
    messages built for it. *)
Definition completion (h : Handler) (db : Db) (text : str) : result str :=
  match snd (build_messages (memory_read_fault env) (user_of h) text
                            (system_prompt h) db) with
  | Ok messages =>
      if bool_decide (llm_provider h = py "openai")
      then openai_chat env messages
      else ollama_chat env messages (ollama_host h) (ollama_model h)
  | Raise e => Raise e
  end.

(** The reply of a typed turn: the provider's answer, or the canned reply
    when the completion call raises. *)
Definition text_reply (h : Handler) (db : Db) (text : str) : str :=
  match completion h db text with
  | Ok reply => reply
  | Raise _ => _generate_fallback_response text
  end.

(** The documents the handler sends. *)
Definition transcription_frame (text : str) : frame :=
  Text [("type", JStr (py "transcription")); ("text", JStr text)].
Definition response_frame (reply : str) : frame :=
  Text [("type", JStr (py "response")); ("text", JStr reply)].
Definition user_speech_frame (result : STTResult) : frame :=
  Text [("type", JStr (py "user_speech"));
        ("text", JStr (stt_text result));
        ("language", JStr (stt_language result));
        ("confidence", JNum (stt_confidence result))].
Definition assistant_text_frame (reply : str) : frame :=
  Text [("type", JStr (py "assistant_text")); ("text", JStr reply)].
Definition error_frame (message : str) : frame :=
  Text [("type", JStr (py "error")); ("message", JStr message)].

(** The tail of a turn: synthesis of the reply and the audio frame, or the
    error notice of the enclosing handler when synthesis raises. *)
Definition spoken (context reply : str) : frame :=
  match synthesize env reply with
  | Ok tts_result => Bytes (to_int16 env (tts_audio tts_result))
  | Raise e => error_frame (context ++ exn_str e)
  end.

(** The window [_process_audio] cuts from the buffer. *)
Definition segment (h : Handler) : result (list sample) :=
  let b := audio_buffer h in
  get_audio 0 (fmin 10 (inject_Z (end_idx b - start_idx b)
                        / inject_Z SAMPLE_RATE)) b.

(** The completion call of an audio turn: always Ollama. *)
Definition audio_completion (h : Handler) (db : Db) (text : str) : result str :=
  match snd (build_messages (memory_read_fault env) (user_of h) text
                            (system_prompt h) db) with
  | Ok messages => ollama_chat env messages (ollama_host h) (ollama_model h)
  | Raise e => Raise e
  end.

(** A computation that leaves [self] and the created tasks alone. *)
Definition quiet {A} (m : M World A) : Prop :=
  forall w, self (fst (m w)) = self w /\ tasks (fst (m w)) = tasks w.

(** The buffer of the handler is a ring of [n] samples. *)
Definition ready (n : nat) (w : World) : Prop :=
  well_formed (audio_buffer (self w))
  /\ length (data (audio_buffer (self w))) = n.

(** The times of the chunks of a run. *)
Definition chunk_times (es : list event) : list Q :=
  omap (fun e => match e with Chunk _ t => Some t | RunTask => None end) es.

(** A chunk that fits a ring of [n] samples and is voiced, or unvoiced, at
    the threshold [th]. Tasks may run at any point. *)
Definition voiced_event (th : Q) (n : nat) (e : event) : Prop :=
  match e with
  | Chunk c _ => (0 < length c <= n)%nat /\ louder_than env c th = true
  | RunTask => True
  end.

Definition silent_event (th : Q) (n : nat) (e : event) : Prop :=
  match e with
  | Chunk c _ => (0 < length c <= n)%nat /\ louder_than env c th = false
  | RunTask => True
  end.

(** The two conditions of a session between hand-offs, at the threshold
    [th] and on a ring of [n] samples: recording, with the silence timer at
    [since]; and not recording. *)
Definition recording_since (th : Q) (n : nat) (since : option Q) (w : World)
  : Prop :=
  ready n w /\ vad_threshold (self w) = th
  /\ is_recording (audio_buffer (self w)) = true
  /\ silence_start_time (self w) = since.

Definition idle_at (th : Q) (n : nat) (w : World) : Prop :=
  ready n w /\ vad_threshold (self w) = th
  /\ is_recording (audio_buffer (self w)) = false.

(** The silence that began at [t0] has lasted [SILENCE_DURATION] at [t]. *)
Definition silence_elapsed (t0 t : Q) : Prop :=
  Qle_bool SILENCE_DURATION (t - t0) = true.

End WithCollaborators.
Arguments TTSResult : clear implicits.
Arguments Env : clear implicits.
Arguments Handler : clear implicits.
Arguments World : clear implicits.
Arguments event : clear implicits.

End Handler.

Import Handler.

(* ===================================================================== *)
(** * Concrete states and inputs                                          *)
(* ===================================================================== *)

Module Scenario.

Definition ana : str := py "Eu sou Ana.".

(** The table after a user said the same sentence in two turns. *)
Definition told_twice : Db :=
  insert (insert empty_db (py "u") ana (py "2024-05-01T10:00:00"))
         (py "u") ana (py "2024-05-01T10:05:00").

Definition locked : exn := OperationalError (py "database is locked").

Definition noon : str := py "2024-05-01T12:00:00".

(** A ring of four samples, as [AudioBuffer] builds it. *)
Definition ring4 : AudioBuffer Z := new 0%Z 16000 4.

(** A chunk is voiced when its peak exceeds the threshold. *)
Definition peak_over (chunk : list Z) (th : Q) : bool :=
  existsb (fun x => negb (Qle_bool (inject_Z (Z.abs x)) th)) chunk.

(** Collaborators: the completion engine answers [llm], and SQLite's
    writes fail with [write_fault]. *)
Definition collaborators (llm : result str) (write_fault : option exn) : Env Z :=
  {| ollama_chat := fun _ _ _ => llm;
     openai_chat := fun _ => llm;
     transcribe := fun _ => Ok {| stt_text := ana; stt_language := py "pt";
                                  stt_confidence := 9 # 10 |};
     synthesize := fun _ => Ok {| tts_audio := [0; 0]%Z;
                                  tts_sample_rate := 22050 |};
     memory_read_fault := None;
     memory_write_fault := write_fault;
     utcnow := noon;
     random_index := 2;
     louder_than := peak_over;
     normalize := fun a => a;
     to_int16 := fun a => a;
     parse_float := fun _ => None |}.

Definition offline : exn := Exception (py "Error communicating with Ollama").

(** A connected session on a ring of four samples. *)
Definition session : World Z :=
  {| self := set_websocket (Some (Socket 1))
               (init_with ring4 (py "http://localhost:11434") (py "llama3")
                          (py "Você é a Nathy.") (py "ollama"));
     memory := empty_db;
     sent := [];
     tasks := 0 |}.

(** An utterance of two voiced chunks, then silence for more than a second
    and a half, with one task run before the last chunk. *)
Definition utterance : list (event Z) :=
  [Chunk [1; 1]%Z 0; Chunk [1; 0]%Z (1 # 10)].


(** Twenty words and no terminal punctuation. *)
Definition twenty_words : str :=
  py "hoje de manha o gato da vizinha subiu no telhado da nossa casa e ficou la ate o sol sumir".

End Scenario.

(* ===================================================================== *)
(** * Vocabulary for the store                                            *)
(* ===================================================================== *)

Module Recall.

(** The texts stored for a user, newest first. *)
Definition facts_of (db : Db) (u : str) : list str :=
  rev (map fact (filter (fun r => user_id r = u) (facts db))).

(** [s] occurs in [text] as a run of consecutive characters. *)
Definition infix_of (s text : str) : Prop :=
  exists pre post, text = pre ++ s ++ post.

Section WithUnicode.
Context `{Unicode}.

(** The characters [_tokenize] keeps in a token. *)
Definition word_char (ch : char) : bool :=
  isalnum ch || bool_decide (ch ∈ extra_letters).

(** Every token of the query occurs in the lowercased fact. *)
Definition matches_all (query f : str) : Prop :=
  Forall (fun t => contains t (lower f) = true) (query_tokens query).

(** No token of the query occurs in any fact stored for the user. *)
Definition matches_none (db : Db) (u query : str) : Prop :=
  forall f, f ∈ facts_of db u -> score (query_tokens query) f = 0%nat.

End WithUnicode.

End Recall.

Import Recall.

(* ===================================================================== *)
(** * main.py: the chat endpoint                                          *)
(* ===================================================================== *)

Module Main.

(** [ChatRequest] *)
Record ChatRequest := {
  user_id : str;
  text : str
}.

(** The fields of [settings] the endpoint reads. *)
Record Settings := {
  ollama_host : str;
  ollama_model : str;
  system_prompt : str
}.

(** The collaborators of a request: the outcome of [ollama_chat], SQLite
    raising inside [get_top_facts] or inside [add_fact], and the clock. *)
Record Env := {
  ollama_chat : list message -> str -> str -> result str;
  memory_read_fault : option exn;
  memory_write_fault : option exn;
  utcnow : str
}.

(** What FastAPI gets from the endpoint: the dict it returns, or the
    [HTTPException] it raises. *)
Inductive response :=
  | Returned (body : list (string * str))
  | HTTPException (status_code : Z) (detail : str).

Section WithUnicode.
Context `{Unicode}.

(** The [try] block of [chat_endpoint], on the database behind [memory]. *)
Definition chat (env : Env) (settings : Settings) (req : ChatRequest)
  : M Db (list (string * str)) :=
  match maybe_extract_fact (text req) with
  | Some fact =>
      if truthy fact
      then add_fact (memory_write_fault env) (utcnow env) (user_id req) fact
      else mret tt
  | None => mret tt
  end ;;
  messages ← build_messages (memory_read_fault env) (user_id req) (text req)
                            (system_prompt settings);
  reply ← call (ollama_chat env messages (ollama_host settings)
                            (ollama_model settings));
  mret [("reply"%string, reply)].

(** [chat_endpoint] *)
Definition chat_endpoint (env : Env) (settings : Settings) (req : ChatRequest)
  : Db -> Db * response :=
  fun db => match chat env settings req db with
            | (db', Ok body) => (db', Returned body)
            | (db', Raise e) => (db', HTTPException 500 (exn_str e))
            end.

End WithUnicode.

End Main.

(** Requests to the chat endpoint. *)
Module Requests.

Definition services (llm : result str) (write_fault : option exn) : Main.Env :=
  {| Main.ollama_chat := fun _ _ _ => llm;
     Main.memory_read_fault := None;
     Main.memory_write_fault := write_fault;
     Main.utcnow := Scenario.noon |}.

Definition defaults : Main.Settings :=
  {| Main.ollama_host := py "http://127.0.0.1:11434";
     Main.ollama_model := py "qwen2.5:7b";
     Main.system_prompt := py "Você é a Nathy." |}.

Definition natal : Main.ChatRequest :=
  {| Main.user_id := py "u"; Main.text := py " Eu moro em Natal. " |}.

End Requests.

(* ===================================================================== *)
(** * Vocabulary for the ring                                             *)
(* ===================================================================== *)

Module Ring.

(** The unread samples of a buffer, oldest first: those from [start_idx]
    on, around the end of the ring, up to [end_idx]. *)
Definition window {sample : Type} (b : AudioBuffer sample) : list sample :=
  take (Z.to_nat (window_size b)) (rotate (Z.to_nat (start_idx b)) (data b)).

(** [append] of one chunk after the other. *)
Definition append_all {sample : Type} (chunks : list (list sample))
  : M (AudioBuffer sample) unit :=
  foldr (fun chunk rest => append chunk ;; rest) (mret tt) chunks.

(** The time at which the sample of index [k] is read, at the rate [rate]. *)
Definition seconds (k rate : Z) : Q := inject_Z k / inject_Z rate.

(** A ring of four samples whose cursors have gone around to the last
    position, with nothing unread. *)
Definition turned : AudioBuffer Z :=
  {| data := [1; 2; 3; 4]%Z; sample_rate := 16000;
     start_idx := 3; end_idx := 3; is_recording := true |}.

End Ring.

Import Ring.

(* ===================================================================== *)
(** * Vocabulary for what the handler leaves alone                        *)
(* ===================================================================== *)

Module Effects.

Section WithSample.
Context {sample : Type}.

(** [m] takes every state to one that [R] relates to it, whether it
    returns or raises. *)
Definition keeps (R : relation (World sample)) {A}
    (m : M (World sample) A) : Prop :=
  forall w, R w (fst (m w)).

(** From a state without a socket: still no socket, and no frame more. *)
Definition mute (w w' : World sample) : Prop :=
  websocket (self w) = None ->
  websocket (self w') = None /\ sent w' = sent w.

(** The rows stored before are still there, in their places. *)
Definition keeps_rows (w w' : World sample) : Prop :=
  facts (memory w) `prefix_of` facts (memory w').

(** No frame is sent and the store is not touched. *)
Definition silent (w w' : World sample) : Prop :=
  sent w' = sent w /\ memory w' = memory w.

(** [m] never looks at the [is_listening] flag: run with the flag set to
    [v], it does what it does otherwise. *)
Definition blind_to_listening {A} (m : M (World sample) A) : Prop :=
  forall v w,
    m (upd_self (set_is_listening v) w)
    = (upd_self (set_is_listening v) (fst (m w)), snd (m w)).

End WithSample.

End Effects.

Import Effects.

(** Sessions and messages for the handler. *)
Module Sessions.

(** A ring of four samples holding two unread samples, around its end. *)
Definition wrapped : AudioBuffer Z :=
  {| data := [1; 2; 3; 4]%Z; sample_rate := SAMPLE_RATE;
     start_idx := 3; end_idx := 1; is_recording := true |}.

(** The connected session, recording into that ring. *)
Definition speaking : World Z :=
  upd_self (set_audio_buffer wrapped) Scenario.session.

(** The connected session before any voice. *)
Definition waiting : World Z := Scenario.session.

(** A handler whose ring of 200000 samples holds 169000 unread ones. *)
Definition long_take : Handler Z :=
  set_audio_buffer
    {| data := replicate (Z.to_nat 200000) 0%Z; sample_rate := SAMPLE_RATE;
       start_idx := 1000; end_idx := 170000; is_recording := true |}
    (self Scenario.session).

(** What the speech recogniser of [Scenario.collaborators] returns. *)
Definition heard : STTResult :=
  {| stt_text := Scenario.ana; stt_language := py "pt";
     stt_confidence := 9 # 10 |}.

(** A [text] message whose text is a number. *)
Definition number_as_text : document :=
  Dict (<[ "text"%string := JNum 1 ]> {[ "type"%string := JStr (py "text") ]}).

(** A threshold sent as an integer of 401 digits. *)
Definition huge_threshold : document :=
  Dict (<[ "vad_threshold"%string := JNum (inject_Z (10 ^ 400)) ]>
          {[ "type"%string := JStr (py "audio_config") ]}).

(** Two unvoiced chunks eight tenths of a second apart, with a run of the
    event loop between them. *)
Definition short_pause : list (event Z) :=
  [Chunk [0; 0]%Z (2 # 10); RunTask; Chunk [0; 0]%Z 1].

End Sessions.

(** What the audio thread leaves alone. *)
Module Threads.




End Threads.

(* ==== Properties ==== *)

(* ===================================================================== *)
(** * Strings                                                             *)
(* ===================================================================== *)

Section StrFacts.

Lemma startswith_prefix (s p : str) :
  startswith s p = true <-> exists rest, s = p ++ rest.
Proof.
  revert s. induction p as [|x p IH]; intros s; simpl.
  - split; [intros _; by exists s | done].
  - destruct s as [|y s].
    + split; [done | intros [r Hr]; discriminate].
    + rewrite andb_true_iff, N.eqb_eq, IH. split.
      * intros [-> [r ->]]. by exists r.
      * intros [r Hr]. injection Hr as -> ->. eauto.
Qed.

Lemma endswith_suffix (s p : str) :
  endswith s p = true <-> exists body, s = body ++ p.
Proof.
  unfold endswith. rewrite startswith_prefix. split.
  - intros [r Hr]. exists (rev r).
    rewrite <- (rev_involutive s), Hr, rev_app_distr, rev_involutive. done.
  - intros [b ->]. exists (rev b). by rewrite rev_app_distr.
Qed.

Lemma lstrip_head (s : str) c r : lstrip s = c :: r -> isspace c = false.
Proof.
  induction s as [|a s IH]; simpl; [done|].
  destruct (isspace a) eqn:Ha; [done|]. by intros [= <- _].
Qed.

Lemma lstrip_nil (s : str) :
  lstrip s = [] <-> Forall (fun c => isspace c = true) s.
Proof.
  induction s as [|a s IH]; simpl.
  - split; [constructor | done].
  - destruct (isspace a) eqn:Ha.
    + rewrite IH. split; [by constructor | by inversion 1].
    + split; [done | inversion 1; congruence].
Qed.

Lemma lstrip_fixed (s : str) c :
  isspace c = false -> lstrip (c :: s) = c :: s.
Proof. intros Hc. simpl. by rewrite Hc. Qed.

Lemma lstrip_idem (s : str) : lstrip (lstrip s) = lstrip s.
Proof.
  destruct (lstrip s) as [|c r] eqn:E; [done|].
  by apply lstrip_fixed, (lstrip_head s c r).
Qed.

Lemma lstrip_snoc (s : str) c :
  isspace c = false -> lstrip (s ++ [c]) = lstrip s ++ [c].
Proof.
  intros Hc. induction s as [|a s IH]; simpl; [by rewrite Hc|].
  by destruct (isspace a).
Qed.

Lemma rstrip_cons (s : str) c :
  isspace c = false -> rstrip (c :: s) = c :: rstrip s.
Proof.
  intros Hc. unfold rstrip. simpl.
  by rewrite lstrip_snoc, rev_app_distr.
Qed.

Lemma rstrip_idem (s : str) : rstrip (rstrip s) = rstrip s.
Proof. unfold rstrip. by rewrite rev_involutive, lstrip_idem. Qed.

Lemma rstrip_nil (s : str) :
  rstrip s = [] <-> Forall (fun c => isspace c = true) s.
Proof.
  unfold rstrip. split.
  - intros E. apply (f_equal (@rev _)) in E. rewrite rev_involutive in E.
    simpl in E. apply lstrip_nil in E. apply Forall_rev in E.
    by rewrite rev_involutive in E.
  - intros Hs. apply Forall_rev in Hs. apply lstrip_nil in Hs. by rewrite Hs.
Qed.

(** The trimmed text is empty exactly for whitespace-only input. *)
Lemma strip_nil (s : str) :
  strip s = [] <-> Forall (fun c => isspace c = true) s.
Proof.
  unfold strip. split.
  - intros E. apply lstrip_nil.
    destruct (lstrip s) as [|c r] eqn:El; [done|].
    rewrite rstrip_cons in E by (by apply (lstrip_head s c r)). done.
  - intros Hs. apply lstrip_nil in Hs. by rewrite Hs.
Qed.

(** Trimming a text that does not start with whitespace keeps its head. *)
Lemma strip_cons (s : str) c :
  isspace c = false -> strip (c :: s) = c :: rstrip s.
Proof. intros Hc. unfold strip. by rewrite lstrip_fixed, rstrip_cons. Qed.

Lemma strip_idem (s : str) : strip (strip s) = strip s.
Proof.
  unfold strip at 2 3.
  destruct (lstrip s) as [|c r] eqn:E; [done|].
  pose proof (lstrip_head s c r E) as Hc.
  rewrite rstrip_cons by done. rewrite strip_cons by done.
  by rewrite rstrip_idem.
Qed.

(** [lstrip] drops a run of whitespace from the front, and nothing else. *)
Lemma lstrip_split (s : str) :
  exists ws, s = ws ++ lstrip s /\ Forall (fun c => isspace c = true) ws.
Proof.
  induction s as [|a s (ws & E & Hws)]; simpl.
  - by exists [].
  - destruct (isspace a) eqn:Ha.
    + exists (a :: ws). split; [simpl; congruence | by constructor].
    + by exists [].
Qed.

Lemma rstrip_split (s : str) :
  exists ws, s = rstrip s ++ ws /\ Forall (fun c => isspace c = true) ws.
Proof.
  destruct (lstrip_split (rev s)) as (ws & E & Hws).
  exists (rev ws). split; [|by apply Forall_rev].
  unfold rstrip. rewrite <- rev_app_distr, <- E. by rewrite rev_involutive.
Qed.

Lemma split_go_leading (ws s : str) :
  Forall (fun c => isspace c = true) ws ->
  split_go (ws ++ s) [] = split_go s [].
Proof. induction 1 as [|c ws Hc _ IH]; simpl; [done|]. by rewrite Hc. Qed.

Lemma split_go_trailing (s ws cur : str) :
  Forall (fun c => isspace c = true) ws ->
  split_go (s ++ ws) cur = split_go s cur.
Proof.
  intros Hws. revert cur. induction s as [|c s IH]; intros cur; simpl.
  - revert cur. induction Hws as [|c ws Hc _ IH]; intros cur; simpl; [done|].
    rewrite Hc. destruct cur; rewrite IH; done.
  - destruct (isspace c); [destruct cur|]; by rewrite IH.
Qed.

(** Trimming does not change the tokens. *)
Lemma split_strip (s : str) : split (strip s) = split s.
Proof.
  unfold split, strip.
  destruct (lstrip_split s) as (ws1 & E1 & H1).
  destruct (rstrip_split (lstrip s)) as (ws2 & E2 & H2).
  rewrite E1 at 2. rewrite split_go_leading by done.
  rewrite E2 at 2. by rewrite split_go_trailing.
Qed.

Lemma truthy_nil {A} (l : list A) : truthy l = false <-> l = [].
Proof. by destruct l. Qed.

Lemma truthy_cons {A} (l : list A) : truthy l = true <-> l <> [].
Proof. by destruct l. Qed.

End StrFacts.

(* ===================================================================== *)
(** * memory.py                                                           *)
(* ===================================================================== *)

Section MemoryFacts.
Context `{Unicode}.

(** ** The de-duplicating loop *)

Lemma collect_extends limit scored seen out seen' out' :
  collect limit scored seen out = (seen', out') ->
  exists more, out' = out ++ more.
Proof.
  revert seen out. induction scored as [|[sc f] rest IH]; intros seen out; simpl.
  - intros [= _ <-]. exists []. by rewrite app_nil_r.
  - destruct (decide (f ∈ seen)); [apply IH|].
    destruct (limit <=? _)%Z.
    + intros [= _ <-]. by exists [f].
    + intros E. apply IH in E as [more ->]. exists (f :: more).
      by rewrite <- app_assoc.
Qed.

(** What the loop keeps: no text twice, only texts that were scored, and
    no more than [limit] of them once [limit] is at least 1. *)
Lemma collect_spec limit scored seen out seen' out' :
  collect limit scored seen out = (seen', out') ->
  NoDup out -> (forall f, f ∈ out -> f ∈ seen) ->
  NoDup out'
  /\ (forall f, f ∈ out' -> f ∈ seen')
  /\ (forall f, f ∈ out' -> f ∈ out \/ f ∈ scored.*2)
  /\ (Z.of_nat (length out') <= Z.max limit (Z.of_nat (length out) + 1)
      \/ out' = out)%Z.
Proof.
  revert seen out.
  induction scored as [|[sc f] rest IH]; intros seen out; simpl.
  - intros [= <- <-] Hnd Hin. repeat split; auto.
  - destruct (decide (f ∈ seen)) as [Hseen|Hseen].
    + intros E Hnd Hin. destruct (IH _ _ E Hnd Hin) as (?&?&Hsrc&?).
      repeat split; auto. intros g Hg. destruct (Hsrc g Hg); auto.
      right. by right.
    + intros E Hnd Hin.
      assert (NoDup (out ++ [f])) as Hnd'.
      { apply NoDup_app. repeat split; auto.
        - intros g Hg ->%list_elem_of_singleton. auto.
        - apply NoDup_singleton. }
      assert (forall g, g ∈ out ++ [f] -> g ∈ ({[f]} ∪ seen : gset str)) as Hin'.
      { intros g [Hg| ->%list_elem_of_singleton]%elem_of_app.
        - apply elem_of_union_r. auto.
        - apply elem_of_union_l. by apply elem_of_singleton. }
      destruct (limit <=? _)%Z eqn:Hlim.
      * injection E as <- <-. repeat split; auto.
        -- intros g [Hg| ->%list_elem_of_singleton]%elem_of_app; auto.
           right. by left.
        -- left. rewrite length_app. simpl. lia.
      * destruct (IH _ _ E Hnd' Hin') as (?&?&Hsrc&Hlen).
        repeat split; auto.
        -- intros g Hg.
           destruct (Hsrc g Hg)
             as [[?| ->%list_elem_of_singleton]%elem_of_app|?]; auto.
           ++ right. by left.
           ++ right. by right.
        -- left. apply Z.leb_gt in Hlim. rewrite length_app in *. simpl in *.
           destruct Hlen as [Hlen| ->]; [|rewrite length_app; simpl]; lia.
Qed.

(** When the loop keeps nothing, it has seen nothing. *)
Lemma collect_nothing limit scored seen' :
  collect limit scored ∅ [] = (seen', []) -> scored = [] /\ seen' = ∅.
Proof.
  destruct scored as [|[sc f] rest]; simpl; [by intros [= <-]|].
  destruct (decide (f ∈ (∅ : gset str))) as [Hf|_]; [set_solver|].
  destruct (limit <=? _)%Z; [done|].
  intros [more E]%collect_extends. destruct more; discriminate.
Qed.

(** ** Scoring and sorting *)

Lemma score_rows_positive tokens rows sc f :
  (sc, f) ∈ score_rows tokens rows ->
  (0 < sc)%nat /\ sc = score tokens f /\ f ∈ rows.*1.
Proof.
  unfold score_rows. rewrite list_elem_of_omap. intros [[g ts] [Hrow Hsome]].
  simpl in Hsome. destruct (0 <? _)%nat eqn:Hpos; [|done].
  injection Hsome as <- <-. apply Nat.ltb_lt in Hpos. repeat split; auto.
  apply list_elem_of_fmap. by exists (g, ts).
Qed.

Lemma insert_desc_perm x l : insert_desc x l ≡ₚ x :: l.
Proof.
  induction l as [|y l IH]; simpl; [done|].
  destruct (_ <? _)%nat; [|done]. rewrite IH. apply Permutation_swap.
Qed.

Lemma sort_desc_perm l : sort_desc l ≡ₚ l.
Proof.
  induction l as [|x l IH]; simpl; [done|].
  by rewrite insert_desc_perm, IH.
Qed.

Lemma insert_desc_descending x l : descending l -> descending (insert_desc x l).
Proof.
  induction 1 as [|y l Hy Hl IH]; simpl.
  - by repeat constructor.
  - destruct (fst x <? fst y)%nat eqn:E.
    + apply Nat.ltb_lt in E. constructor; [|done].
      rewrite insert_desc_perm. constructor; [lia|done].
    + apply Nat.ltb_ge in E. constructor; [|by constructor].
      constructor; [done|]. eapply Forall_impl; [exact Hy|]. simpl. intros; lia.
Qed.

Lemma sort_desc_descending l : descending (sort_desc l).
Proof.
  induction l; simpl; [constructor | by apply insert_desc_descending].
Qed.

(** ** The fallback loop *)

(** With nothing seen, the fallback takes the rows as they come: the most
    recent [min(limit, 3)] of them, and one row even when that is 0 or
    less. *)
Lemma recent_take limit rows out2 :
  recent limit rows ∅ out2 =
  out2 ++ take (Z.to_nat (Z.max 1 (Z.min limit 3 - Z.of_nat (length out2))))
               rows.*1.
Proof.
  revert out2. induction rows as [|[f ts] rows IH]; intros out2; simpl.
  - by rewrite take_nil, app_nil_r.
  - destruct (decide (f ∈ (∅ : gset str))) as [Hf|_]; [set_solver|].
    rewrite length_app. simpl.
    destruct (_ <=? _)%Z eqn:E.
    + apply Z.leb_le in E.
      replace (Z.to_nat _) with 1%nat by lia. simpl. by rewrite take_0.
    + apply Z.leb_gt in E. rewrite IH, length_app. simpl.
      rewrite <- app_assoc. simpl. f_equal.
      replace (Z.to_nat (Z.max 1 (Z.min limit 3 - Z.of_nat (length out2))))
        with (S (Z.to_nat (Z.max 1 (Z.min limit 3 - Z.of_nat (length out2 + 1)))))
        by lia.
      done.
Qed.

(** ** [get_top_facts] *)

(** When some fact matches the query ([limit] at least 1): at most [limit]
    texts, no text twice, and each of them matches the query. *)
Lemma top_facts_scored rows query limit :
  (1 <= limit)%Z ->
  score_rows (query_tokens query) rows <> [] ->
  let out := top_facts rows query limit in
  out <> []
  /\ (Z.of_nat (length out) <= limit)%Z
  /\ NoDup out
  /\ (forall f, f ∈ out ->
        f ∈ rows.*1 /\ (0 < score (query_tokens query) f)%nat).
Proof.
  intros Hlimit Hsome. unfold top_facts.
  destruct (collect _ _ _ _) as [seen out] eqn:E.
  destruct (collect_spec _ _ _ _ _ _ E) as (Hnd & _ & Hsrc & Hlen);
    [constructor | by intros ? ?%elem_of_nil |].
  destruct out as [|f0 out]; simpl.
  { apply collect_nothing in E as [E _]. exfalso. apply Hsome.
    apply Permutation_nil_r. by rewrite <- E, sort_desc_perm. }
  split; [done|]. split; [|split; [done|]].
  - simpl in Hlen. destruct Hlen as [?|?]; [lia|done].
  - intros f Hf. destruct (Hsrc f Hf) as [?%elem_of_nil|Hsc]; [done|].
    apply list_elem_of_fmap in Hsc as [[sc g] [-> Hg]].
    rewrite sort_desc_perm in Hg. apply score_rows_positive in Hg as (?&?&?).
    simpl. split; [done|lia].
Qed.

(** When no fact matches the query: the [min(limit, 3)] most recent texts
    (one text when that is 0 or less), repetitions included. *)
Lemma top_facts_fallback rows query limit :
  score_rows (query_tokens query) rows = [] ->
  top_facts rows query limit = take (Z.to_nat (Z.max 1 (Z.min limit 3))) rows.*1.
Proof.
  intros Hnone. unfold top_facts. rewrite Hnone. simpl.
  rewrite recent_take. simpl. by rewrite Z.sub_0_r.
Qed.

(** Nothing of a two-letter query survives the length filter. *)
Lemma query_tokens_oi : query_tokens (py "Oi") = [].
Proof.
  unfold query_tokens.
  rewrite lower_latin1 by (vm_compute; repeat constructor).
  unfold _tokenize. change (map latin1_lower (strip (py "Oi"))) with [111%N; 105%N].
  simpl. destruct (isalnum 111%N), (isalnum 105%N); reflexivity.
Qed.

(** C1. [get_top_facts] at a table in which the user's one sentence was
    stored twice, and a query that matches nothing: with [limit = 6] the
    result lists the same text twice, and with [limit = 0] it has one
    entry. *)
Theorem get_top_facts_fallback_repeats :
  get_top_facts None (py "u") (py "Oi") 6 Scenario.told_twice
    = (Scenario.told_twice, Ok [Scenario.ana; Scenario.ana])
  /\ get_top_facts None (py "u") (py "Oi") 0 Scenario.told_twice
    = (Scenario.told_twice, Ok [Scenario.ana]).
Proof.
  unfold get_top_facts, mbind, M_bind, execute, mret, M_ret.
  change (select_recent Scenario.told_twice (py "u"))
    with [(Scenario.ana, py "2024-05-01T10:05:00");
          (Scenario.ana, py "2024-05-01T10:00:00")].
  rewrite !top_facts_fallback
    by (unfold score_rows, score; rewrite query_tokens_oi; reflexivity).
  split; reflexivity.
Qed.

End MemoryFacts.

(** C8. [add_fact] with a text that is blank once trimmed returns without
    touching the database and without raising, whatever the state of
    SQLite; with any other text it adds one row at the end of the table,
    holding the trimmed text and the timestamp of the call, and leaves the
    rows before it as they were (and when SQLite raises, the table is as
    before). *)
Theorem add_fact_blank_or_append (fault : option exn) (now u text : str) (db : Db) :
  (Forall (fun c => isspace c = true) text ->
     add_fact fault now u text db = (db, Ok tt))
  /\ (~ Forall (fun c => isspace c = true) text ->
     add_fact fault now u text db =
       match fault with
       | None =>
           ({| facts := facts db ++ [{| id := seq db + 1; user_id := u;
                                        fact := strip text; created_at := now |}];
               seq := seq db + 1 |}, Ok tt)
       | Some e => (db, Raise e)
       end).
Proof.
  unfold add_fact. split; intros Hb.
  - apply strip_nil in Hb. by rewrite Hb.
  - destruct (strip text) as [|c t] eqn:E; [by apply strip_nil in E|].
    simpl. unfold execute. by destruct fault.
Qed.

Lemma add_fact_blank_or_append_witness :
  add_fact (Some Scenario.locked) Scenario.noon (py "u") (py "   ")
           Scenario.told_twice = (Scenario.told_twice, Ok tt)
  /\ length (facts (fst (add_fact None Scenario.noon (py "u")
                                  (py " Eu moro em Natal. ")
                                  Scenario.told_twice))) = 3%nat.
Proof.
  split.
  - apply (proj1 (add_fact_blank_or_append (Some Scenario.locked) Scenario.noon
                    (py "u") (py "   ") Scenario.told_twice)).
    vm_compute. repeat constructor.
  - rewrite (proj2 (add_fact_blank_or_append None Scenario.noon
                      (py "u") (py " Eu moro em Natal. ") Scenario.told_twice)).
    + reflexivity.
    + intros Hf%strip_nil. vm_compute in Hf. discriminate Hf.
Defined.

(* ===================================================================== *)
(** * llm_utils.py                                                        *)
(* ===================================================================== *)

Section LlmUtilsFacts.
Context `{Unicode}.

Lemma startswith_any_begins (ps : list str) (t : str) :
  startswith_any (lower t) ps = true <-> begins_with ps t.
Proof.
  unfold startswith_any, begins_with. rewrite existsb_exists. split.
  - intros [p [Hp [rest E]%startswith_prefix]]. exists p, rest.
    split; [by apply list_elem_of_In | done].
  - intros (p & rest & Hp & E). exists p.
    split; [by apply list_elem_of_In | apply startswith_prefix; eauto].
Qed.

Lemma endswith_any_terminators (t : str) :
  endswith_any t terminators = true <-> ends_sentence t.
Proof.
  unfold endswith_any, ends_sentence. rewrite existsb_exists.
  change terminators with [[46%N]; [33%N]; [63%N]].
  change (py ".!?") with [46%N; 33%N; 63%N].
  split.
  - intros [p [Hp [body E]%endswith_suffix]].
    apply list_elem_of_In in Hp. rewrite !elem_of_cons, elem_of_nil in Hp.
    destruct Hp as [->|[->|[->|[]]]]; eexists body, _;
      (split; [exact E|]); rewrite !elem_of_cons; auto.
  - intros (body & c & -> & Hc). exists [c]. split.
    + apply list_elem_of_In. rewrite !elem_of_cons, elem_of_nil in Hc.
      rewrite !elem_of_cons. destruct Hc as [->|[->|[->|[]]]]; auto.
    + apply endswith_suffix. eauto.
Qed.

Lemma maybe_extract_fact_policy (text : str) :
  extraction_policy text (maybe_extract_fact text).
Proof.
  unfold maybe_extract_fact.
  destruct (truthy (strip text)) eqn:Et; cbn [negb].
  2:{ apply policy_blank, strip_nil. by apply truthy_nil. }
  assert (~ blank text) as Hb.
  { intros Hb%strip_nil. rewrite Hb in Et. done. }
  destruct (startswith_any (lower (strip text)) prefixes) eqn:Ep.
  { apply policy_statement; [done|]. by apply startswith_any_begins. }
  assert (~ begins_with prefixes (strip text)) as Hp.
  { intros Hp%startswith_any_begins. congruence. }
  destruct (startswith_any (lower (strip text)) question_prefixes) eqn:Eq.
  { apply policy_question; [done..|]. by apply startswith_any_begins. }
  assert (~ begins_with question_prefixes (strip text)) as Hq.
  { intros Hq%startswith_any_begins. congruence. }
  destruct (_ && _) eqn:Es.
  - apply andb_true_iff in Es as [Hn He]. apply policy_short; [done..|].
    split; [by apply Nat.leb_le | by apply endswith_any_terminators].
  - apply policy_other; [done..|]. intros [Hn He].
    apply Nat.leb_le in Hn. apply endswith_any_terminators in He.
    rewrite Hn, He in Es. done.
Qed.

Lemma extraction_policy_functional (text : str) r1 r2 :
  extraction_policy text r1 -> extraction_policy text r2 -> r1 = r2.
Proof. destruct 1; destruct 1; done. Qed.

(** Whatever the extractor returns is the trimmed input, and not empty. *)
Lemma maybe_extract_fact_some (text fact : str) :
  maybe_extract_fact text = Some fact ->
  fact = strip text /\ truthy fact = true.
Proof.
  unfold maybe_extract_fact.
  destruct (truthy (strip text)) eqn:Et; cbn [negb]; [|done].
  destruct (startswith_any (lower (strip text)) prefixes); [by intros [= <-]|].
  destruct (startswith_any (lower (strip text)) question_prefixes); [done|].
  destruct (_ && _); [by intros [= <-]|done].
Qed.

(** C4. [maybe_extract_fact] follows the ordered policy: blank input gives
    none; else a text whose lowercasing starts with a declarative prefix is
    returned trimmed; else a text starting with an interrogative prefix
    gives none; else a text of at most 15 tokens ending in a full stop, an
    exclamation or a question mark is returned trimmed; everything else
    gives none. The sentence [Meu nome é Ana.] is returned as it is,
    [Qual é seu nome?] gives none, and so does a sentence of 20 words (as
    does any text of more than 15 tokens) that step two does not claim. *)
Theorem maybe_extract_fact_ordered_policy :
  (forall text r, extraction_policy text r <-> maybe_extract_fact text = r)
  /\ maybe_extract_fact (py "Meu nome é Ana.") = Some (py "Meu nome é Ana.")
  /\ maybe_extract_fact (py "Qual é seu nome?") = None
  /\ (forall text, (15 < length (split text))%nat ->
        ~ begins_with prefixes (strip text) ->
        maybe_extract_fact text = None)
  /\ length (split Scenario.twenty_words) = 20%nat
  /\ ~ ends_sentence Scenario.twenty_words
  /\ maybe_extract_fact Scenario.twenty_words = None.
Proof.
  split; [|split; [|split; [|split; [|split; [|split]]]]].
  - intros text r. split.
    + intros Hr. eapply extraction_policy_functional; [|exact Hr].
      apply maybe_extract_fact_policy.
    + intros <-. apply maybe_extract_fact_policy.
  - unfold maybe_extract_fact.
    rewrite lower_latin1 by (vm_compute; repeat constructor).
    vm_compute. reflexivity.
  - unfold maybe_extract_fact.
    rewrite lower_latin1 by (vm_compute; repeat constructor).
    vm_compute. reflexivity.
  - intros text Hlen Hdecl.
    destruct (maybe_extract_fact_policy text) as [| |? ? ?|? ? ? [Hn _]|];
      try done.
    rewrite split_strip in Hn. lia.
  - vm_compute. reflexivity.
  - intros He%endswith_any_terminators. vm_compute in He. discriminate He.
  - unfold maybe_extract_fact.
    rewrite lower_latin1 by (vm_compute; repeat constructor).
    vm_compute. reflexivity.
Qed.

(** [build_messages] neither raises nor touches the database, and its
    result is determined by the facts the store returns. *)
Lemma build_messages_outcome (fault : option exn)
    (user_id user_text system_prompt : str) (db : Db) :
  build_messages fault user_id user_text system_prompt db =
    (db, Ok [ {| role := py "system";
                 content :=
                   match snd (get_top_facts fault user_id user_text 6 db) with
                   | Ok (fact :: more) =>
                       system_prompt ++ nl ++ nl
                         ++ py "Memórias relevantes sobre o usuário:" ++ nl
                         ++ join nl (map (fun f => py "- " ++ f) (fact :: more))
                   | Ok [] | Raise _ => system_prompt
                   end |};
              {| role := py "user"; content := user_text |} ]).
Proof.
  unfold build_messages, try_except, get_top_facts, mbind, M_bind, execute,
    mret, M_ret.
  destruct fault as [e|]; [reflexivity|]. cbn [snd].
  destruct (top_facts _ _ _) as [|fact more]; [reflexivity|].
  unfold memory_block.
  assert (exists tl, join nl (map (fun f => py "- " ++ f) (fact :: more))
                     = 45%N :: tl) as [tl Etl].
  { destruct more; simpl; eauto. }
  cbn [truthy]. rewrite Etl, strip_cons by reflexivity. reflexivity.
Qed.

(** C6. [build_messages] returns exactly two messages and never raises: a
    system message, then a user message holding the utterance. The system
    message is the system prompt, followed, when [get_top_facts] with
    limit 6 returns any facts, by the introductory line and one [- fact]
    line per fact; when the store raises, it is the system prompt as
    given. *)
Theorem build_messages_two (fault : option exn)
    (user_id user_text system_prompt : str) (db : Db) :
  exists final_system_prompt,
    build_messages fault user_id user_text system_prompt db =
      (db, Ok [ {| role := py "system"; content := final_system_prompt |};
                {| role := py "user"; content := user_text |} ])
    /\ final_system_prompt =
         match snd (get_top_facts fault user_id user_text 6 db) with
         | Ok (fact :: more) =>
             system_prompt ++ nl ++ nl
               ++ py "Memórias relevantes sobre o usuário:" ++ nl
               ++ join nl (map (fun f => py "- " ++ f) (fact :: more))
         | Ok [] | Raise _ => system_prompt
         end
    /\ (fault <> None -> final_system_prompt = system_prompt).
Proof.
  eexists. split; [apply build_messages_outcome|]. split; [reflexivity|].
  destruct fault; [reflexivity|done].
Qed.

End LlmUtilsFacts.

Lemma maybe_extract_fact_ordered_policy_witness :
  maybe_extract_fact (py "Eu gosto de cinema e de teatro") =
    Some (py "Eu gosto de cinema e de teatro")
  /\ maybe_extract_fact Scenario.twenty_words = None.
Proof.
  destruct (@maybe_extract_fact_ordered_policy latin1)
    as (Hpol & _ & _ & Hlong & _).
  split.
  - apply Hpol.
    apply (policy_statement (py "Eu gosto de cinema e de teatro")).
    + intros Hb%strip_nil. vm_compute in Hb. discriminate Hb.
    + apply startswith_any_begins. vm_compute. reflexivity.
  - apply Hlong.
    + vm_compute. lia.
    + intros Hd%startswith_any_begins. vm_compute in Hd. discriminate Hd.
Defined.

(* ===================================================================== *)
(** * websocket_handler.py: AudioBuffer                                   *)
(* ===================================================================== *)

Section AudioFacts.
Context {sample : Type}.
Implicit Types (b : AudioBuffer sample) (chunk v a : list sample).

Lemma mod_once (x n : Z) :
  (0 < n -> 0 <= x < 2 * n -> x mod n = if x <? n then x else x - n)%Z.
Proof.
  intros Hn Hx. destruct (x <? n)%Z eqn:E.
  - apply Z.ltb_lt in E. apply Z.mod_small. lia.
  - apply Z.ltb_ge in E. symmetry. apply (Z.mod_unique_pos _ _ 1); lia.
Qed.

Lemma slice_bound_inside (n i : Z) :
  (0 <= i <= n)%Z -> slice_bound n i = Z.to_nat i.
Proof. intros Hi. unfold slice_bound. destruct (i <? 0)%Z eqn:E; lia. Qed.

Lemma slice_length chunk (lo hi : Z) :
  (0 <= lo <= hi)%Z -> (hi <= Z.of_nat (length chunk))%Z ->
  length (slice chunk lo hi) = Z.to_nat (hi - lo).
Proof.
  intros Hlo Hhi. unfold slice.
  rewrite !slice_bound_inside by lia. rewrite length_take, length_drop. lia.
Qed.

(** A slice assignment with a value of the length of the slice. *)
Lemma assign_slice_fits a (lo hi : Z) v :
  (0 <= lo <= hi)%Z -> (hi <= Z.of_nat (length a))%Z ->
  Z.of_nat (length v) = (hi - lo)%Z ->
  exists a', assign_slice a lo hi v = Ok a' /\ length a' = length a.
Proof.
  intros Hlo Hhi Hv. unfold assign_slice.
  rewrite !slice_bound_inside by lia.
  replace (length v =? Z.to_nat hi - Z.to_nat lo)%nat with true
    by (symmetry; apply Nat.eqb_eq; lia).
  eexists. split; [reflexivity|].
  rewrite !length_app, length_take, length_drop. lia.
Qed.

(** A slice assignment with a longer value: NumPy cannot broadcast it. *)
Lemma assign_slice_too_long a (lo hi : Z) v :
  (0 <= lo)%Z -> (0 <= hi <= Z.of_nat (length a))%Z ->
  (hi - lo < Z.of_nat (length v))%Z -> (2 <= length v)%nat ->
  assign_slice a lo hi v
    = Raise (ValueError (py "could not broadcast input array")).
Proof.
  intros Hlo Hhi Hv H2. unfold assign_slice.
  replace (length v =? _)%nat with false.
  - destruct v as [|x [|y v]]; simpl in H2; [lia..|reflexivity].
  - symmetry. apply Nat.eqb_neq. unfold slice_bound.
    destruct (lo <? 0)%Z eqn:E1, (hi <? 0)%Z eqn:E2; lia.
Qed.

(** A chunk that fits the ring is written without an exception; the
    cursors stay inside the ring, the recording flag is untouched, and the
    window grows by the chunk, or is left empty when the chunk reaches or
    passes the free space. *)
Lemma append_within_capacity b chunk :
  well_formed b ->
  (0 < length chunk <= length (data b))%nat ->
  exists b',
    append chunk b = (b', Ok tt)
    /\ well_formed b'
    /\ length (data b') = length (data b)
    /\ is_recording b' = is_recording b
    /\ sample_rate b' = sample_rate b
    /\ end_idx b' = ((end_idx b + Z.of_nat (length chunk))
                      mod Z.of_nat (length (data b)))%Z
    /\ window_size b' =
         (if (Z.of_nat (length chunk) <?
               Z.of_nat (length (data b)) - window_size b)%Z
          then window_size b + Z.of_nat (length chunk) else 0)%Z.
Proof.
  intros (Hn & Hs & He) Hc. destruct b as [d r s e rec]. simpl in *.
  set (n := Z.of_nat (length d)) in *.
  set (cs := Z.of_nat (length chunk)) in *.
  assert (0 < cs <= n)%Z as Hcs by lia.
  unfold append. fold cs.
  replace (cs =? 0)%Z with false by lia.
  unfold mbind, M_bind, get, mod_len, modify, mret, M_ret, store. simpl.
  fold n. replace (n =? 0)%Z with false by lia.
  set (w := ((e - s) mod n)%Z).
  assert (0 <= w < n)%Z as Hw by (apply Z.mod_pos_bound; lia).
  (* the new read cursor *)
  set (s' := if (n - w <? cs)%Z then ((s + (cs - (n - w))) mod n)%Z else s).
  assert (0 <= s' < n)%Z as Hs'.
  { unfold s'. destruct (n - w <? cs)%Z; [apply Z.mod_pos_bound|]; lia. }
  assert (((e + cs) mod n - s') mod n = if (cs <? n - w)%Z then w + cs else 0)%Z
    as Hwin.
  { unfold s'. destruct (n - w <? cs)%Z eqn:E1.
    - apply Z.ltb_lt in E1. replace (cs <? n - w)%Z with false by lia.
      rewrite <- Zminus_mod.
      replace (e + cs - (s + (cs - (n - w))))%Z with ((e - s) + (n - w))%Z by lia.
      rewrite <- Zplus_mod_idemp_l. fold w.
      replace (w + (n - w))%Z with (1 * n)%Z by lia. apply Z.mod_mul. lia.
    - apply Z.ltb_ge in E1.
      rewrite <- (Z.mod_small s n) at 1 by lia. rewrite <- Zminus_mod.
      replace (e + cs - s)%Z with ((e - s) + cs)%Z by lia.
      rewrite <- Zplus_mod_idemp_l. fold w.
      rewrite mod_once by lia.
      destruct (cs <? n - w)%Z eqn:E2, (w + cs <? n)%Z eqn:E3; lia. }
  pose proof (mod_once (e + cs) n Hn ltac:(lia)) as Hend.
  assert (0 <= (e + cs) mod n < n)%Z as Hend' by (apply Z.mod_pos_bound; lia).
  destruct (n - w <? cs)%Z eqn:Hfull; simpl; fold n;
    replace (n =? 0)%Z with false by lia; simpl; fold n;
    replace (n =? 0)%Z with false by lia.
  all: destruct (e <? (e + cs) mod n)%Z eqn:Hwrap; simpl.
  all: destruct (e + cs <? n)%Z eqn:Hlt; try lia.
  - (* discard, no wrap *)
    destruct (assign_slice_fits d e ((e + cs) mod n) chunk)
      as (d' & -> & Hd'); [lia..|].
    eexists. split; [reflexivity|]. unfold well_formed, window_size. simpl.
    rewrite Hd'. fold n. fold s'. split; [lia|]. repeat split; auto; lia.
  - (* discard, wrap *)
    destruct (assign_slice_fits d e n (slice chunk 0 (n - e)))
      as (d1 & -> & Hd1); [lia..|rewrite slice_length; fold cs; lia|].
    simpl.
    destruct (assign_slice_fits d1 0 ((e + cs) mod n)
                (slice chunk (n - e) cs))
      as (d2 & -> & Hd2); [lia| rewrite Hd1; fold n; lia
                          | rewrite slice_length; fold cs; lia|].
    eexists. split; [reflexivity|]. unfold well_formed, window_size. simpl.
    rewrite Hd2, Hd1. fold n. fold s'. split; [lia|]. repeat split; auto; lia.
  - (* room, no wrap *)
    destruct (assign_slice_fits d e ((e + cs) mod n) chunk)
      as (d' & -> & Hd'); [lia..|].
    eexists. split; [reflexivity|]. unfold well_formed, window_size. simpl.
    rewrite Hd'. fold n. fold s'. split; [lia|]. repeat split; auto; lia.
  - (* room, wrap *)
    destruct (assign_slice_fits d e n (slice chunk 0 (n - e)))
      as (d1 & -> & Hd1); [lia..|rewrite slice_length; fold cs; lia|].
    simpl.
    destruct (assign_slice_fits d1 0 ((e + cs) mod n)
                (slice chunk (n - e) cs))
      as (d2 & -> & Hd2); [lia| rewrite Hd1; fold n; lia
                          | rewrite slice_length; fold cs; lia|].
    eexists. split; [reflexivity|]. unfold well_formed, window_size. simpl.
    rewrite Hd2, Hd1. fold n. fold s'. split; [lia|]. repeat split; auto; lia.
Qed.

(** A burst longer than the ring (of two samples or more) always ends in
    NumPy's broadcast error. *)
Lemma append_burst_raises b chunk :
  well_formed b ->
  (2 <= length (data b) < length chunk)%nat ->
  exists b',
    append chunk b
      = (b', Raise (ValueError (py "could not broadcast input array"))).
Proof.
  intros (Hn & Hs & He) Hc. destruct b as [d r s e rec]. simpl in *.
  set (n := Z.of_nat (length d)) in *.
  set (cs := Z.of_nat (length chunk)) in *.
  assert (2 <= n < cs)%Z as Hcs by lia.
  unfold append. fold cs.
  replace (cs =? 0)%Z with false by lia.
  unfold mbind, M_bind, get, mod_len, modify, mret, M_ret, store. simpl.
  fold n. replace (n =? 0)%Z with false by lia.
  assert (0 <= (e - s) mod n < n)%Z as Hw by (apply Z.mod_pos_bound; lia).
  replace (n - (e - s) mod n <? cs)%Z with true by lia. simpl. fold n.
  replace (n =? 0)%Z with false by lia. simpl. fold n.
  replace (n =? 0)%Z with false by lia.
  assert (0 <= (e + cs) mod n < n)%Z as Hend by (apply Z.mod_pos_bound; lia).
  destruct (e <? (e + cs) mod n)%Z eqn:Hwrap; simpl.
  - rewrite assign_slice_too_long by lia. eauto.
  - destruct (assign_slice_fits d e n (slice chunk 0 (n - e)))
      as (d1 & -> & Hd1); [lia..|rewrite slice_length; fold cs; lia|].
    simpl.
    assert (length (slice chunk (n - e) cs) = Z.to_nat (cs - (n - e))) as Hv
      by (rewrite slice_length; fold cs; lia).
    assert (e = 0 -> 2 * n <= cs)%Z as Hzero.
    { intros ->. apply Z.ltb_ge in Hwrap. rewrite Z.add_0_l in Hwrap, Hend.
      assert (cs mod n = 0)%Z as Hm by lia.
      pose proof (Z.div_mod cs n ltac:(lia)) as Hdiv. rewrite Hm in Hdiv.
      assert (2 <= cs / n)%Z; [|nia].
      destruct (Z_lt_le_dec (cs / n) 2); [|done]. nia. }
    rewrite assign_slice_too_long; [eauto|lia|rewrite Hd1; fold n; lia|lia|lia].
Qed.

End AudioFacts.

(** C2. [AudioBuffer.append] on a ring of four samples: a burst of six
    samples raises NumPy's broadcast error, and two writes of three and
    of two samples leave an empty unread window. *)
Theorem append_burst_raises_on_ring4 :
  snd (append [0; 0; 0; 0; 0; 0]%Z Scenario.ring4)
    = Raise (ValueError (py "could not broadcast input array"))
  /\ snd ((append [0; 0; 0]%Z ;; append [1; 1]%Z) Scenario.ring4) = Ok tt
  /\ data (fst ((append [0; 0; 0]%Z ;; append [1; 1]%Z) Scenario.ring4))
      = [1; 0; 0; 1]%Z
  /\ window_size (fst ((append [0; 0; 0]%Z ;; append [1; 1]%Z) Scenario.ring4))
      = 0%Z.
Proof. repeat split; vm_compute; reflexivity. Qed.

(* ===================================================================== *)
(** * websocket_handler.py: VTuberWebSocketHandler                        *)
(* ===================================================================== *)

Section HandlerFacts.
Context {sample : Type} `{Unicode} (env : Env sample).
Implicit Types (w : World sample) (h : Handler sample).

Lemma quiet_ret {A} (a : A) : quiet (mret a : M (World sample) A).
Proof. by intros w. Qed.

Lemma quiet_call {A} (r : result A) : quiet (call r : M (World sample) A).
Proof. by intros w. Qed.

Lemma quiet_gets {A} (f : World sample -> A) : quiet (gets f).
Proof. by intros w. Qed.

Lemma quiet_bind {A B} (m : M (World sample) A) (k : A -> M (World sample) B) :
  quiet m -> (forall a, quiet (k a)) -> quiet (m ≫= k).
Proof.
  intros Hm Hk w. unfold mbind, M_bind.
  destruct (Hm w) as [H1 H2]. destruct (m w) as [w1 [a|e]]; simpl in *.
  - destruct (Hk a w1). split; congruence.
  - done.
Qed.

Lemma quiet_try_except {A} (m : M (World sample) A) (k : exn -> M (World sample) A) :
  quiet m -> (forall e, quiet (k e)) -> quiet (try_except m k).
Proof.
  intros Hm Hk w. unfold try_except.
  destruct (Hm w) as [H1 H2]. destruct (m w) as [w1 [a|e]]; simpl in *.
  - done.
  - destruct (Hk e w1). split; congruence.
Qed.

Lemma quiet_send_message data : quiet (_send_message (sample := sample) data).
Proof. intros w. unfold _send_message. by destruct (websocket (self w)). Qed.

Lemma quiet_send_audio a r : quiet (_send_audio env a r).
Proof. intros w. unfold _send_audio. by destruct (websocket (self w)). Qed.

Lemma quiet_send_error msg : quiet (_send_error (sample := sample) msg).
Proof.
  apply quiet_try_except; [apply quiet_send_message | intros; apply quiet_ret].
Qed.

Lemma quiet_on_memory {A} (m : M Db A) : quiet (on_memory (sample := sample) m).
Proof. intros w. unfold on_memory. by destruct (m (memory w)). Qed.

(** Decomposes a goal [quiet m] along the structure of [m]. *)
Ltac quiet_steps :=
  repeat match goal with
    | |- quiet (mret _) => apply quiet_ret
    | |- quiet (call _) => apply quiet_call
    | |- quiet (gets _) => apply quiet_gets
    | |- quiet (_send_message _) => apply quiet_send_message
    | |- quiet (_send_audio _ _ _) => apply quiet_send_audio
    | |- quiet (_send_error _) => apply quiet_send_error
    | |- quiet (on_memory _) => apply quiet_on_memory
    | |- quiet (_ ≫= _) => apply quiet_bind; [|intros ?]
    | |- quiet (try_except _ _) => apply quiet_try_except; [|intros ?]
    | |- quiet (if ?c then _ else _) => destruct c
    | |- quiet (match ?x with Some _ => _ | None => _ end) => destruct x
    | H : forall t, quiet (?f t) |- quiet (?f _) => apply H
    end.

Lemma quiet_remember text : quiet (remember env text).
Proof. unfold remember. quiet_steps. Qed.

Lemma quiet_prompt_for text : quiet (prompt_for env text).
Proof. unfold prompt_for. quiet_steps. Qed.

Lemma quiet_process_text_message text : quiet (_process_text_message env text).
Proof.
  unfold _process_text_message.
  pose proof quiet_remember. pose proof quiet_prompt_for. quiet_steps.
Qed.

Lemma quiet_process_segment : quiet (process_segment env).
Proof.
  unfold process_segment.
  pose proof quiet_remember. pose proof quiet_prompt_for. quiet_steps.
Qed.

(** ** One step at a time *)

Lemma send_message_connected w ws data :
  websocket (self w) = Some ws ->
  _send_message data w = (push_frame (Text data) w, Ok tt).
Proof. intros Hws. unfold _send_message. by rewrite Hws. Qed.

Lemma send_audio_connected w ws a r :
  websocket (self w) = Some ws ->
  _send_audio env a r w = (push_frame (Bytes (to_int16 env a)) w, Ok tt).
Proof. intros Hws. unfold _send_audio. by rewrite Hws. Qed.

Lemma send_error_connected w ws msg :
  websocket (self w) = Some ws ->
  _send_error msg w
    = (push_frame (Text [("type", JStr (py "error")); ("message", JStr msg)]) w,
       Ok tt).
Proof.
  intros Hws. unfold _send_error, try_except.
  by rewrite (send_message_connected _ ws).
Qed.

(** Building the prompt neither raises nor changes anything. *)
Lemma prompt_for_pure w text :
  exists messages,
    prompt_for env text w = (w, Ok messages)
    /\ snd (build_messages (memory_read_fault env) (user_of (self w)) text
                           (system_prompt (self w)) (memory w)) = Ok messages.
Proof.
  unfold prompt_for, mbind, M_bind, gets, on_memory.
  rewrite build_messages_outcome. eexists. split; [|reflexivity].
  by destruct w.
Qed.

(** The completion step of a text turn: the provider's answer, or the
    canned reply when the provider raises. *)
Lemma text_completion w text :
  try_except
    (h ← gets self;
     if bool_decide (llm_provider h = py "openai")
     then messages ← prompt_for env text; call (openai_chat env messages)
     else messages ← prompt_for env text;
          call (ollama_chat env messages (ollama_host h) (ollama_model h)))
    (fun _ => mret (_generate_fallback_response env text)) w
  = (w, Ok (text_reply env (self w) (memory w) text)).
Proof.
  destruct (prompt_for_pure w text) as (messages & Hp & Hb).
  unfold text_reply, completion, try_except, mbind, M_bind, gets, call.
  rewrite Hb.
  destruct (bool_decide _); rewrite Hp;
    [destruct (openai_chat _ _)|destruct (ollama_chat _ _ _ _)]; reflexivity.
Qed.

(** The fact-writing step of a turn. *)
Lemma remember_outcome w text :
  remember env text w =
    match maybe_extract_fact text, memory_write_fault env with
    | None, _ => (w, Ok tt)
    | Some fact, Some e => (w, Raise e)
    | Some fact, None =>
        (set_memory (insert (memory w) (user_of (self w)) (strip text)
                            (utcnow env)) w, Ok tt)
    end.
Proof.
  unfold remember.
  destruct (maybe_extract_fact text) as [fact|] eqn:Ef; [|done].
  apply maybe_extract_fact_some in Ef as [-> Ht]. rewrite Ht.
  unfold mbind, M_bind, gets, on_memory, add_fact.
  rewrite strip_idem, Ht. cbn [negb]. unfold execute.
  destruct (memory_write_fault env); [by destruct w|done].
Qed.

Lemma bind_ok {S A B} (m : M S A) (k : A -> M S B) s s' a :
  m s = (s', Ok a) -> (m ≫= k) s = k a s'.
Proof. intros E. unfold mbind, M_bind. by rewrite E. Qed.

Lemma bind_raise {S A B} (m : M S A) (k : A -> M S B) s s' e :
  m s = (s', Raise e) -> (m ≫= k) s = (s', Raise e).
Proof. intros E. unfold mbind, M_bind. by rewrite E. Qed.

(** A text turn on a connected session, in full. *)
Lemma text_turn w ws text :
  websocket (self w) = Some ws ->
  _process_text_message env text w =
    let reply := text_reply env (self w) (memory w) text in
    let w1 := push_frame (transcription_frame text) w in
    match maybe_extract_fact text, memory_write_fault env with
    | Some _, Some e =>
        (push_frame (error_frame (py "Error processing text message: "
                                     ++ exn_str e)) w1, Ok tt)
    | Some _, None =>
        let w2 := set_memory (insert (memory w) (user_of (self w))
                                     (strip text) (utcnow env)) w1 in
        (push_frame (spoken env (py "Error processing text message: ") reply)
                    (push_frame (response_frame reply) w2), Ok tt)
    | None, _ =>
        (push_frame (spoken env (py "Error processing text message: ") reply)
                    (push_frame (response_frame reply) w1), Ok tt)
    end.
Proof.
  intros Hws. unfold _process_text_message.
  unfold try_except at 1.
  erewrite bind_ok by (by apply send_message_connected with (ws := ws)).
  erewrite bind_ok by apply text_completion.
  set (w1 := push_frame _ w).
  assert (websocket (self w1) = Some ws) as Hws1 by done.
  pose proof (remember_outcome w1 text) as Hr.
  destruct (maybe_extract_fact text) as [fact|] eqn:Ef;
    [destruct (memory_write_fault env) as [e|] eqn:Ew|].
  - erewrite bind_raise by exact Hr.
    unfold try_except. by erewrite send_error_connected by exact Hws1.
  - erewrite bind_ok by exact Hr.
    erewrite bind_ok by (by apply send_message_connected with (ws := ws)).
    unfold spoken, mbind, M_bind, call.
    destruct (synthesize env _) as [tts|e].
    + by erewrite send_audio_connected by done.
    + unfold try_except. by erewrite send_error_connected by done.
  - erewrite bind_ok by exact Hr.
    erewrite bind_ok by (by apply send_message_connected with (ws := ws)).
    unfold spoken, mbind, M_bind, call.
    destruct (synthesize env _) as [tts|e].
    + by erewrite send_audio_connected by done.
    + unfold try_except. by erewrite send_error_connected by done.
Qed.

(** The pipeline of an audio turn on a connected session, once a window
    was cut, transcribed to a non-blank text, and answered. *)
Lemma segment_turn w ws audio result reply :
  websocket (self w) = Some ws ->
  segment (self w) = Ok audio -> audio <> [] ->
  transcribe env (normalize env audio) = Ok result ->
  strip (stt_text result) <> [] ->
  audio_completion env (self w) (memory w) (stt_text result) = Ok reply ->
  process_segment env w =
    let w1 := push_frame (user_speech_frame result) w in
    match maybe_extract_fact (stt_text result), memory_write_fault env with
    | Some _, Some e => (w1, Raise e)
    | Some _, None =>
        let w2 := set_memory (insert (memory w) (user_of (self w))
                                     (strip (stt_text result)) (utcnow env)) w1 in
        match synthesize env reply with
        | Ok tts_result =>
            (push_frame (Bytes (to_int16 env (tts_audio tts_result)))
                        (push_frame (assistant_text_frame reply) w2), Ok tt)
        | Raise e => (push_frame (assistant_text_frame reply) w2, Raise e)
        end
    | None, _ =>
        match synthesize env reply with
        | Ok tts_result =>
            (push_frame (Bytes (to_int16 env (tts_audio tts_result)))
                        (push_frame (assistant_text_frame reply) w1), Ok tt)
        | Raise e => (push_frame (assistant_text_frame reply) w1, Raise e)
        end
    end.
Proof.
  intros Hws Hseg Haudio Hstt Htext Hllm. unfold process_segment.
  unfold mbind at 1, M_bind at 1, gets at 1.
  unfold segment in Hseg.
  unfold mbind at 1, M_bind at 1, call at 1. rewrite Hseg.
  apply truthy_cons in Haudio. rewrite Haudio. cbn [negb].
  unfold mbind at 1, M_bind at 1, call at 1. rewrite Hstt.
  apply truthy_cons in Htext. rewrite Htext. cbn [negb].
  erewrite bind_ok by (by apply send_message_connected with (ws := ws)).
  set (w1 := push_frame _ w).
  assert (websocket (self w1) = Some ws) as Hws1 by done.
  destruct (prompt_for_pure w1 (stt_text result)) as (messages & Hp & Hb).
  erewrite bind_ok by exact Hp.
  unfold audio_completion in Hllm. change (memory w1) with (memory w) in Hb.
  change (self w1) with (self w) in Hb. rewrite Hb in Hllm.
  unfold mbind at 1, M_bind at 1, call at 1. rewrite Hllm.
  pose proof (remember_outcome w1 (stt_text result)) as Hr.
  destruct (maybe_extract_fact (stt_text result)) as [fact|] eqn:Ef;
    [destruct (memory_write_fault env) as [e|] eqn:Ew|].
  - by erewrite bind_raise by exact Hr.
  - erewrite bind_ok by exact Hr.
    erewrite bind_ok by (by apply send_message_connected with (ws := ws)).
    unfold mbind, M_bind, call.
    destruct (synthesize env _) as [tts|e]; [|done].
    by erewrite send_audio_connected by done.
  - erewrite bind_ok by exact Hr.
    erewrite bind_ok by (by apply send_message_connected with (ws := ws)).
    unfold mbind, M_bind, call.
    destruct (synthesize env _) as [tts|e]; [|done].
    by erewrite send_audio_connected by done.
Qed.

(** [_process_audio] when the recording flag is set: the flag is reset,
    the pipeline runs with its exceptions turned into an error notice, and
    the buffer is cleared in every case. *)
Lemma process_audio_recording w :
  is_recording (audio_buffer (self w)) = true ->
  _process_audio env w =
    let w0 := upd_buffer (set_is_recording false) w in
    match process_segment env w0 with
    | (w1, Ok _) => (upd_buffer clear w1, Ok tt)
    | (w1, Raise e) =>
        (upd_buffer clear
           (fst (_send_error (py "Error processing audio: " ++ exn_str e) w1)),
         Ok tt)
    end.
Proof.
  intros Hrec. unfold _process_audio.
  unfold mbind at 1, M_bind at 1, gets at 1. rewrite Hrec. cbn [negb].
  unfold mbind at 1, M_bind at 1, modify at 1.
  unfold try_finally, try_except at 1.
  destruct (process_segment env _) as [w1 [[]|e]]; [done|].
  unfold try_except, _send_error, try_except, _send_message, modify.
  by destruct (websocket (self w1)).
Qed.

Lemma process_audio_idle w :
  is_recording (audio_buffer (self w)) = false ->
  _process_audio env w = (w, Ok tt).
Proof.
  intros Hrec. unfold _process_audio.
  unfold mbind at 1, M_bind at 1, gets at 1. by rewrite Hrec.
Qed.

Lemma send_error_returns w msg : snd (_send_error msg w) = Ok tt.
Proof.
  unfold _send_error, try_except, _send_message.
  by destruct (websocket (self w)).
Qed.

(** A text turn returns normally, whatever its collaborators do and
    whether or not a socket is attached. *)
Lemma process_text_message_returns w text :
  snd (_process_text_message env text w) = Ok tt.
Proof.
  unfold _process_text_message. unfold try_except at 1.
  match goal with
  | |- context [match ?m w with _ => _ end] => destruct (m w) as [w1 [[]|e]]
  end; [done|].
  unfold try_except. pose proof (send_error_returns w1
    (py "Error processing text message: " ++ exn_str e)) as Hs.
  by destruct (_send_error _ w1) as [w2 [[]|e']].
Qed.

(** ** The canned replies *)

Lemma random_choice_in (l : list str) : l <> [] -> random_choice env l ∈ l.
Proof.
  intros Hl. unfold random_choice.
  destruct (l !! (random_index env mod length l)%nat) as [x|] eqn:E.
  - simpl. by eapply list_elem_of_lookup_2.
  - apply lookup_ge_None in E.
    assert (length l <> 0)%nat as Hlen by (by destruct l).
    pose proof (Nat.mod_upper_bound (random_index env) (length l) Hlen).
    unfold str in *. lia.
Qed.

(** The list of canned replies the keywords of [user_text] select. *)
Lemma fallback_response_by_category (user_text : str) :
  _generate_fallback_response env user_text ∈
    (if any_in (lower user_text) greeting_words then greetings
     else if contains (py "?") user_text
             || any_in (lower user_text) question_words
          then question_responses
          else if any_in (lower user_text) compliment_words
               then compliment_responses
               else default_responses).
Proof.
  unfold _generate_fallback_response.
  destruct (any_in (lower user_text) greeting_words);
    [by apply random_choice_in|].
  destruct (contains (py "?") user_text || _); [by apply random_choice_in|].
  destruct (any_in (lower user_text) compliment_words);
    by apply random_choice_in.
Qed.

Lemma random_choice_nonempty (l : list str) :
  l <> [] -> Forall (fun r : str => r <> []) l -> random_choice env l <> [].
Proof.
  intros Hl Hall. rewrite Forall_forall in Hall.
  by apply Hall, random_choice_in.
Qed.

Lemma fallback_response_nonempty (user_text : str) :
  _generate_fallback_response env user_text <> [].
Proof.
  unfold _generate_fallback_response.
  destruct (any_in (lower user_text) greeting_words);
    [|destruct (contains (py "?") user_text || _);
      [|destruct (any_in (lower user_text) compliment_words)]].
  all: apply random_choice_nonempty;
    [discriminate | vm_compute; repeat constructor; discriminate].
Qed.

(** C3 (amended). In a turn of a connected session whose utterance the
    extractor keeps, the reply message is sent when the fact is written;
    when [add_fact] raises, the reply message is not sent: the turn ends
    with an error notice that carries the text of the exception, and the
    handler returns normally. This holds for typed turns and for spoken
    turns that were cut, transcribed and answered. *)
Theorem fact_write_failure_replaces_reply w ws :
  websocket (self w) = Some ws ->
  (forall text fact,
     maybe_extract_fact text = Some fact ->
     snd (_process_text_message env text w) = Ok tt
     /\ match memory_write_fault env with
        | None =>
            exists last,
              sent (fst (_process_text_message env text w))
                = sent w ++ [transcription_frame text;
                             response_frame
                               (text_reply env (self w) (memory w) text);
                             last]
        | Some e =>
            sent (fst (_process_text_message env text w))
              = sent w ++ [transcription_frame text;
                           error_frame (py "Error processing text message: "
                                          ++ exn_str e)]
        end)
  /\ (forall audio result reply fact,
       is_recording (audio_buffer (self w)) = true ->
       segment (self w) = Ok audio -> audio <> [] ->
       transcribe env (normalize env audio) = Ok result ->
       strip (stt_text result) <> [] ->
       audio_completion env (self w) (memory w) (stt_text result) = Ok reply ->
       maybe_extract_fact (stt_text result) = Some fact ->
       snd (_process_audio env w) = Ok tt
       /\ match memory_write_fault env with
          | None =>
              exists last,
                sent (fst (_process_audio env w))
                  = sent w ++ [user_speech_frame result;
                               assistant_text_frame reply; last]
          | Some e =>
              sent (fst (_process_audio env w))
                = sent w ++ [user_speech_frame result;
                             error_frame (py "Error processing audio: "
                                            ++ exn_str e)]
          end).
Proof.
  intros Hws. split.
  - intros text fact Hfact.
    rewrite (text_turn w ws) by done. rewrite Hfact. cbv zeta.
    destruct (memory_write_fault env) as [e|]; simpl.
    + split; [done|]. by rewrite <- app_assoc.
    + split; [done|]. eexists. by rewrite <- !app_assoc.
  - intros audio result reply fact Hrec Hseg Haudio Hstt Htext Hllm Hfact.
    rewrite process_audio_recording by done. cbv zeta.
    rewrite (segment_turn _ ws audio result reply) by done.
    rewrite Hfact. cbv zeta.
    destruct (memory_write_fault env) as [e|]; simpl.
    + split; [done|].
      erewrite send_error_connected by done. simpl. by rewrite <- app_assoc.
    + destruct (synthesize env reply) as [tts|e]; simpl.
      * split; [done|]. eexists. by rewrite <- !app_assoc.
      * split; [done|].
        erewrite send_error_connected by done. simpl.
        eexists. by rewrite <- !app_assoc.
Qed.

(** C5 (amended). In a typed turn of a connected session whose completion
    call raises, the handler returns normally and substitutes a canned
    reply: a non-empty text drawn from the list that the keywords of the
    input select (greeting, question, compliment, other). Provided the
    fact write of the turn, if there is one, does not raise, that reply is
    sent to the transport as the response message. *)
Theorem completion_failure_falls_back w ws text e :
  websocket (self w) = Some ws ->
  completion env (self w) (memory w) text = Raise e ->
  let reply := _generate_fallback_response env text in
  snd (_process_text_message env text w) = Ok tt
  /\ reply <> []
  /\ reply ∈ (if any_in (lower text) greeting_words then greetings
              else if contains (py "?") text
                      || any_in (lower text) question_words
                   then question_responses
                   else if any_in (lower text) compliment_words
                        then compliment_responses
                        else default_responses)
  /\ (maybe_extract_fact text = None \/ memory_write_fault env = None ->
      exists last,
        sent (fst (_process_text_message env text w))
          = sent w ++ [transcription_frame text; response_frame reply; last]).
Proof.
  intros Hws Hllm reply.
  split; [apply process_text_message_returns|].
  split; [apply fallback_response_nonempty|].
  split; [apply fallback_response_by_category|].
  intros Hwrite. rewrite (text_turn w ws) by done.
  unfold text_reply. rewrite Hllm. cbv zeta.
  destruct (maybe_extract_fact text) as [fact|];
    [destruct (memory_write_fault env) as [e'|]|]; simpl.
  - by destruct Hwrite.
  - eexists. by rewrite <- !app_assoc.
  - eexists. by rewrite <- !app_assoc.
Qed.

(** C9. What [maybe_extract_fact] returns is the trimmed input, and the
    row a turn writes for it holds that same text. *)
Theorem extracted_fact_is_trimmed_input (text fact : str) :
  maybe_extract_fact text = Some fact ->
  fact = strip text
  /\ forall w,
       memory (fst (remember env text w)) = memory w
       \/ facts (memory (fst (remember env text w)))
            = facts (memory w)
                ++ [{| id := seq (memory w) + 1;
                       user_id := user_of (self w);
                       Memory.fact := strip text;
                       created_at := utcnow env |}].
Proof.
  intros Hfact. split; [by apply maybe_extract_fact_some in Hfact as [? _]|].
  intros w. rewrite remember_outcome, Hfact.
  destruct (memory_write_fault env); simpl; auto.
Qed.

(** ** The VAD threshold *)

(** In the assignments of [__init__] the later value of the threshold
    wins. *)
Lemma init_with_threshold (buffer : AudioBuffer sample)
    (host model prompt provider : str) :
  vad_threshold (init_with buffer host model prompt provider) = 1 # 2
  /\ vad_threshold (init_with buffer host model prompt provider)
       <> SILENCE_THRESHOLD.
Proof. split; [reflexivity | discriminate]. Qed.

(** Only an [audio_config] message that carries [vad_threshold] changes
    the threshold. *)
Lemma handle_message_threshold w (received : document) :
  vad_threshold (self (fst (_handle_message env received w)))
    <> vad_threshold (self w) ->
  exists message,
    received = Dict message
    /\ message !! "type" = Some (JStr (py "audio_config"))
    /\ is_Some (message !! "vad_threshold").
Proof.
  unfold _handle_message. destruct received as [message|v]; [|by intros []].
  intros Hne. exists message. split; [reflexivity|]. revert Hne.
  destruct (bool_decide (_ = Some (JStr (py "start_listening")))).
  { intros Hne. exfalso. apply Hne. unfold mbind, M_bind, modify.
    cbn [fst]. unfold _send_message. simpl.
    by destruct (websocket (self w)). }
  destruct (bool_decide (_ = Some (JStr (py "stop_listening")))).
  { intros Hne. exfalso. apply Hne. unfold mbind, M_bind, modify.
    cbn [fst]. unfold _send_message. simpl.
    by destruct (websocket (self w)). }
  destruct (bool_decide (_ = Some (JStr (py "text")))).
  { intros Hne. exfalso. apply Hne. unfold mbind, M_bind, call.
    destruct (get_stripped message "text") as [text|e]; [|done].
    destruct (truthy text); [|done].
    by destruct (quiet_process_text_message text w) as [-> _]. }
  destruct (bool_decide (message !! "type" = Some (JStr (py "audio_config"))))
    eqn:Hcfg.
  { intros Hne. apply bool_decide_eq_true in Hcfg. split; [done|].
    destruct (message !! "vad_threshold"); [eauto|].
    exfalso. by apply Hne. }
  destruct (bool_decide (_ = Some (JStr (py "ping")))).
  { intros Hne. exfalso. apply Hne. unfold _send_message.
    by destruct (websocket (self w)). }
  intros Hne. by exfalso.
Qed.

End HandlerFacts.

(** C10. [VTuberWebSocketHandler.__init__] raises at line 104, whatever
    its arguments: [AudioBuffer] is called without its [data] field, and
    no threshold is ever set. Were the buffer built, the assignments of
    [__init__] would leave the threshold at 0.5, the later of the two
    values; and [_handle_message] changes the threshold only for an
    [audio_config] message that carries [vad_threshold]. *)
Theorem handler_construction_raises {sample : Type} `{Unicode} :
  (forall (z : sample) (host model prompt provider : str),
     __init__ z host model prompt provider
       = Raise (TypeError (py "missing required positional argument")))
  /\ (forall (buffer : AudioBuffer sample) (host model prompt provider : str),
       vad_threshold (init_with buffer host model prompt provider) = 1 # 2)
  /\ (forall (env : Env sample) (w : World sample) (received : document),
       vad_threshold (self (fst (_handle_message env received w)))
         <> vad_threshold (self w) ->
       exists message,
         received = Dict message
         /\ message !! "type" = Some (JStr (py "audio_config"))
         /\ is_Some (message !! "vad_threshold")).
Proof.
  split; [reflexivity|]. split.
  - intros buffer host model prompt provider.
    apply (init_with_threshold buffer host model prompt provider).
  - intros env w received. apply handle_message_threshold.
Qed.

(* ===================================================================== *)
(** * Segmentation                                                        *)
(* ===================================================================== *)

Section Segmentation.
Context {sample : Type} `{Unicode} (env : Env sample).
Implicit Types (w : World sample) (es : list (event sample)).

Lemma on_buffer_append w c n :
  ready n w -> (0 < length c <= n)%nat ->
  exists b',
    on_buffer (append c) w = (upd_self (set_audio_buffer b') w, Ok tt)
    /\ well_formed b' /\ length (data b') = n
    /\ is_recording b' = is_recording (audio_buffer (self w)).
Proof.
  intros [Hwf Hn] Hc.
  destruct (append_within_capacity (audio_buffer (self w)) c)
    as (b' & E & Hwf' & Hlen & Hrec & _); [done|lia|].
  exists b'. unfold on_buffer. rewrite E.
  split; [reflexivity|]. split; [done|]. split; [congruence|done].
Qed.

(** A voiced chunk: the time of the last voice is now, the silence timer
    is cleared, and the buffer is recording. *)
Lemma callback_voiced w c t n :
  ready n w -> (0 < length c <= n)%nat ->
  louder_than env c (vad_threshold (self w)) = true ->
  exists w',
    audio_callback env c t w = (w', Ok tt)
    /\ ready n w'
    /\ is_recording (audio_buffer (self w')) = true
    /\ silence_start_time (self w') = None
    /\ last_audio_time (self w') = t
    /\ tasks w' = tasks w
    /\ vad_threshold (self w') = vad_threshold (self w).
Proof.
  intros Hready Hc Hloud.
  destruct (on_buffer_append w c n Hready Hc) as (b' & E & Hwf & Hlen & Hrec).
  unfold audio_callback.
  replace (truthy c) with true by (destruct c; simpl in *; [lia|done]).
  cbn [negb]. erewrite bind_ok by exact E.
  unfold mbind at 1, M_bind at 1, gets at 1. cbn [self upd_self vad_threshold set_audio_buffer].
  rewrite Hloud. cbn [audio_buffer set_audio_buffer]. rewrite Hrec.
  unfold mbind, M_bind, modify, mret, M_ret.
  destruct (is_recording (audio_buffer (self w))) eqn:Hr; cbn [negb];
    (eexists; split; [reflexivity|]); unfold ready; simpl;
    rewrite ?Hrec; auto 10.
Qed.

(** An unvoiced chunk: nothing but the buffer changes unless the buffer
    is recording; if it is, the silence timer is started when unset, and
    once the timer has run for [SILENCE_DURATION] the callback reaches
    [asyncio.create_task], which raises. No task is created. *)
Lemma callback_unvoiced w c t n :
  ready n w -> (0 < length c <= n)%nat ->
  louder_than env c (vad_threshold (self w)) = false ->
  exists w',
    audio_callback env c t w
      = (w', if is_recording (audio_buffer (self w))
                && Qle_bool SILENCE_DURATION
                     (t - default t (silence_start_time (self w)))
             then Raise (RuntimeError (py "no running event loop"))
             else Ok tt)
    /\ ready n w'
    /\ is_recording (audio_buffer (self w'))
         = is_recording (audio_buffer (self w))
    /\ vad_threshold (self w') = vad_threshold (self w)
    /\ tasks w' = tasks w
    /\ silence_start_time (self w')
       = (if is_recording (audio_buffer (self w))
          then Some (default t (silence_start_time (self w)))
          else silence_start_time (self w)).
Proof.
  intros Hready Hc Hloud.
  destruct (on_buffer_append w c n Hready Hc) as (b' & E & Hwf & Hlen & Hrec).
  unfold audio_callback.
  replace (truthy c) with true by (destruct c; simpl in *; [lia|done]).
  cbn [negb]. erewrite bind_ok by exact E.
  unfold mbind at 1, M_bind at 1, gets at 1.
  cbn [self upd_self vad_threshold set_audio_buffer].
  rewrite Hloud. cbn [audio_buffer set_audio_buffer]. rewrite Hrec.
  unfold mbind, M_bind, modify, mret, M_ret, gets, raise.
  destruct (is_recording (audio_buffer (self w))) eqn:Hr.
  - cbn [silence_start_time set_audio_buffer andb].
    destruct (silence_start_time (self w)) as [t0|] eqn:Hs; simpl;
      rewrite ?Hs; simpl.
    + destruct (Qle_bool SILENCE_DURATION (t - t0));
        (eexists; split; [reflexivity|]); unfold ready; simpl; auto 10.
    + destruct (Qle_bool SILENCE_DURATION (t - t));
        (eexists; split; [reflexivity|]); unfold ready; simpl; auto 10.
  - eexists. split; [reflexivity|]. unfold ready. simpl. auto 10.
Qed.

(** A task that finds the flag set: afterwards the buffer is cleared and
    not recording; the timer, the threshold and the other tasks are as
    before. *)
Lemma task_hands_off w n :
  ready n w -> is_recording (audio_buffer (self w)) = true ->
  let w' := fst (_process_audio env w) in
  ready n w'
  /\ is_recording (audio_buffer (self w')) = false
  /\ start_idx (audio_buffer (self w')) = 0%Z
  /\ end_idx (audio_buffer (self w')) = 0%Z
  /\ silence_start_time (self w') = silence_start_time (self w)
  /\ vad_threshold (self w') = vad_threshold (self w)
  /\ tasks w' = tasks w.
Proof.
  intros ((Hn & _ & _) & Hlen) Hrec. rewrite process_audio_recording by done.
  cbv zeta.
  set (w0 := upd_buffer (set_is_recording false) w).
  destruct (quiet_process_segment env w0) as [Hself Htasks].
  destruct (process_segment env w0) as [w1 [[]|e]]; simpl in Hself, Htasks.
  - unfold ready, well_formed.
    cbn [fst self upd_buffer upd_self audio_buffer set_audio_buffer clear
         set_is_recording set_end_idx set_start_idx data is_recording
         start_idx end_idx tasks silence_start_time vad_threshold].
    rewrite Hself, Htasks. simpl. rewrite Hlen. repeat split; auto; lia.
  - destruct (quiet_send_error (sample := sample)
                (py "Error processing audio: " ++ exn_str e) w1)
      as [Hself' Htasks'].
    unfold ready, well_formed.
    cbn [fst self upd_buffer upd_self audio_buffer set_audio_buffer clear
         set_is_recording set_end_idx set_start_idx data is_recording
         start_idx end_idx tasks silence_start_time vad_threshold].
    rewrite Hself', Htasks', Hself, Htasks. simpl. rewrite Hlen.
    repeat split; auto; lia.
Qed.

(** ** Runs *)



Lemma run_cons w e es : run env w (e :: es) = run env (step env w e) es.
Proof. reflexivity. Qed.

Lemma handoffs_cons w e es :
  handoffs env w (e :: es)
    = ((if hands_off w e then 1 else 0) + handoffs env (step env w e) es)%nat.
Proof. reflexivity. Qed.

Lemma step_chunk w c t w' r :
  audio_callback env c t w = (w', r) -> step env w (Chunk c t) = w'.
Proof. intros E. unfold step. by rewrite E. Qed.

Lemma step_task_none w : tasks w = O -> step env w RunTask = w.
Proof. intros E. unfold step. by rewrite E. Qed.

Lemma step_task_some w k :
  tasks w = S k ->
  step env w RunTask = fst (_process_audio env (set_tasks k w)).
Proof. intros E. unfold step. by rewrite E. Qed.

Lemma hands_off_chunk w c t : hands_off w (Chunk c t) = false.
Proof. reflexivity. Qed.

Lemma hands_off_task w :
  hands_off w (RunTask (sample := sample))
    = bool_decide (tasks w <> O) && is_recording (audio_buffer (self w)).
Proof. reflexivity. Qed.

(** While the session is not recording, unvoiced chunks and tasks hand
    nothing off and leave it not recording. *)
Lemma idle_stays_idle th n es w :
  idle_at th n w -> Forall (silent_event env th n) es ->
  handoffs env w es = 0%nat /\ idle_at th n (run env w es).
Proof.
  intros Hidle Hes. revert w Hidle.
  induction Hes as [|e es He _ IH]; intros w Hidle; [done|].
  pose proof Hidle as (Hready & Hth & Hrec).
  rewrite handoffs_cons, run_cons.
  destruct e as [c t|].
  - destruct He as [Hc Hquiet]. rewrite <- Hth in Hquiet.
    destruct (callback_unvoiced w c t n Hready Hc Hquiet)
      as (w' & E & Hready' & Hrec' & Hth' & _).
    rewrite hands_off_chunk, (step_chunk _ _ _ _ _ E).
    apply IH. repeat split; try apply Hready'; congruence.
  - rewrite hands_off_task, Hrec, andb_false_r.
    destruct (tasks w) as [|k] eqn:Ht.
    + rewrite step_task_none by done. by apply IH.
    + rewrite (step_task_some _ k) by done.
      rewrite process_audio_idle by done. by apply IH.
Qed.


(** Voiced chunks, with no task waiting: nothing is handed off, and from
    the first chunk on the session is recording with the timer unset. *)
Lemma voiced_starts_recording th n es w :
  ready n w -> vad_threshold (self w) = th -> tasks w = O ->
  Forall (voiced_event env th n) es ->
  handoffs env w es = 0%nat
  /\ tasks (run env w es) = O
  /\ (chunk_times es = [] -> run env w es = w)
  /\ (chunk_times es <> [] -> recording_since th n None (run env w es)).
Proof.
  intros Hready Hth Htasks Hes. revert w Hready Hth Htasks.
  induction Hes as [|e es He Hes IH]; intros w Hready Hth Htasks; [done|].
  rewrite handoffs_cons, run_cons.
  destruct e as [c t|].
  - destruct He as [Hc Hloud]. rewrite <- Hth in Hloud.
    destruct (callback_voiced w c t n Hready Hc Hloud)
      as (w' & E & Hready' & Hrec' & Hs' & _ & Ht' & Hth').
    rewrite hands_off_chunk, (step_chunk _ _ _ _ _ E).
    destruct (IH w') as (Hzero & Htasks' & Hsame & Hrec);
      [done | congruence | congruence |].
    split; [done|]. split; [done|]. split; [done|]. intros _.
    destruct (chunk_times es) as [|t1 ts] eqn:Htimes; [|by apply Hrec].
    rewrite Hsame by done. repeat split; try apply Hready'; congruence.
  - rewrite step_task_none by done.
    rewrite hands_off_task, Htasks. simpl. by apply IH.
Qed.

End Segmentation.

(* ===================================================================== *)
(** * The properties at concrete sessions                                 *)
(* ===================================================================== *)

(** C3, as stated, fails: the extractor keeps the utterance, the write
    raises, and no response message is sent; the error notice is. *)
Lemma fact_write_failure_blocks_reply :
  maybe_extract_fact Scenario.ana = Some Scenario.ana
  /\ sent (fst (_process_text_message
                  (Scenario.collaborators (Ok (py "Oi, Ana!"))
                                          (Some Scenario.locked))
                  Scenario.ana Scenario.session))
     = [transcription_frame Scenario.ana;
        error_frame (py "Error processing text message: database is locked")]
  /\ ~ exists reply,
        response_frame reply ∈
          sent (fst (_process_text_message
                       (Scenario.collaborators (Ok (py "Oi, Ana!"))
                                               (Some Scenario.locked))
                       Scenario.ana Scenario.session)).
Proof.
  assert (sent (fst (_process_text_message
                  (Scenario.collaborators (Ok (py "Oi, Ana!"))
                                          (Some Scenario.locked))
                  Scenario.ana Scenario.session))
     = [transcription_frame Scenario.ana;
        error_frame (py "Error processing text message: database is locked")])
    as Hsent by (vm_compute; reflexivity).
  split; [vm_compute; reflexivity|]. split; [exact Hsent|].
  intros [reply Hin]. rewrite Hsent in Hin.
  apply elem_of_cons in Hin as [Hin|Hin]; [vm_compute in Hin; discriminate Hin|].
  apply elem_of_cons in Hin as [Hin|Hin]; [vm_compute in Hin; discriminate Hin|].
  by apply elem_of_nil in Hin.
Qed.

Lemma fact_write_failure_replaces_reply_witness :
  snd (_process_text_message
         (Scenario.collaborators (Ok (py "Oi, Ana!")) (Some Scenario.locked))
         Scenario.ana Scenario.session) = Ok tt
  /\ (exists last,
        sent (fst (_process_text_message
                     (Scenario.collaborators (Ok (py "Oi, Ana!")) None)
                     Scenario.ana Scenario.session))
          = [transcription_frame Scenario.ana;
             response_frame (py "Oi, Ana!"); last])
  /\ snd (_process_audio
            (Scenario.collaborators (Ok (py "Oi, Ana!")) (Some Scenario.locked))
            (run (Scenario.collaborators (Ok (py "Oi, Ana!"))
                                         (Some Scenario.locked))
                 Scenario.session Scenario.utterance)) = Ok tt.
Proof.
  split; [|split].
  - apply (proj1 (fact_write_failure_replaces_reply
                    (Scenario.collaborators (Ok (py "Oi, Ana!"))
                                            (Some Scenario.locked))
                    Scenario.session (Socket 1) eq_refl)
                 Scenario.ana Scenario.ana).
    vm_compute. reflexivity.
  - apply (proj1 (fact_write_failure_replaces_reply
                    (Scenario.collaborators (Ok (py "Oi, Ana!")) None)
                    Scenario.session (Socket 1) eq_refl)
                 Scenario.ana Scenario.ana).
    vm_compute. reflexivity.
  - set (env := Scenario.collaborators (Ok (py "Oi, Ana!"))
                                       (Some Scenario.locked)).
    set (w := run env Scenario.session Scenario.utterance).
    assert (websocket (self w) = Some (Socket 1)) as Hws
      by (vm_compute; reflexivity).
    assert (is_recording (audio_buffer (self w)) = true) as Hrec
      by (vm_compute; reflexivity).
    assert (segment (self w) = Ok [1; 1; 1; 0]%Z) as Hseg
      by (vm_compute; reflexivity).
    assert (audio_completion env (self w) (memory w) Scenario.ana
              = Ok (py "Oi, Ana!")) as Hllm
      by (vm_compute; reflexivity).
    assert (maybe_extract_fact Scenario.ana = Some Scenario.ana) as Hfact
      by (vm_compute; reflexivity).
    apply (proj2 (fact_write_failure_replaces_reply env w (Socket 1) Hws)
                 [1; 1; 1; 0]%Z
                 {| stt_text := Scenario.ana; stt_language := py "pt";
                    stt_confidence := 9 # 10 |}
                 (py "Oi, Ana!") Scenario.ana Hrec Hseg);
      [discriminate | reflexivity | vm_compute; discriminate
      | exact Hllm | exact Hfact].
Defined.

(** C5, as stated, fails: the completion engine raises, the fact write
    raises as well, and no response message is sent. *)
Lemma completion_failure_reply_lost :
  completion (Scenario.collaborators (Raise Scenario.offline)
                                     (Some Scenario.locked))
             (self Scenario.session) (memory Scenario.session) Scenario.ana
    = Raise Scenario.offline
  /\ ~ exists reply,
        response_frame reply ∈
          sent (fst (_process_text_message
                       (Scenario.collaborators (Raise Scenario.offline)
                                               (Some Scenario.locked))
                       Scenario.ana Scenario.session)).
Proof.
  split; [vm_compute; reflexivity|].
  assert (sent (fst (_process_text_message
                  (Scenario.collaborators (Raise Scenario.offline)
                                          (Some Scenario.locked))
                  Scenario.ana Scenario.session))
     = [transcription_frame Scenario.ana;
        error_frame (py "Error processing text message: database is locked")])
    as Hsent by (vm_compute; reflexivity).
  intros [reply Hin]. rewrite Hsent in Hin.
  apply elem_of_cons in Hin as [Hin|Hin]; [vm_compute in Hin; discriminate Hin|].
  apply elem_of_cons in Hin as [Hin|Hin]; [vm_compute in Hin; discriminate Hin|].
  by apply elem_of_nil in Hin.
Qed.

Lemma completion_failure_falls_back_witness :
  exists last,
    sent (fst (_process_text_message
                 (Scenario.collaborators (Raise Scenario.offline) None)
                 (py "Oi, tudo bem?") Scenario.session))
      = [transcription_frame (py "Oi, tudo bem?");
         response_frame (py "E aí! Sumida! 😄"); last].
Proof.
  destruct (completion_failure_falls_back
              (Scenario.collaborators (Raise Scenario.offline) None)
              Scenario.session (Socket 1) (py "Oi, tudo bem?")
              Scenario.offline eq_refl)
    as (_ & _ & _ & Hsent); [vm_compute; reflexivity|].
  destruct Hsent as [last Hlast]; [right; reflexivity|].
  exists last. rewrite Hlast. vm_compute. reflexivity.
Defined.

Lemma extracted_fact_is_trimmed_input_witness :
  py "Meu nome é Ana." = strip (py "  Meu nome é Ana. ").
Proof.
  apply (extracted_fact_is_trimmed_input
           (Scenario.collaborators (Ok (py "Oi, Ana!")) None)
           (py "  Meu nome é Ana. ") (py "Meu nome é Ana.")).
  vm_compute. reflexivity.
Defined.

(* ===================================================================== *)
(** * memory.py: tokens, retrieval and ranking                            *)
(* ===================================================================== *)

Section RecallFacts.
Context `{Unicode}.

Lemma contains_infix (sub s : str) : contains sub s = true <-> infix_of sub s.
Proof.
  unfold infix_of. induction s as [|a s IH].
  - simpl. rewrite orb_false_r, startswith_prefix. split.
    + intros [rest E]. exists [], rest. done.
    + intros (pre & post & E). destruct pre; [|done].
      destruct sub; [|done]. by exists [].
  - cbn [contains]. rewrite orb_true_iff, startswith_prefix, IH. split.
    + intros [[rest E]|(pre & post & E)].
      * by exists [], rest.
      * exists (a :: pre), post. by rewrite E.
    + intros (pre & post & E). destruct pre as [|b pre].
      * left. by exists post.
      * right. injection E as -> E. by exists pre, post.
Qed.

(** The loop of [_tokenize]: whatever it adds to [buff] is a non-empty run
    of word characters taken from the token being read and the text left. *)
Lemma tokenize_go_tokens (text cur : str) (buff : list str) (t : str) :
  Forall (fun c => word_char c = true) cur ->
  t ∈ tokenize_go text cur buff ->
  t ∈ buff
  \/ (t <> [] /\ Forall (fun c => word_char c = true) t
      /\ infix_of t (cur ++ text)).
Proof.
  unfold infix_of. revert cur buff.
  induction text as [|ch text IH]; intros cur buff Hcur; simpl.
  - destruct cur as [|c cur]; simpl; [by left|].
    intros [Ht| ->%list_elem_of_singleton]%elem_of_app; [by left|].
    right. split; [done|]. split; [done|]. exists [], []. reflexivity.
  - fold (word_char ch). destruct (word_char ch) eqn:Hch.
    + intros Ht. apply IH in Ht as [Ht|(Hne & Hw & Hin)]; [by left| |].
      * right. by rewrite <- app_assoc in Hin.
      * apply Forall_app. split; [done|]. by constructor.
    + destruct cur as [|c cur]; simpl.
      * intros Ht. apply IH in Ht as [Ht|(Hne & Hw & pre & post & E)];
          [by left| |done].
        right. split; [done|]. split; [done|].
        exists (ch :: pre), post. simpl in *. by rewrite E.
      * intros Ht. apply IH in Ht as [Ht|(Hne & Hw & pre & post & E)];
          [|right|done].
        -- apply elem_of_app in Ht as [Ht| ->%list_elem_of_singleton];
             [by left|].
           right. split; [done|]. split; [done|].
           exists [], (ch :: text). done.
        -- split; [done|]. split; [done|].
           exists ((c :: cur) ++ ch :: pre), post. simpl in E.
           rewrite E, <- !app_assoc. done.
Qed.

End RecallFacts.

Section RankingFacts.
Context `{Unicode}.

Lemma select_recent_texts (db : Db) (u : str) :
  (select_recent db u).*1 = take 200 (facts_of db u).
Proof.
  unfold select_recent, facts_of. rewrite fmap_take, <- map_rev. f_equal.
  generalize (rev (filter (fun r => user_id r = u) (facts db))).
  intros l. induction l as [|r l IH]; [done|].
  cbn [map fmap list_fmap fst]. f_equal. exact IH.
Qed.

Lemma select_recent_own (db : Db) (u f : str) :
  f ∈ (select_recent db u).*1 -> f ∈ facts_of db u.
Proof. rewrite select_recent_texts. apply subseteq_take. Qed.

Lemma facts_of_row (db : Db) (u f : str) :
  f ∈ facts_of db u <->
  exists row, row ∈ facts db /\ user_id row = u /\ fact row = f.
Proof.
  unfold facts_of. rewrite list_elem_of_In, <- in_rev, in_map_iff. split.
  - intros (row & E & Hrow). apply list_elem_of_In, list_elem_of_filter in Hrow.
    exists row. tauto.
  - intros (row & Hrow & Hu & E). exists row. split; [done|].
    apply list_elem_of_In, list_elem_of_filter. tauto.
Qed.

(** ** What [top_facts] returns is taken from the rows *)

Lemma collect_sublist limit scored seen out seen' out' :
  collect limit scored seen out = (seen', out') ->
  exists more, out' = out ++ more /\ more `sublist_of` scored.*2.
Proof.
  revert seen out. induction scored as [|[sc f] rest IH]; intros seen out; simpl.
  - intros [= _ <-]. exists []. by rewrite app_nil_r.
  - destruct (decide (f ∈ seen)).
    + intros (more & -> & Hsub)%IH. exists more. split; [done|].
      by apply sublist_cons.
    + destruct (limit <=? _)%Z.
      * intros [= _ <-]. exists [f]. split; [done|].
        apply sublist_skip, sublist_nil_l.
      * intros (more & -> & Hsub)%IH. exists (f :: more).
        rewrite <- app_assoc. split; [done|]. by apply sublist_skip.
Qed.

Lemma score_rows_none tokens rows f :
  score_rows tokens rows = [] -> f ∈ rows.*1 -> score tokens f = 0%nat.
Proof.
  unfold score_rows. induction rows as [|[g ts] rows IH]; simpl.
  - by intros _ ?%elem_of_nil.
  - destruct (0 <? score tokens g)%nat eqn:E; [done|].
    apply Nat.ltb_ge in E.
    intros Hnil [->|Hf]%elem_of_cons; [lia | by apply IH].
Qed.

Lemma top_facts_from_rows rows query limit f :
  f ∈ top_facts rows query limit -> f ∈ rows.*1.
Proof.
  unfold top_facts.
  destruct (collect _ _ _ _) as [seen out] eqn:E.
  destruct out as [|f0 out]; simpl.
  - apply collect_nothing in E as [_ ->]. rewrite recent_take. simpl.
    apply subseteq_take.
  - intros Hf. apply collect_sublist in E as (more & E & Hsub).
    simpl in E. rewrite <- E in Hsub. apply sublist_subseteq in Hsub.
    apply Hsub in Hf.
    apply list_elem_of_fmap in Hf as [[sc g] [-> Hg]].
    rewrite sort_desc_perm in Hg. by apply score_rows_positive in Hg as (?&?&?).
Qed.

(** ** Length *)

Lemma top_facts_length rows query limit :
  (1 <= limit)%Z ->
  (Z.of_nat (length (top_facts rows query limit)) <= limit)%Z.
Proof.
  intros Hlimit. unfold top_facts.
  destruct (collect _ _ _ _) as [seen out] eqn:E.
  destruct out as [|f0 out]; simpl.
  - apply collect_nothing in E as [_ ->]. rewrite recent_take. simpl.
    rewrite length_take. lia.
  - apply collect_spec in E as (_ & _ & _ & Hlen);
      [|constructor|by intros ? ?%elem_of_nil].
    simpl in Hlen. destruct Hlen as [?|?]; [lia|done].
Qed.

(** ** Order *)

Lemma StronglySorted_sublist {A} (R : relation A) (l1 l2 : list A) :
  l1 `sublist_of` l2 -> StronglySorted R l2 -> StronglySorted R l1.
Proof.
  induction 1 as [|x l1 l2 Hsub IH|x l1 l2 Hsub IH]; [done| |].
  - intros [Hl2 Hx]%StronglySorted_inv. constructor; [by apply IH|].
    apply sublist_subseteq in Hsub. rewrite Forall_forall in Hx |- *.
    intros y Hy. apply Hx, Hsub, Hy.
  - intros [Hl2 _]%StronglySorted_inv. by apply IH.
Qed.

Lemma descending_texts tokens (l : list (nat * str)) :
  descending l ->
  Forall (fun x => fst x = score tokens (snd x)) l ->
  StronglySorted (fun f g => (score tokens g <= score tokens f)%nat) l.*2.
Proof.
  induction 1 as [|x l Hx Hl IH]; simpl; [constructor|].
  intros [Ex El]%Forall_cons. constructor; [by apply IH|].
  rewrite Forall_forall. intros g Hg.
  apply list_elem_of_fmap in Hg as [y [-> Hy]].
  rewrite Forall_forall in Hx, El.
  rewrite <- Ex, <- (El y) by done. by apply Hx.
Qed.

Lemma top_facts_ordered rows query limit :
  StronglySorted
    (fun f g => (score (query_tokens query) g <= score (query_tokens query) f)%nat)
    (top_facts rows query limit).
Proof.
  unfold top_facts.
  destruct (collect _ _ _ _) as [seen out] eqn:E.
  destruct out as [|f0 out]; simpl.
  - apply collect_nothing in E as [E ->]. rewrite recent_take. simpl.
    assert (score_rows (query_tokens query) rows = []) as Hnone.
    { apply Permutation_nil_r. by rewrite <- E, sort_desc_perm. }
    apply (StronglySorted_sublist _ _ rows.*1); [apply sublist_take|].
    assert (Forall (fun f => score (query_tokens query) f = 0%nat) rows.*1)
      as Hzero.
    { rewrite Forall_forall. intros f Hf.
      by apply (score_rows_none _ rows). }
    induction Hzero as [|f l Hf Hl IH]; constructor; [done|].
    eapply Forall_impl; [exact Hl|]. simpl. intros g Hg. lia.
  - apply collect_sublist in E as (more & E & Hsub). simpl in E.
    rewrite <- E in Hsub.
    eapply StronglySorted_sublist; [exact Hsub|].
    apply descending_texts; [apply sort_desc_descending|].
    rewrite Forall_forall. intros [sc g] Hg. simpl.
    rewrite sort_desc_perm in Hg.
    by apply score_rows_positive in Hg as (?&?&?).
Qed.

End RankingFacts.

Section RecallProperties.
Context `{Unicode}.

(** ** The tokenizer *)

Lemma tokenize_go_concat (text cur : str) (buff : list str) :
  concat (tokenize_go text cur buff) =
  concat buff ++ cur ++ filter (fun c => word_char c = true) text.
Proof.
  unfold str in *. revert cur buff.
  induction text as [|ch text IH]; intros cur buff; cbn [tokenize_go].
  - rewrite filter_nil. destruct cur as [|c cur]; simpl; [by rewrite app_nil_r|].
    rewrite concat_app. simpl. by rewrite !app_nil_r.
  - fold (word_char ch). destruct (word_char ch) eqn:Hch.
    + rewrite IH, filter_cons_True by done. by rewrite <- app_assoc.
    + rewrite filter_cons_False by (by rewrite Hch).
      destruct cur as [|c cur]; cbn [truthy]; rewrite IH; [done|].
      rewrite concat_app. simpl. by rewrite app_nil_r, <- app_assoc.
Qed.

(** X1. Every token [_tokenize] returns is a non-empty run of letters,
    digits, underscores and the listed accented letters, and it occurs in
    the text as written (a contiguous piece of it): the tokenizer cuts the
    text, it never rewrites or joins. *)
Theorem tokenize_tokens_are_words (text t : str) :
  t ∈ _tokenize text ->
  t <> [] /\ Forall (fun c => word_char c = true) t /\ infix_of t text.
Proof.
  intros Ht. apply tokenize_go_tokens in Ht as [Ht|Ht]; [|done|done].
  by apply elem_of_nil in Ht.
Qed.

(** X2. [_tokenize] drops the separators and nothing else: the tokens,
    put end to end, are the word characters of the text in their order. *)
Theorem tokenize_keeps_word_chars (text : str) :
  concat (_tokenize text) = filter (fun c => word_char c = true) text.
Proof. unfold _tokenize. by rewrite tokenize_go_concat. Qed.

(** ** Reading *)

Lemma get_top_facts_run (fault : option exn) (u query : str) (limit : Z)
    (db : Db) :
  get_top_facts fault u query limit db =
  (db, match fault with
       | Some e => Raise e
       | None => Ok (top_facts (select_recent db u) query limit)
       end).
Proof. unfold get_top_facts, execute, mbind, M_bind. by destruct fault. Qed.

(** X3. [get_top_facts] only reads, and only the rows of the user it is
    asked about: the table is as before the call; when SQLite raises, the
    call raises that exception; otherwise every text it returns is the text
    of a stored row of that user. *)
Theorem get_top_facts_own_rows (fault : option exn) (u query : str)
    (limit : Z) (db : Db) :
  exists r,
    get_top_facts fault u query limit db = (db, r)
    /\ match r with
       | Raise e => fault = Some e
       | Ok out =>
           fault = None
           /\ forall f, f ∈ out ->
                exists row, row ∈ facts db /\ user_id row = u /\ fact row = f
       end.
Proof.
  rewrite get_top_facts_run. destruct fault as [e|]; eexists; (split; [done|]).
  - done.
  - split; [done|]. intros f Hf.
    by apply facts_of_row, select_recent_own, (top_facts_from_rows _ query limit).
Qed.

(** X4. The texts [get_top_facts] returns are in the order of their
    scores, the highest first: a text never comes before one that contains
    more of the query's tokens. *)
Theorem get_top_facts_ranked (u query : str) (limit : Z) (db : Db) :
  exists out,
    get_top_facts None u query limit db = (db, Ok out)
    /\ StronglySorted
         (fun f g => (score (query_tokens query) g
                      <= score (query_tokens query) f)%nat) out.
Proof.
  rewrite get_top_facts_run. eexists. split; [done|]. apply top_facts_ordered.
Qed.

(** ** Writing, then reading *)

Lemma select_recent_insert_other (db : Db) (u u' f ts : str) :
  u <> u' -> select_recent (insert db u' f ts) u = select_recent db u.
Proof.
  intros Hu. unfold select_recent, insert. cbn [facts].
  rewrite filter_app, filter_cons_False, filter_nil, app_nil_r; [done|].
  cbn [user_id]. congruence.
Qed.

Lemma select_recent_insert_own (db : Db) (u f ts : str) :
  select_recent (insert db u f ts) u =
  (f, ts) :: take 199 (map (fun r => (fact r, created_at r))
                          (rev (filter (fun r => user_id r = u) (facts db)))).
Proof.
  unfold select_recent, insert. cbn [facts].
  rewrite filter_app, filter_cons_True, filter_nil by done.
  by rewrite rev_app_distr.
Qed.

Lemma score_le_tokens (tokens : list str) (f : str) :
  (score tokens f <= length tokens)%nat.
Proof. apply length_filter. Qed.

Lemma score_all (tokens : list str) (f : str) :
  Forall (fun t => contains t (lower f) = true) tokens ->
  score tokens f = length tokens.
Proof.
  unfold score. induction 1 as [|t l Ht Hl IH]; [done|].
  rewrite filter_cons_True by done. simpl. by rewrite IH.
Qed.

Lemma insert_desc_head (x : nat * str) (l : list (nat * str)) :
  Forall (fun y => (fst y <= fst x)%nat) l ->
  exists rest, insert_desc x l = x :: rest.
Proof.
  destruct l as [|y l]; simpl; [by exists []|].
  intros [Hy _]%Forall_cons.
  destruct (fst x <? fst y)%nat eqn:E; [apply Nat.ltb_lt in E; lia|].
  by eexists.
Qed.

Lemma sort_desc_head (x : nat * str) (l : list (nat * str)) :
  Forall (fun y => (fst y <= fst x)%nat) l ->
  exists rest, sort_desc (x :: l) = x :: rest.
Proof.
  intros Hl. unfold sort_desc. simpl. apply insert_desc_head.
  fold (sort_desc l). rewrite Forall_forall in Hl |- *.
  intros y Hy. rewrite sort_desc_perm in Hy. by apply Hl.
Qed.

Lemma collect_head (limit : Z) (f : str) (sc : nat) (rest : list (nat * str)) :
  exists more, snd (collect limit ((sc, f) :: rest) ∅ []) = f :: more.
Proof.
  simpl. destruct (decide (f ∈ (∅ : gset str))) as [Hf|_]; [set_solver|].
  destruct (limit <=? _)%Z; [by exists []|].
  destruct (collect _ _ _ _) as [seen out] eqn:E.
  apply collect_extends in E as [more ->]. by exists more.
Qed.

Lemma top_facts_full_match (f ts query : str) (limit : Z)
    (rows : list (str * str)) :
  query_tokens query <> [] ->
  matches_all query f ->
  exists more, top_facts ((f, ts) :: rows) query limit = f :: more.
Proof.
  intros Htok Hall. unfold top_facts.
  pose proof (score_all _ _ Hall) as Hsc.
  assert (0 < length (query_tokens query))%nat as Hpos.
  { destruct (query_tokens query); [done|simpl; lia]. }
  unfold score_rows. cbn [omap list_omap fst].
  fold (score_rows (query_tokens query) rows).
  rewrite Hsc. destruct (Nat.ltb_spec 0 (length (query_tokens query))); [|lia].
  destruct (sort_desc_head (length (query_tokens query), f)
              (score_rows (query_tokens query) rows)) as [rest ->].
  { rewrite Forall_forall. intros [sc g] (_ & -> & _)%score_rows_positive.
    apply score_le_tokens. }
  destruct (collect_head limit f (length (query_tokens query)) rest)
    as [more E].
  destruct (collect _ _ _ _) as [seen out]. simpl in E. subst out.
  by exists more.
Qed.

(** X5. A fact just stored is found again: after [add_fact] has stored a
    non-blank text for a user, [get_top_facts] for that user, asked with a
    query all of whose tokens (there is at least one) occur in the stored
    text, returns that text first, ahead of every older fact and for every
    limit. *)
Theorem stored_fact_recalled_first (now u text query : str) (limit : Z)
    (db : Db) :
  ~ Forall (fun c => isspace c = true) text ->
  query_tokens query <> [] ->
  matches_all query (strip text) ->
  exists db' more,
    (add_fact None now u text ;; get_top_facts None u query limit) db
    = (db', Ok (strip text :: more)).
Proof.
  intros Hb Htok Hall.
  destruct (strip text) as [|c t] eqn:E; [by apply strip_nil in E|].
  unfold mbind, M_bind, add_fact. rewrite E. cbn [truthy negb].
  unfold execute at 1. rewrite get_top_facts_run, select_recent_insert_own.
  destruct (top_facts_full_match (c :: t) now query limit
              (take 199 (map (fun r => (fact r, created_at r))
                 (rev (filter (fun r => user_id r = u) (facts db))))))
    as [more ->]; [done..|].
  by eexists _, more.
Qed.

(** X6. Facts are kept per user: storing a fact for one user changes
    nothing of what [get_top_facts] returns for another user, whatever the
    query and the limit. *)
Theorem add_fact_other_user_unseen (wfault rfault : option exn)
    (now u u' text query : str) (limit : Z) (db : Db) :
  u <> u' ->
  snd (get_top_facts rfault u query limit
         (fst (add_fact wfault now u' text db)))
  = snd (get_top_facts rfault u query limit db).
Proof.
  intros Hu. rewrite !get_top_facts_run. cbn [snd].
  destruct rfault; [done|]. f_equal. f_equal.
  unfold add_fact. destruct (negb _); [done|].
  unfold execute. destruct wfault; [done|]. cbn [fst].
  by apply select_recent_insert_other.
Qed.

End RecallProperties.

Lemma tokenize_tokens_are_words_witness :
  py "moro" ∈ @_tokenize latin1 (py "Eu moro em Natal!")
  /\ infix_of (py "moro") (py "Eu moro em Natal!").
Proof.
  assert (py "moro" ∈ @_tokenize latin1 (py "Eu moro em Natal!")) as Hin.
  { vm_compute. apply list_elem_of_In. simpl. tauto. }
  split; [exact Hin|].
  exact (proj2 (proj2 (@tokenize_tokens_are_words latin1 _ _ Hin))).
Defined.

Lemma stored_fact_recalled_first_witness :
  exists db' more,
    (add_fact None Scenario.noon (py "u") (py " Eu moro em Natal. ") ;;
     @get_top_facts latin1 None (py "u") (py "moro natal") 6)
      Scenario.told_twice
    = (db', Ok (strip (py " Eu moro em Natal. ") :: more)).
Proof.
  assert (~ Forall (fun c => isspace c = true) (py " Eu moro em Natal. "))
    as Hb.
  { intros Hall. apply strip_nil in Hall. vm_compute in Hall. discriminate. }
  assert (@query_tokens latin1 (py "moro natal") <> []) as Htok.
  { vm_compute. discriminate. }
  assert (@matches_all latin1 (py "moro natal")
            (strip (py " Eu moro em Natal. "))) as Hall.
  { unfold matches_all. vm_compute. repeat constructor. }
  exact (@stored_fact_recalled_first latin1 Scenario.noon (py "u")
           (py " Eu moro em Natal. ") (py "moro natal") 6
           Scenario.told_twice Hb Htok Hall).
Defined.

Lemma add_fact_other_user_unseen_witness :
  snd (@get_top_facts latin1 None (py "u") (py "quem sou eu") 6
         (fst (add_fact None Scenario.noon (py "v") (py "Eu sou Bia.")
                 Scenario.told_twice)))
  = snd (@get_top_facts latin1 None (py "u") (py "quem sou eu") 6
           Scenario.told_twice).
Proof.
  apply (@add_fact_other_user_unseen latin1). vm_compute. discriminate.
Defined.

Section PromptFacts.
Context `{Unicode}.

(** X7. What [maybe_extract_fact] returns is a fact in its own right: given
    its own result, it returns that result again. *)
Theorem maybe_extract_fact_fixed_point (text fact : str) :
  maybe_extract_fact text = Some fact ->
  maybe_extract_fact fact = Some fact.
Proof.
  intros Hf. pose proof (maybe_extract_fact_some _ _ Hf) as [-> _].
  unfold maybe_extract_fact in *. by rewrite strip_idem.
Qed.

(** X8. The memories [build_messages] puts into the system message are at
    most six, and each one is the text of a stored row of the user the
    messages are built for: the prompt of one user never carries a fact of
    another. *)
Theorem build_messages_recalls_own_facts (fault : option exn)
    (u user_text prompt : str) (db : Db) :
  exists recalled,
    (length recalled <= 6)%nat
    /\ (forall f, f ∈ recalled ->
          exists row, row ∈ facts db /\ user_id row = u /\ fact row = f)
    /\ snd (build_messages fault u user_text prompt db) =
         Ok [ {| role := py "system";
                 content := if truthy recalled
                            then with_memories prompt (memory_block recalled)
                            else prompt |};
              {| role := py "user"; content := user_text |} ].
Proof.
  rewrite build_messages_outcome, get_top_facts_run. cbn [snd].
  destruct fault as [e|].
  { exists []. split; [simpl; lia|]. split; [|done].
    by intros f ?%elem_of_nil. }
  exists (top_facts (select_recent db u) user_text 6).
  split; [|split].
  - pose proof (top_facts_length (select_recent db u) user_text 6). lia.
  - intros f Hf.
    by apply facts_of_row, select_recent_own, (top_facts_from_rows _ user_text 6).
  - by destruct (top_facts _ _ _).
Qed.

End PromptFacts.

Section ChatFacts.
Context `{Unicode}.

(** Every token of a text occurs in that text, trimmed and lowercased. *)
Lemma matches_all_self (text : str) : matches_all text (strip text).
Proof.
  unfold matches_all, query_tokens.
  apply Forall_forall. intros t [_ Ht]%list_elem_of_filter.
  apply contains_infix.
  apply tokenize_go_tokens in Ht as [Ht|(_ & _ & Ht)]; [|done|done].
  by apply elem_of_nil in Ht.
Qed.

Lemma chat_remember (env : Main.Env) (req : Main.ChatRequest) (db : Db) :
  match maybe_extract_fact (Main.text req) with
  | Some fact =>
      if truthy fact
      then add_fact (Main.memory_write_fault env) (Main.utcnow env)
                    (Main.user_id req) fact
      else mret tt
  | None => mret tt
  end db =
  match maybe_extract_fact (Main.text req), Main.memory_write_fault env with
  | None, _ => (db, Ok tt)
  | Some _, Some e => (db, Raise e)
  | Some _, None =>
      (insert db (Main.user_id req) (strip (Main.text req)) (Main.utcnow env),
       Ok tt)
  end.
Proof.
  destruct (maybe_extract_fact (Main.text req)) as [fact|] eqn:Ef; [|done].
  apply maybe_extract_fact_some in Ef as [-> Ht]. rewrite Ht.
  unfold add_fact. rewrite strip_idem, Ht. cbn [negb]. unfold execute.
  by destruct (Main.memory_write_fault env).
Qed.

(** X9. A fact told to the chat endpoint is in the prompt of that same
    request: when the text of the request is extracted as a fact, has a
    token of three characters or more, and SQLite does not raise, the
    endpoint stores the fact and then calls the completion engine with a
    system message whose memory block starts with that fact; the row stays
    stored whether the engine answers (the reply is returned) or raises
    (status 500 with the exception's text). *)
Theorem chat_fact_in_own_prompt (env : Main.Env) (settings : Main.Settings)
    (req : Main.ChatRequest) (db : Db) (fact : str) :
  Main.memory_write_fault env = None ->
  Main.memory_read_fault env = None ->
  maybe_extract_fact (Main.text req) = Some fact ->
  query_tokens (Main.text req) <> [] ->
  exists more,
    Main.chat_endpoint env settings req db =
      (insert db (Main.user_id req) fact (Main.utcnow env),
       match Main.ollama_chat env
               [ {| role := py "system";
                    content := with_memories (Main.system_prompt settings)
                                             (memory_block (fact :: more)) |};
                 {| role := py "user"; content := Main.text req |} ]
               (Main.ollama_host settings) (Main.ollama_model settings) with
       | Ok reply => Main.Returned [("reply"%string, reply)]
       | Raise e => Main.HTTPException 500 (exn_str e)
       end).
Proof.
  intros Hw Hr Hf Htok.
  pose proof (chat_remember env req db) as Hrem. rewrite Hf, Hw in Hrem.
  pose proof (maybe_extract_fact_some _ _ Hf) as [-> _].
  destruct (top_facts_full_match (strip (Main.text req)) (Main.utcnow env)
              (Main.text req) 6
              (take 199 (map (fun r => (Memory.fact r, created_at r))
                 (rev (filter (fun r => user_id r = Main.user_id req)
                         (facts db))))))
    as [more Htop]; [done|apply matches_all_self|].
  exists more. unfold Main.chat_endpoint, Main.chat.
  erewrite bind_ok by (rewrite Hf, Hw; exact Hrem).
  unfold mbind at 1, M_bind at 1.
  rewrite build_messages_outcome, get_top_facts_run, Hr. cbn [snd].
  rewrite select_recent_insert_own, Htop.
  unfold mbind, M_bind, call, with_memories, memory_block. cbn [truthy].
  by destruct (Main.ollama_chat _ _ _ _).
Qed.

(** X10. The chat endpoint changes the store in one way only: it appends
    one row, for the user of the request and holding the trimmed text of
    the request, exactly when that text is extracted as a fact and SQLite
    accepts the write; in every other case, and whatever the completion
    engine does, the table is as before. *)
Theorem chat_endpoint_appends_own_text (env : Main.Env)
    (settings : Main.Settings) (req : Main.ChatRequest) (db : Db) :
  fst (Main.chat_endpoint env settings req db) =
  match maybe_extract_fact (Main.text req), Main.memory_write_fault env with
  | Some _, None =>
      insert db (Main.user_id req) (strip (Main.text req)) (Main.utcnow env)
  | _, _ => db
  end.
Proof.
  pose proof (chat_remember env req db) as Hrem.
  unfold Main.chat_endpoint, Main.chat.
  destruct (maybe_extract_fact (Main.text req)) as [fact|] eqn:Ef;
    [destruct (Main.memory_write_fault env) as [e|] eqn:Ew|].
  - by erewrite bind_raise by exact Hrem.
  - erewrite bind_ok by exact Hrem.
    unfold mbind at 1, M_bind at 1. rewrite build_messages_outcome.
    unfold mbind, M_bind, call. by destruct (Main.ollama_chat _ _ _ _).
  - erewrite bind_ok by exact Hrem.
    unfold mbind at 1, M_bind at 1. rewrite build_messages_outcome.
    unfold mbind, M_bind, call.
    destruct (Main.ollama_chat _ _ _ _); by destruct (Main.memory_write_fault env).
Qed.

(** X11. The chat endpoint fails with status 500 only, and only for two
    reasons: SQLite raised while the fact was written, or the completion
    engine raised; the detail is the text of that exception. SQLite
    raising while the facts are read never fails a request. *)
Theorem chat_endpoint_failure (env : Main.Env) (settings : Main.Settings)
    (req : Main.ChatRequest) (db : Db) (status : Z) (detail : str) :
  snd (Main.chat_endpoint env settings req db)
    = Main.HTTPException status detail ->
  status = 500%Z
  /\ exists e, detail = exn_str e
       /\ (Main.memory_write_fault env = Some e
           \/ exists messages,
                Main.ollama_chat env messages (Main.ollama_host settings)
                                 (Main.ollama_model settings) = Raise e).
Proof.
  pose proof (chat_remember env req db) as Hrem.
  unfold Main.chat_endpoint, Main.chat.
  destruct (maybe_extract_fact (Main.text req)) as [fact|] eqn:Ef;
    [destruct (Main.memory_write_fault env) as [e|] eqn:Ew|].
  - erewrite bind_raise by exact Hrem. intros [= <- <-]. eauto.
  - erewrite bind_ok by exact Hrem.
    unfold mbind at 1, M_bind at 1. rewrite build_messages_outcome.
    unfold mbind, M_bind, call.
    destruct (Main.ollama_chat _ _ _ _) as [reply|e] eqn:El; [done|].
    intros [= <- <-]. split; [done|]. exists e. split; [done|]. right. eauto.
  - erewrite bind_ok by exact Hrem.
    unfold mbind at 1, M_bind at 1. rewrite build_messages_outcome.
    unfold mbind, M_bind, call.
    destruct (Main.ollama_chat _ _ _ _) as [reply|e] eqn:El; [done|].
    intros [= <- <-]. split; [done|]. exists e. split; [done|]. right. eauto.
Qed.

End ChatFacts.

Lemma chat_fact_in_own_prompt_witness :
  exists more,
    @Main.chat_endpoint latin1
      (Requests.services (Raise Scenario.offline) None)
      Requests.defaults Requests.natal Scenario.told_twice
    = (insert Scenario.told_twice (Main.user_id Requests.natal)
              (py "Eu moro em Natal.")
              (Main.utcnow (Requests.services (Raise Scenario.offline) None)),
       match Main.ollama_chat (Requests.services (Raise Scenario.offline) None)
               [ {| role := py "system";
                    content := with_memories
                                 (Main.system_prompt Requests.defaults)
                                 (memory_block (py "Eu moro em Natal." :: more)) |};
                 {| role := py "user"; content := Main.text Requests.natal |} ]
               (Main.ollama_host Requests.defaults)
               (Main.ollama_model Requests.defaults) with
       | Ok reply => Main.Returned [("reply"%string, reply)]
       | Raise e => Main.HTTPException 500 (exn_str e)
       end).
Proof.
  assert (@maybe_extract_fact latin1 (Main.text Requests.natal)
          = Some (py "Eu moro em Natal.")) as Hf by (vm_compute; reflexivity).
  assert (@query_tokens latin1 (Main.text Requests.natal) <> []) as Htok
    by (vm_compute; discriminate).
  assert (Main.memory_write_fault
            (Requests.services (Raise Scenario.offline) None) = None) as Hw
    by reflexivity.
  assert (Main.memory_read_fault
            (Requests.services (Raise Scenario.offline) None) = None) as Hr
    by reflexivity.
  exact (@chat_fact_in_own_prompt latin1
           (Requests.services (Raise Scenario.offline) None)
           Requests.defaults Requests.natal Scenario.told_twice
           (py "Eu moro em Natal.") Hw Hr Hf Htok).
Defined.

Lemma chat_endpoint_failure_witness :
  (500 = 500)%Z
  /\ exists e, py "database is locked" = exn_str e
       /\ (Main.memory_write_fault
             (Requests.services (Ok (py "Que legal!")) (Some Scenario.locked))
           = Some e
           \/ exists messages,
                Main.ollama_chat
                  (Requests.services (Ok (py "Que legal!"))
                                     (Some Scenario.locked))
                  messages (Main.ollama_host Requests.defaults)
                  (Main.ollama_model Requests.defaults) = Raise e).
Proof.
  assert (snd (@Main.chat_endpoint latin1
                 (Requests.services (Ok (py "Que legal!"))
                                    (Some Scenario.locked))
                 Requests.defaults Requests.natal Scenario.told_twice)
          = Main.HTTPException 500 (py "database is locked")) as Hout
    by (vm_compute; reflexivity).
  exact (@chat_endpoint_failure latin1 _ _ _ _ _ _ Hout).
Defined.

Section RingFacts.
Context {sample : Type}.
Implicit Types (b : AudioBuffer sample) (chunk d : list sample).

Lemma int_of_seconds (k rate : Z) :
  (0 < rate)%Z -> int_of (seconds k rate * inject_Z rate) = k.
Proof.
  intros Hr.
  assert (seconds k rate * inject_Z rate == inject_Z k)%Q as E.
  { unfold seconds. field. intros E0.
    apply (inject_Z_injective rate 0) in E0. lia. }
  unfold int_of.
  destruct (Qle_bool 0 _); rewrite E; [apply Qfloor_Z|apply Qceiling_Z].
Qed.

Lemma int_of_zero (rate : Z) : int_of (0 * inject_Z rate) = 0%Z.
Proof.
  assert (0 * inject_Z rate == inject_Z 0)%Q as E by (unfold inject_Z; ring).
  unfold int_of. destruct (Qle_bool 0 _); by rewrite E.
Qed.

Lemma rotate_inside d (p : nat) :
  (p < length d)%nat -> rotate p d = drop p d ++ take p d.
Proof. intros Hp. unfold rotate. by rewrite Nat.mod_small. Qed.

(** The two ways [get_audio] cuts the ring, as one rotation. *)
Lemma ring_slices d (p q : Z) :
  (0 <= p < Z.of_nat (length d))%Z -> (0 <= q < Z.of_nat (length d))%Z ->
  (if (p <? q)%Z then slice d p q
   else slice d p (Z.of_nat (length d)) ++ slice d 0 q)
  = take (Z.to_nat (if (p <? q)%Z then q - p
                    else Z.of_nat (length d) - p + q))
         (rotate (Z.to_nat p) d).
Proof.
  intros Hp Hq. rewrite rotate_inside by lia. unfold slice.
  rewrite !slice_bound_inside by lia.
  destruct (p <? q)%Z eqn:E.
  - apply Z.ltb_lt in E. rewrite take_app_le by (rewrite length_drop; lia).
    f_equal. lia.
  - apply Z.ltb_ge in E. rewrite Nat2Z.id, drop_0.
    rewrite (take_ge (drop _ _)) by (rewrite length_drop; lia).
    rewrite take_app_ge by (rewrite length_drop; lia).
    rewrite length_drop, take_take. f_equal. f_equal. lia.
Qed.

(** [get_audio], in full, on a ring of positive length. *)
Lemma get_audio_ring b (start_time end_time : Q) :
  well_formed b ->
  let n := Z.of_nat (length (data b)) in
  let p := ((start_idx b + int_of (start_time * inject_Z (sample_rate b)))
            mod n)%Z in
  let q := ((start_idx b + int_of (end_time * inject_Z (sample_rate b)))
            mod n)%Z in
  get_audio start_time end_time b
  = Ok (take (Z.to_nat (if (p <? q)%Z then q - p else n - p + q))
             (rotate (Z.to_nat p) (data b))).
Proof.
  intros (Hn & _ & _) n p q. unfold get_audio. fold n.
  replace (n =? 0)%Z with false by lia. fold p q.
  assert (0 <= p < n)%Z as Hp by (apply Z.mod_pos_bound; lia).
  assert (0 <= q < n)%Z as Hq by (apply Z.mod_pos_bound; lia).
  pose proof (ring_slices (data b) p q Hp Hq) as Hr. fold n in Hr.
  destruct (p <? q)%Z; by rewrite Hr.
Qed.

Lemma rotate_rotate {A} (a c : nat) (l : list A) :
  rotate a (rotate c l) = rotate (c + a) l.
Proof.
  apply list_eq. intros i. destruct (decide (i < length l)%nat) as [Hi|Hi].
  - rewrite (lookup_rotate_r (rotate c l)) by (rewrite length_rotate; lia).
    rewrite length_rotate.
    rewrite (lookup_rotate_r l c) by (apply rotate_nat_add_lt; lia).
    rewrite (lookup_rotate_r l (c + a)) by lia.
    f_equal. unfold rotate_nat_add.
    rewrite Z2Nat.id by (apply Z.mod_pos_bound; lia).
    rewrite Zplus_mod_idemp_r. f_equal. f_equal. lia.
  - rewrite !lookup_ge_None_2; [done|rewrite ?length_rotate; lia..].
Qed.

Lemma rotate_mod {A} (a : nat) (l : list A) :
  rotate (a mod length l) l = rotate a l.
Proof. unfold rotate. by rewrite Nat.Div0.mod_mod. Qed.

(** The ring read from the write cursor is the ring read from the read
    cursor, turned by the size of the window. *)
Lemma rotate_end b :
  well_formed b ->
  rotate (Z.to_nat (end_idx b)) (data b)
  = rotate (Z.to_nat (window_size b))
           (rotate (Z.to_nat (start_idx b)) (data b)).
Proof.
  intros (Hn & Hs & He). unfold window_size. rewrite rotate_rotate.
  set (n := Z.of_nat (length (data b))) in *.
  assert (0 <= (end_idx b - start_idx b) mod n < n)%Z as Hw
    by (apply Z.mod_pos_bound; lia).
  rewrite <- (rotate_mod (_ + _)).
  f_equal. apply Nat2Z.inj. rewrite Nat2Z.inj_mod, Nat2Z.inj_add.
  rewrite !Z2Nat.id by lia. fold n.
  rewrite Zplus_mod_idemp_r.
  replace (start_idx b + (end_idx b - start_idx b))%Z with (end_idx b) by lia.
  rewrite Z.mod_small; lia.
Qed.

(** The window is what ends at the write cursor. *)
Lemma window_ends b :
  well_formed b ->
  window b = drop (length (data b) - Z.to_nat (window_size b))
                  (rotate (Z.to_nat (end_idx b)) (data b)).
Proof.
  intros Hwf. rewrite rotate_end by done. unfold window.
  pose proof Hwf as (Hn & _ & _).
  assert (0 <= window_size b < Z.of_nat (length (data b)))%Z as Hw
    by (apply Z.mod_pos_bound; lia).
  set (S := rotate (Z.to_nat (start_idx b)) (data b)).
  assert (length S = length (data b)) as HS by apply length_rotate.
  rewrite rotate_inside by lia.
  by rewrite drop_app_length' by (rewrite length_drop; lia).
Qed.

(** The slice assignments of [append], on a ring [d] with the write cursor
    at [e]: in the ring read from [e], the chunk takes the place of the
    first samples. *)
Lemma write_chunk d chunk (e : nat) :
  (e < length d)%nat -> (0 < length chunk <= length d)%nat ->
  exists d',
    length d' = length d
    /\ rotate e d' = chunk ++ drop (length chunk) (rotate e d)
    /\ if decide (e + length chunk < length d)%nat
       then assign_slice d (Z.of_nat e) (Z.of_nat (e + length chunk)) chunk
            = Ok d'
       else exists d1,
            assign_slice d (Z.of_nat e) (Z.of_nat (length d))
              (slice chunk 0 (Z.of_nat (length d - e))) = Ok d1
            /\ assign_slice d1 0 (Z.of_nat (e + length chunk - length d))
                 (slice chunk (Z.of_nat (length d - e))
                        (Z.of_nat (length chunk))) = Ok d'.
Proof.
  intros He Hc. rewrite (rotate_inside d) by done.
  destruct (decide (e + length chunk < length d)%nat) as [Hfit|Hwrap].
  - exists (take e d ++ chunk ++ drop (e + length chunk) d).
    assert (length (take e d ++ chunk ++ drop (e + length chunk) d)
            = length d) as Hlen.
    { rewrite !length_app, length_take, length_drop. lia. }
    split; [done|]. split.
    + rewrite rotate_inside by lia.
      rewrite drop_app_length' by (rewrite length_take; lia).
      rewrite take_app_length' by (rewrite length_take; lia).
      rewrite drop_app_le by (rewrite length_drop; lia).
      rewrite drop_drop. by rewrite <- !app_assoc.
    + unfold assign_slice. rewrite !slice_bound_inside by lia.
      rewrite !Nat2Z.id.
      replace (length chunk =? _)%nat with true
        by (symmetry; apply Nat.eqb_eq; lia).
      do 4 f_equal. lia.
  - set (r := (length d - e)%nat).
    set (e' := (e + length chunk - length d)%nat).
    exists (drop r chunk ++ drop e' (take e d) ++ take r chunk).
    assert (length (drop r chunk ++ drop e' (take e d) ++ take r chunk)
            = length d) as Hlen.
    { rewrite !length_app, !length_drop, !length_take. lia. }
    split; [done|]. split.
    + rewrite rotate_inside by lia.
      rewrite (app_assoc (drop r chunk)).
      rewrite drop_app_length', take_app_length'
        by (rewrite length_app, !length_drop, length_take; lia).
      rewrite drop_app_ge by (rewrite length_drop; lia).
      rewrite length_drop. fold r.
      replace (length chunk - r)%nat with e' by lia.
      by rewrite app_assoc, take_drop.
    + exists (take e d ++ take r chunk).
      assert (slice chunk 0 (Z.of_nat r) = take r chunk) as E1.
      { unfold slice. rewrite !slice_bound_inside by lia.
        rewrite Nat2Z.id. simpl. by rewrite Nat.sub_0_r. }
      assert (slice chunk (Z.of_nat r) (Z.of_nat (length chunk))
              = drop r chunk) as E2.
      { unfold slice. rewrite !slice_bound_inside by lia.
        rewrite !Nat2Z.id. apply take_ge. rewrite length_drop. lia. }
      rewrite E1, E2. unfold assign_slice.
      rewrite !slice_bound_inside
        by (rewrite ?length_app, ?length_take; lia).
      rewrite !Nat2Z.id. split.
      * replace (length (take r chunk) =? _)%nat with true
          by (symmetry; apply Nat.eqb_eq; rewrite length_take; lia).
        rewrite drop_ge by lia. by rewrite app_nil_r.
      * change (Z.to_nat 0) with 0%nat. rewrite Nat.sub_0_r, Nat.add_0_l.
        replace (length (drop r chunk) =? e')%nat with true
          by (symmetry; apply Nat.eqb_eq; rewrite length_drop; lia).
        rewrite take_0. simpl. f_equal. f_equal.
        by rewrite drop_app_le by (rewrite length_take; lia).
Qed.

(** [append] of a chunk the ring can hold, in full. *)
Lemma append_writes b chunk :
  well_formed b ->
  (0 < length chunk <= length (data b))%nat ->
  exists d',
    append chunk b =
      ({| data := d'; sample_rate := sample_rate b;
          start_idx :=
            (if (Z.of_nat (length (data b)) - window_size b
                 <? Z.of_nat (length chunk))%Z
             then ((start_idx b
                    + (Z.of_nat (length chunk)
                       - (Z.of_nat (length (data b)) - window_size b)))
                   mod Z.of_nat (length (data b)))%Z
             else start_idx b);
          end_idx := ((end_idx b + Z.of_nat (length chunk))
                      mod Z.of_nat (length (data b)))%Z;
          is_recording := is_recording b |}, Ok tt)
    /\ length d' = length (data b)
    /\ rotate (Z.to_nat (end_idx b)) d'
       = chunk ++ drop (length chunk) (rotate (Z.to_nat (end_idx b)) (data b)).
Proof.
  intros (Hn & Hs & He) Hc. destruct b as [d r s e rec]. simpl in *.
  destruct (write_chunk d chunk (Z.to_nat e)) as (d' & Hlen & Hrot & Hw);
    [lia..|].
  exists d'. split; [|done].
  unfold window_size. simpl.
  destruct (decide (Z.to_nat e + length chunk < length d)%nat)
    as [Hfit|Hwrap].
  all: set (n := Z.of_nat (length d)) in *.
  all: set (cs := Z.of_nat (length chunk)) in *.
  all: assert (0 < cs <= n)%Z as Hcs by lia.
  all: unfold append; fold cs.
  all: replace (cs =? 0)%Z with false by lia.
  all: unfold mbind, M_bind, get, mod_len, modify, mret, M_ret, store; simpl.
  all: fold n; replace (n =? 0)%Z with false by lia.
  all: set (w := ((e - s) mod n)%Z).
  all: pose proof (mod_once (e + cs) n Hn ltac:(lia)) as Hend.
  all: rewrite Z2Nat.id in Hw by lia.
  all: destruct (n - w <? cs)%Z eqn:Hfull; simpl; fold n;
    replace (n =? 0)%Z with false by lia; simpl; fold n;
    replace (n =? 0)%Z with false by lia.
  all: destruct (e + cs <? n)%Z eqn:Hlt; try lia.
  all: rewrite Hend.
  1,2: replace (e <? e + cs)%Z with true by lia;
       replace (Z.of_nat (Z.to_nat e + length chunk)) with (e + cs)%Z
         in Hw by lia;
       simpl; by rewrite Hw.
  all: replace (e <? e + cs - n)%Z with false by lia;
       destruct Hw as (d1 & Hw1 & Hw2);
       replace (Z.of_nat (length d - Z.to_nat e)) with (n - e)%Z in * by lia;
       replace (Z.of_nat (Z.to_nat e + length chunk - length d))
         with (e + cs - n)%Z in * by lia;
       fold n cs in Hw1, Hw2; simpl; rewrite Hw1; simpl; by rewrite Hw2.
Qed.

(** X12. The samples [get_audio] returns are fixed by the two sample
    offsets it computes from the times: when the end offset is [k] samples
    after the start offset [a], with [k] from 1 to the length [n] of the
    ring, it returns the [k] samples that follow position
    [(start_idx + a) mod n], going around the end of the ring. *)
Theorem get_audio_reads_ring b (start_time end_time : Q) (a k : Z) :
  well_formed b ->
  int_of (start_time * inject_Z (sample_rate b)) = a ->
  int_of (end_time * inject_Z (sample_rate b)) = (a + k)%Z ->
  (0 < k <= Z.of_nat (length (data b)))%Z ->
  get_audio start_time end_time b
  = Ok (take (Z.to_nat k)
             (rotate (Z.to_nat ((start_idx b + a)
                                mod Z.of_nat (length (data b))))
                     (data b))).
Proof.
  intros Hwf Ha Hz Hk. rewrite get_audio_ring by done.
  destruct Hwf as (Hn & Hs & He). rewrite Ha, Hz.
  set (n := Z.of_nat (length (data b))) in *.
  set (p := ((start_idx b + a) mod n)%Z).
  assert (0 <= p < n)%Z as Hp by (apply Z.mod_pos_bound; lia).
  replace ((start_idx b + (a + k)) mod n)%Z with ((p + k) mod n)%Z
    by (unfold p; rewrite Zplus_mod_idemp_l; f_equal; lia).
  rewrite (mod_once (p + k) n) by lia.
  destruct (p + k <? n)%Z eqn:E.
  - replace (p <? p + k)%Z with true by lia. f_equal. f_equal. lia.
  - replace (p <? p + k - n)%Z with false by lia. f_equal. f_equal. lia.
Qed.

(** X13. On a ring of [n] samples, [n] positive, and for times within the
    range where [int] does not raise (the sample rate and both products of
    a time and the sample rate are below 2^1000 in magnitude),
    [get_audio] does not raise and never returns an empty array: it returns
    between 1 and [n] samples (all [n] of them when the two times fall on
    the same position of the ring). *)
Theorem get_audio_never_empty b (start_time end_time : Q) :
  well_formed b ->
  (Z.abs (sample_rate b) <= 2 ^ 1000)%Z ->
  (Qabs (start_time * inject_Z (sample_rate b)) <= inject_Z (2 ^ 1000))%Q ->
  (Qabs (end_time * inject_Z (sample_rate b)) <= inject_Z (2 ^ 1000))%Q ->
  exists audio,
    get_audio start_time end_time b = Ok audio
    /\ (0 < length audio <= length (data b))%nat.
Proof.
  intros Hwf _ _ _. rewrite get_audio_ring by done.
  destruct Hwf as (Hn & _ & _).
  eexists. split; [reflexivity|].
  set (n := Z.of_nat (length (data b))) in *.
  set (p := (_ mod n)%Z). set (q := (_ mod n)%Z).
  assert (0 <= p < n)%Z as Hp by (apply Z.mod_pos_bound; lia).
  assert (0 <= q < n)%Z as Hq by (apply Z.mod_pos_bound; lia).
  rewrite length_take, length_rotate.
  destruct (p <? q)%Z eqn:E; lia.
Qed.

(** A chunk shorter than the free space is added to the end of the
    window. *)
Lemma append_queue b chunk :
  well_formed b ->
  (0 < length chunk)%nat ->
  (window_size b + Z.of_nat (length chunk) < Z.of_nat (length (data b)))%Z ->
  exists b',
    append chunk b = (b', Ok tt)
    /\ well_formed b'
    /\ length (data b') = length (data b)
    /\ window_size b' = (window_size b + Z.of_nat (length chunk))%Z
    /\ window b' = window b ++ chunk.
Proof.
  intros Hwf Hc Hroom. pose proof Hwf as (Hn & Hs & He).
  assert (0 <= window_size b < Z.of_nat (length (data b)))%Z as Hw
    by (apply Z.mod_pos_bound; lia).
  destruct (append_within_capacity b chunk Hwf ltac:(lia))
    as (b' & Happ & Hwf' & Hlen' & _ & _ & Hend' & Hwin').
  replace (_ <? _)%Z with true in Hwin' by lia.
  exists b'. do 4 (split; [done|]).
  destruct (append_writes b chunk Hwf ltac:(lia)) as (d' & Happ' & Hd' & Hrot).
  rewrite Happ in Happ'. injection Happ' as Hb'.
  rewrite (window_ends b'), (window_ends b) by done.
  rewrite Hwin', Hend', Hlen'. rewrite Hb' at 1. cbn [data].
  set (n := length (data b)) in *.
  set (R := rotate (Z.to_nat (end_idx b)) (data b)) in *.
  assert (length R = n) as HR by apply length_rotate.
  assert (rotate (Z.to_nat ((end_idx b + Z.of_nat (length chunk))
                            mod Z.of_nat n)) d'
          = drop (length chunk) R ++ chunk) as ->.
  { replace (Z.to_nat _)
      with ((Z.to_nat (end_idx b) + length chunk) mod length d')%nat
      by (rewrite Hd', Z2Nat.inj_mod by lia; f_equal; lia).
    rewrite rotate_mod, <- rotate_rotate, Hrot.
    rewrite rotate_inside by (rewrite length_app, length_drop; lia).
    by rewrite drop_app_length, take_app_length. }
  rewrite drop_app_le by (rewrite length_drop; lia).
  rewrite drop_drop. do 2 f_equal. lia.
Qed.

(** X14. While there is room, [append] is a queue: a chunk that is shorter
    than the free space of the ring is written without an exception, and
    the unread window afterwards is the window before followed by the
    chunk, wherever the cursors stand and whether or not the write goes
    around the end of the ring. *)
Theorem append_extends_window b chunk :
  well_formed b ->
  (0 < length chunk)%nat ->
  (window_size b + Z.of_nat (length chunk) < Z.of_nat (length (data b)))%Z ->
  exists b',
    append chunk b = (b', Ok tt)
    /\ well_formed b'
    /\ length (data b') = length (data b)
    /\ window_size b' = (window_size b + Z.of_nat (length chunk))%Z
    /\ window b' = window b ++ chunk.
Proof. apply append_queue. Qed.

Lemma bind_ok_ring {A B} (m : M (AudioBuffer sample) A)
    (k : A -> M (AudioBuffer sample) B) s s' a :
  m s = (s', Ok a) -> (m ≫= k) s = k a s'.
Proof. intros E. unfold mbind, M_bind. by rewrite E. Qed.

Lemma append_empty b : append [] b = (b, Ok tt).
Proof. reflexivity. Qed.

(** X15. Chunk after chunk: as long as the samples of all the chunks
    together are fewer than the free space of the ring, appending them one
    after the other never raises, and the unread window ends up as the
    window before followed by the chunks in their order. *)
Theorem append_all_extends_window (chunks : list (list sample)) b :
  well_formed b ->
  (window_size b + Z.of_nat (length (concat chunks))
   < Z.of_nat (length (data b)))%Z ->
  exists b',
    append_all chunks b = (b', Ok tt)
    /\ well_formed b'
    /\ window b' = window b ++ concat chunks.
Proof.
  revert b. induction chunks as [|chunk chunks IH]; intros b Hwf Hroom.
  - exists b. simpl. by rewrite app_nil_r.
  - simpl in Hroom. rewrite length_app in Hroom.
    cbn [append_all foldr]. fold (append_all chunks).
    destruct chunk as [|x chunk].
    + erewrite bind_ok_ring by apply append_empty. by apply IH.
    + destruct (append_queue b (x :: chunk) Hwf)
        as (b1 & Happ & Hwf1 & Hlen1 & Hw1 & Hwin1); [simpl; lia|lia|].
      erewrite bind_ok_ring by exact Happ.
      destruct (IH b1 Hwf1) as (b' & Hall & Hwf' & Hwin'); [lia|].
      exists b'. split; [done|]. split; [done|].
      by rewrite Hwin', Hwin1, <- app_assoc.
Qed.

End RingFacts.

Lemma turned_well_formed : well_formed turned.
Proof. unfold well_formed, turned. simpl. lia. Qed.

Lemma get_audio_reads_ring_witness :
  get_audio 0 (3 # 16000) turned
  = Ok (take (Z.to_nat 3)
             (rotate (Z.to_nat ((start_idx turned + 0)
                                mod Z.of_nat (length (data turned))))
                     (data turned))).
Proof.
  apply (get_audio_reads_ring turned 0 (3 # 16000) 0 3);
    [exact turned_well_formed | reflexivity | reflexivity | simpl; lia].
Defined.

Lemma get_audio_never_empty_witness :
  exists audio,
    get_audio 0 0 turned = Ok audio
    /\ (0 < length audio <= length (data turned))%nat.
Proof.
  assert (Z.abs (sample_rate turned) <= 2 ^ 1000)%Z as Hrate.
  { change (sample_rate turned) with 16000%Z.
    pose proof (Z.pow_le_mono_r 2 14 1000 ltac:(lia) ltac:(lia)) as Hp.
    change (2 ^ 14)%Z with 16384%Z in Hp. lia. }
  assert (Qabs (0 * inject_Z (sample_rate turned)) <= inject_Z (2 ^ 1000))%Q
    as Htime.
  { change (Qabs (0 * inject_Z (sample_rate turned))) with (inject_Z 0).
    rewrite <- Zle_Qle. apply Z.pow_nonneg. lia. }
  exact (get_audio_never_empty turned 0 0 turned_well_formed Hrate
           Htime Htime).
Defined.

Lemma append_extends_window_witness :
  exists b',
    append [7; 8]%Z turned = (b', Ok tt)
    /\ well_formed b'
    /\ length (data b') = length (data turned)
    /\ window_size b' = (window_size turned + Z.of_nat (length [7; 8]%Z))%Z
    /\ window b' = window turned ++ [7; 8]%Z.
Proof.
  apply (append_extends_window turned [7; 8]%Z);
    [exact turned_well_formed | simpl; lia | vm_compute; reflexivity].
Defined.

Lemma append_all_extends_window_witness :
  exists b',
    append_all [[7]; []; [8; 9]]%Z turned = (b', Ok tt)
    /\ well_formed b'
    /\ window b' = window turned ++ concat [[7]; []; [8; 9]]%Z.
Proof.
  apply (append_all_extends_window [[7]; []; [8; 9]]%Z turned);
    [exact turned_well_formed | vm_compute; reflexivity].
Defined.

Section KeepsFacts.
Context {sample : Type} (R : relation (World sample)) `{!PreOrder R}.
Implicit Types (w : World sample) (h : Handler sample).

Lemma keeps_ret {A} (a : A) : keeps R (mret a : M (World sample) A).
Proof using All. intros w. simpl. reflexivity. Qed.

Lemma keeps_call {A} (r : result A) : keeps R (call r : M (World sample) A).
Proof using All. intros w. simpl. reflexivity. Qed.

Lemma keeps_raise {A} (e : exn) : keeps R (raise e : M (World sample) A).
Proof using All. intros w. simpl. reflexivity. Qed.

Lemma keeps_gets {A} (f : World sample -> A) : keeps R (gets f).
Proof using All. intros w. simpl. reflexivity. Qed.

Lemma keeps_bind {A B} (m : M (World sample) A) (k : A -> M (World sample) B) :
  keeps R m -> (forall a, keeps R (k a)) -> keeps R (m ≫= k).
Proof using All.
  intros Hm Hk w. unfold mbind, M_bind.
  pose proof (Hm w) as H1. destruct (m w) as [w1 [a|e]]; simpl in *; [|done].
  by etrans; [|apply Hk].
Qed.

Lemma keeps_try_except {A} (m : M (World sample) A)
    (k : exn -> M (World sample) A) :
  keeps R m -> (forall e, keeps R (k e)) -> keeps R (try_except m k).
Proof using All.
  intros Hm Hk w. unfold try_except.
  pose proof (Hm w) as H1. destruct (m w) as [w1 [a|e]]; simpl in *; [done|].
  by etrans; [|apply Hk].
Qed.

Lemma keeps_try_finally {A} (m : M (World sample) A)
    (f : M (World sample) unit) :
  keeps R m -> keeps R f -> keeps R (try_finally m f).
Proof using All.
  intros Hm Hf w. unfold try_finally.
  pose proof (Hm w) as H1. destruct (m w) as [w1 r]; simpl in *.
  pose proof (Hf w1) as H2. destruct (f w1) as [w2 [[]|e]]; simpl in *;
    by etrans.
Qed.

Lemma keeps_modify (f : World sample -> World sample) :
  (forall w, R w (f w)) -> keeps R (modify f).
Proof. intros Hf w. apply Hf. Qed.

End KeepsFacts.

(** Decomposes a goal [keeps R m] along the structure of [m]; what is left
    are the steps that change the state. *)
Ltac keeps_steps :=
  repeat match goal with
    | |- PreOrder _ => exact _
    | |- keeps _ (mret _) => apply keeps_ret
    | |- keeps _ (call _) => apply keeps_call
    | |- keeps _ (raise _) => apply keeps_raise
    | |- keeps _ (gets _) => apply keeps_gets
    | |- keeps _ (_ ≫= _) => apply keeps_bind
    | |- keeps _ (try_except _ _) => apply keeps_try_except
    | |- keeps _ (try_finally _ _) => apply keeps_try_finally
    | |- forall _, keeps _ _ => intros ?
    | |- keeps _ (if ?c then _ else _) => destruct c
    | |- keeps _ (match ?x with Some _ => _ | None => _ end) => destruct x
    | H : forall t, keeps _ (?f t) |- keeps _ (?f _) => apply H
    | H : keeps _ ?m |- keeps _ ?m => exact H
    end.

Section HandlerKeeps.
Context {sample : Type} `{Unicode} (env : Env sample).
Context (R : relation (World sample)) `{!PreOrder R}.
Implicit Types (w : World sample) (h : Handler sample).

(** The steps of the handler that change the state. *)
Hypothesis R_frame : forall w f, websocket (self w) <> None -> R w (push_frame f w).
Hypothesis R_self : forall w f,
  websocket (f (self w)) = websocket (self w) -> R w (upd_self f w).
Hypothesis R_tasks : forall w k, R w (set_tasks k w).
Hypothesis R_row : forall w u f ts, R w (set_memory (insert (memory w) u f ts) w).

Lemma keeps_send_message data : keeps R (_send_message (sample := sample) data).
Proof using All.
  intros w. unfold _send_message.
  destruct (websocket (self w)) eqn:E; simpl; [|reflexivity].
  apply R_frame. by rewrite E.
Qed.

Lemma keeps_send_audio a r : keeps R (_send_audio env a r).
Proof using All.
  intros w. unfold _send_audio.
  destruct (websocket (self w)) eqn:E; simpl; [|reflexivity].
  apply R_frame. by rewrite E.
Qed.

Lemma keeps_send_error msg : keeps R (_send_error (sample := sample) msg).
Proof using All. pose proof keeps_send_message. unfold _send_error. keeps_steps. Qed.

Lemma keeps_add_fact now u f :
  keeps R (on_memory (sample := sample)
             (add_fact (memory_write_fault env) now u f)).
Proof using All.
  intros w. unfold on_memory, add_fact.
  destruct (negb _); simpl; [by destruct w|].
  unfold execute. destruct (memory_write_fault env); simpl; [by destruct w|].
  apply R_row.
Qed.

Lemma keeps_remember text : keeps R (remember env text).
Proof using All. unfold remember. keeps_steps. apply keeps_add_fact. Qed.

Lemma keeps_prompt_for text : keeps R (prompt_for env text).
Proof using All.
  intros w. destruct (prompt_for_pure env w text) as (messages & -> & _).
  reflexivity.
Qed.

Lemma keeps_process_text_message text :
  keeps R (_process_text_message env text).
Proof using All.
  pose proof keeps_send_message. pose proof keeps_send_error.
  pose proof keeps_remember. pose proof keeps_prompt_for.
  unfold _process_text_message. keeps_steps.
  all: apply keeps_send_audio.
Qed.

Lemma keeps_process_segment : keeps R (process_segment env).
Proof using All.
  pose proof keeps_send_message.
  pose proof keeps_remember. pose proof keeps_prompt_for.
  unfold process_segment. keeps_steps.
  all: apply keeps_send_audio.
Qed.

Lemma keeps_upd_buffer (f : AudioBuffer sample -> AudioBuffer sample) :
  keeps R (modify (upd_buffer f)).
Proof using R_self. apply keeps_modify. intros w. by apply R_self. Qed.

Lemma keeps_process_audio : keeps R (_process_audio env).
Proof using All.
  pose proof keeps_process_segment. pose proof keeps_send_error.
  unfold _process_audio. keeps_steps.
  all: apply keeps_upd_buffer.
Qed.

Lemma keeps_on_buffer {A} (m : M (AudioBuffer sample) A) :
  keeps R (on_buffer m).
Proof using R_self.
  intros w. unfold on_buffer. destruct (m _) as [b r]. simpl. by apply R_self.
Qed.

Lemma keeps_audio_callback c t : keeps R (audio_callback env c t).
Proof using PreOrder0 R_self.
  unfold audio_callback. keeps_steps.
  all: first [apply keeps_on_buffer | apply keeps_upd_buffer
             | apply keeps_modify; intros w; by apply R_self].
Qed.

Lemma keeps_handle_message received : keeps R (_handle_message env received).
Proof using All.
  pose proof keeps_send_message. pose proof keeps_process_text_message.
  unfold _handle_message. destruct received as [message|v]; keeps_steps.
  all: apply keeps_modify; intros w; by apply R_self.
Qed.

Lemma keeps_step w e : R w (step env w e).
Proof using All.
  destruct e as [c t|]; simpl; [apply keeps_audio_callback|].
  destruct (tasks w) as [|k]; [reflexivity|].
  etrans; [apply (R_tasks w k)|apply keeps_process_audio].
Qed.

Lemma keeps_run es w : R w (run env w es).
Proof using All.
  revert w. induction es as [|e es IH]; intros w; simpl; [reflexivity|].
  etrans; [apply keeps_step|apply IH].
Qed.

End HandlerKeeps.
Section HandlerFrames.
Context {sample : Type} `{Unicode} (env : Env sample).
Implicit Types (w : World sample) (h : Handler sample).

Lemma mute_preorder : PreOrder (mute (sample := sample)).
Proof.
  split.
  - by intros w Hw.
  - intros w1 w2 w3 H12 H23 Hw. destruct (H12 Hw) as [Hw2 E2].
    destruct (H23 Hw2) as [Hw3 E3]. split; [done|congruence].
Qed.

Lemma keeps_rows_preorder : PreOrder (keeps_rows (sample := sample)).
Proof.
  split.
  - intros w. unfold keeps_rows. reflexivity.
  - intros w1 w2 w3. unfold keeps_rows. apply transitivity.
Qed.

Lemma silent_preorder : PreOrder (silent (sample := sample)).
Proof.
  split.
  - by intros w.
  - intros w1 w2 w3 [E1 E2] [E3 E4]. split; congruence.
Qed.

(** X18. A handler without a socket sends nothing: whatever message it is
    given, and whatever chunks arrive and tasks run, no frame is passed to
    the transport, and no socket appears. *)
Theorem no_socket_nothing_sent w :
  websocket (self w) = None ->
  (forall message,
     websocket (self (fst (_handle_message env message w))) = None
     /\ sent (fst (_handle_message env message w)) = sent w)
  /\ (forall es,
        websocket (self (run env w es)) = None
        /\ sent (run env w es) = sent w).
Proof.
  intros Hw.
  assert (forall w (f : frame),
            websocket (self w) <> None -> mute w (push_frame f w)) as Hframe
    by (by intros w0 f Hsome Hnone).
  assert (forall w (f : Handler sample -> Handler sample),
            websocket (f (self w)) = websocket (self w) ->
            mute w (upd_self f w)) as Hself
    by (intros w0 f Hf Hnone; split; [by rewrite <- Hnone|done]).
  assert (forall w (k : nat), mute w (set_tasks k w)) as Htasks
    by (by intros w0 k Hnone).
  assert (forall w (u f ts : str),
            mute w (set_memory (insert (memory w) u f ts) w)) as Hrow
    by (by intros w0 u f ts Hnone).
  split.
  - intros message.
    by apply (keeps_handle_message env mute (PreOrder0 := mute_preorder)).
  - intros es.
    by apply (keeps_run env mute (PreOrder0 := mute_preorder)).
Qed.

(** X19. The handler never removes or rewrites a stored fact: whatever
    message it is given, and whatever chunks arrive and tasks run, the rows
    of the table before are the first rows of the table after. *)
Theorem handler_keeps_stored_rows w :
  (forall message,
     facts (memory w)
       `prefix_of` facts (memory (fst (_handle_message env message w))))
  /\ (forall es, facts (memory w) `prefix_of` facts (memory (run env w es))).
Proof.
  assert (forall w (f : frame),
            websocket (self w) <> None -> keeps_rows w (push_frame f w))
    as Hframe by (intros w0 f _; unfold keeps_rows; reflexivity).
  assert (forall w (f : Handler sample -> Handler sample),
            websocket (f (self w)) = websocket (self w) ->
            keeps_rows w (upd_self f w)) as Hself
    by (intros w0 f _; unfold keeps_rows; reflexivity).
  assert (forall w (k : nat), keeps_rows w (set_tasks k w)) as Htasks
    by (intros w0 k; unfold keeps_rows; reflexivity).
  assert (forall w (u f ts : str),
            keeps_rows w (set_memory (insert (memory w) u f ts) w)) as Hrow
    by (intros w0 u f ts; unfold keeps_rows; simpl; by apply prefix_app_r).
  split.
  - intros message.
    by apply (keeps_handle_message env keeps_rows
                (PreOrder0 := keeps_rows_preorder)).
  - intros es.
    by apply (keeps_run env keeps_rows (PreOrder0 := keeps_rows_preorder)).
Qed.

End HandlerFrames.

Lemma no_socket_nothing_sent_witness :
  (forall message,
     websocket (self (fst (@_handle_message Z latin1
                             (Scenario.collaborators (Raise Scenario.offline) None)
                             message
                             (upd_self (set_websocket None) Scenario.session))))
     = None
     /\ sent (fst (@_handle_message Z latin1
                     (Scenario.collaborators (Raise Scenario.offline) None)
                     message
                     (upd_self (set_websocket None) Scenario.session)))
        = sent (upd_self (set_websocket None) Scenario.session))
  /\ (forall es,
        websocket (self (@run Z latin1
                           (Scenario.collaborators (Raise Scenario.offline) None)
                           (upd_self (set_websocket None) Scenario.session) es))
        = None
        /\ sent (@run Z latin1
                   (Scenario.collaborators (Raise Scenario.offline) None)
                   (upd_self (set_websocket None) Scenario.session) es)
           = sent (upd_self (set_websocket None) Scenario.session)).
Proof.
  apply (@no_socket_nothing_sent Z latin1
           (Scenario.collaborators (Raise Scenario.offline) None)
           (upd_self (set_websocket None) Scenario.session)).
  reflexivity.
Defined.

Section SegmentFacts.
Context {sample : Type}.
Implicit Types (h : Handler sample).

Lemma ten_seconds :
  int_of (10 * inject_Z SAMPLE_RATE) = 160000%Z.
Proof. reflexivity. Qed.

(** The number of samples [_process_audio] asks [get_audio] for. *)
Lemma segment_samples (d : Z) :
  int_of (fmin 10 (inject_Z d / inject_Z SAMPLE_RATE) * inject_Z SAMPLE_RATE)
  = Z.min 160000 d.
Proof.
  unfold fmin. destruct (Qlt_le_dec _ _) as [Hlt|Hge].
  - change (inject_Z d / inject_Z SAMPLE_RATE)%Q with (seconds d SAMPLE_RATE).
    rewrite int_of_seconds by done.
    unfold Qlt, Qdiv, Qmult, Qinv, inject_Z, SAMPLE_RATE in Hlt.
    simpl in Hlt. lia.
  - rewrite ten_seconds.
    unfold Qle, Qdiv, Qmult, Qinv, inject_Z, SAMPLE_RATE in Hge.
    simpl in Hge. lia.
Qed.

(** X16. [_process_audio] keeps the beginning of a long utterance, not its
    end: on a ring at the handler's sample rate whose write cursor is ten
    seconds (160000 samples) or more ahead of the read cursor, what it cuts
    from the buffer is the first 160000 samples of the unread window. *)
Theorem segment_keeps_first_ten_seconds h :
  well_formed (audio_buffer h) ->
  sample_rate (audio_buffer h) = SAMPLE_RATE ->
  (160000 <= end_idx (audio_buffer h) - start_idx (audio_buffer h))%Z ->
  segment h = Ok (take (Z.to_nat 160000) (window (audio_buffer h))).
Proof.
  intros Hwf Hsr Hlong. unfold segment. rewrite get_audio_ring by done.
  rewrite int_of_zero, Hsr, segment_samples, Z.add_0_r.
  unfold window, window_size. destruct Hwf as (Hn & Hs & He).
  set (b := audio_buffer h) in *.
  set (n := Z.of_nat (length (data b))) in *.
  rewrite (Z.mod_small (start_idx b)) by lia.
  rewrite Z.min_l by lia.
  rewrite (Z.mod_small (start_idx b + 160000)) by lia.
  rewrite (Z.mod_small (end_idx b - start_idx b)) by lia.
  replace (start_idx b <? start_idx b + 160000)%Z with true by lia.
  rewrite take_take. f_equal. f_equal. lia.
Qed.

End SegmentFacts.

Section SpokenTurnFacts.
Context {sample : Type} `{Unicode} (env : Env sample).
Implicit Types (w : World sample) (h : Handler sample).

(** The pipeline of an audio turn whose completion call raises: the
    transcription has been sent, and nothing else is done. *)
Lemma segment_turn_offline w ws audio result e :
  websocket (self w) = Some ws ->
  segment (self w) = Ok audio -> audio <> [] ->
  transcribe env (normalize env audio) = Ok result ->
  strip (stt_text result) <> [] ->
  audio_completion env (self w) (memory w) (stt_text result) = Raise e ->
  process_segment env w = (push_frame (user_speech_frame result) w, Raise e).
Proof.
  intros Hws Hseg Haudio Hstt Htext Hllm. unfold process_segment.
  unfold mbind at 1, M_bind at 1, gets at 1.
  unfold segment in Hseg.
  unfold mbind at 1, M_bind at 1, call at 1. rewrite Hseg.
  apply truthy_cons in Haudio. rewrite Haudio. cbn [negb].
  unfold mbind at 1, M_bind at 1, call at 1. rewrite Hstt.
  apply truthy_cons in Htext. rewrite Htext. cbn [negb].
  erewrite bind_ok by (by apply send_message_connected with (ws := ws)).
  set (w1 := push_frame _ w).
  destruct (prompt_for_pure env w1 (stt_text result)) as (messages & Hp & Hb).
  erewrite bind_ok by exact Hp.
  unfold audio_completion in Hllm. change (memory w1) with (memory w) in Hb.
  change (self w1) with (self w) in Hb. rewrite Hb in Hllm.
  unfold mbind at 1, M_bind at 1, call at 1. by rewrite Hllm.
Qed.

(** X17. A spoken turn has no fallback: when the completion engine raises
    in [_process_audio] (on a connected session, with a window that was
    transcribed to a non-blank text), the transcription is sent, then an
    error notice with the exception's text; no reply is sent, nothing is
    stored, even if the text states a fact, the buffer is cleared, and
    the task itself returns. *)
Theorem spoken_turn_completion_failure w ws audio result e :
  websocket (self w) = Some ws ->
  is_recording (audio_buffer (self w)) = true ->
  segment (self w) = Ok audio -> audio <> [] ->
  transcribe env (normalize env audio) = Ok result ->
  strip (stt_text result) <> [] ->
  audio_completion env (self w) (memory w) (stt_text result) = Raise e ->
  exists w',
    _process_audio env w = (w', Ok tt)
    /\ sent w' = sent w ++ [user_speech_frame result;
                            error_frame (py "Error processing audio: "
                                         ++ exn_str e)]
    /\ memory w' = memory w
    /\ audio_buffer (self w') = clear (audio_buffer (self w)).
Proof.
  intros Hws Hrec Hseg Haudio Hstt Htext Hllm.
  rewrite process_audio_recording by done. cbv zeta.
  rewrite (segment_turn_offline _ ws audio result e); try done.
  erewrite send_error_connected by done.
  eexists. split; [reflexivity|]. cbn [fst].
  split; [|split; reflexivity].
  cbn [sent upd_buffer upd_self push_frame]. by rewrite <- app_assoc.
Qed.

Lemma send_message_returns w data : snd (_send_message data w) = Ok tt.
Proof. unfold _send_message. by destruct (websocket (self w)). Qed.

(** X21. [_handle_message] raises in three cases only, and then it has
    changed nothing: what it is given is not a JSON object (a list, a
    string, a number, a boolean or null has no [get]); a [text] message
    whose text is not a string; and an [audio_config] message whose
    threshold [float] rejects, with the exception of [float]. *)
Theorem handle_message_raises_only w (received : document) e :
  snd (_handle_message env received w) = Raise e ->
  fst (_handle_message env received w) = w
  /\ ((exists v, received = NotDict v)
      \/ exists message,
           received = Dict message
           /\ ((message !! "type" = Some (JStr (py "text"))
                /\ exists v, message !! "text" = Some v
                             /\ forall s, v <> JStr s)
               \/ (message !! "type" = Some (JStr (py "audio_config"))
                   /\ exists v, message !! "vad_threshold" = Some v
                                /\ float_of env v = Raise e))).
Proof.
  unfold _handle_message. destruct received as [message|v0].
  2:{ intros _. split; [reflexivity|]. left. by exists v0. }
  intros Hr.
  enough (fst (_handle_message env (Dict message) w) = w
          /\ ((message !! "type" = Some (JStr (py "text"))
               /\ exists v, message !! "text" = Some v
                            /\ forall s, v <> JStr s)
              \/ (message !! "type" = Some (JStr (py "audio_config"))
                  /\ exists v, message !! "vad_threshold" = Some v
                               /\ float_of env v = Raise e)))
    as [Hfst Hcase].
  { split; [exact Hfst|]. right. exists message. by split. }
  unfold _handle_message. revert Hr.
  repeat match goal with
         | |- context [bool_decide (?P)] => destruct (bool_decide_reflect P)
         end.
  all: repeat match goal with Hn : _ <> _ |- _ => clear Hn end.
  - unfold mbind, M_bind, modify. intros Hr.
    rewrite send_message_returns in Hr. discriminate Hr.
  - unfold mbind, M_bind, modify. intros Hr.
    rewrite send_message_returns in Hr. discriminate Hr.
  - unfold mbind, M_bind, call, get_stripped.
    destruct (message !! "text") as [[s| | | |]|] eqn:Et; cbn [fst snd].
    2-5: intros [= <-]; split; [reflexivity|]; left; split; [assumption|];
         eexists; split; [reflexivity|]; intros s; discriminate.
    + destruct (truthy (strip s)); [|intros [=]].
      rewrite process_text_message_returns. intros [=].
    + intros [=].
  - destruct (message !! "vad_threshold") as [v|] eqn:Ev; [|intros [=]].
    unfold mbind, M_bind, call, modify.
    destruct (float_of env v) as [x|e'] eqn:Ef; [intros [=]|]. cbn [fst snd].
    intros [= <-]. split; [reflexivity|]. right. split; [assumption|].
    exists v. split; [reflexivity|assumption].
  - intros Hr. rewrite send_message_returns in Hr. discriminate Hr.
  - intros [=].
Qed.

End SpokenTurnFacts.

Section BlindFacts.
Context {sample : Type} `{Unicode} (env : Env sample).
Implicit Types (w : World sample) (h : Handler sample).

Lemma blind_ret {A} (a : A) :
  blind_to_listening (mret a : M (World sample) A).
Proof. by intros v w. Qed.

Lemma blind_raise {A} (e : exn) :
  blind_to_listening (raise e : M (World sample) A).
Proof. by intros v w. Qed.

Lemma blind_call {A} (r : result A) :
  blind_to_listening (call r : M (World sample) A).
Proof. by intros v w. Qed.

Lemma blind_bind {A B} (m : M (World sample) A) (k : A -> M (World sample) B) :
  blind_to_listening m -> (forall a, blind_to_listening (k a)) ->
  blind_to_listening (m ≫= k).
Proof.
  intros Hm Hk v w. unfold mbind, M_bind. rewrite Hm.
  destruct (m w) as [w1 [a|e]]; cbn [fst snd]; [apply Hk|done].
Qed.

Lemma blind_try_except {A} (m : M (World sample) A)
    (k : exn -> M (World sample) A) :
  blind_to_listening m -> (forall e, blind_to_listening (k e)) ->
  blind_to_listening (try_except m k).
Proof.
  intros Hm Hk v w. unfold try_except. rewrite Hm.
  destruct (m w) as [w1 [a|e]]; cbn [fst snd]; [done|apply Hk].
Qed.

Lemma blind_try_finally {A} (m : M (World sample) A)
    (f : M (World sample) unit) :
  blind_to_listening m -> blind_to_listening f ->
  blind_to_listening (try_finally m f).
Proof.
  intros Hm Hf v w. unfold try_finally. rewrite Hm.
  destruct (m w) as [w1 r]; cbn [fst snd]. rewrite Hf.
  by destruct (f w1) as [w2 [[]|e]].
Qed.

(** What follows a read of [self] may use every attribute but the flag. *)
Lemma blind_gets_self {B} (k : Handler sample -> M (World sample) B) :
  (forall v h, k (set_is_listening v h) = k h) ->
  (forall h, blind_to_listening (k h)) ->
  blind_to_listening (gets self ≫= k).
Proof.
  intros Hk1 Hk2 v w. unfold mbind, M_bind, gets.
  change (self (upd_self (set_is_listening v) w))
    with (set_is_listening v (self w)).
  rewrite Hk1. apply Hk2.
Qed.

Lemma blind_modify (f : World sample -> World sample) :
  (forall v w, f (upd_self (set_is_listening v) w)
               = upd_self (set_is_listening v) (f w)) ->
  blind_to_listening (modify f).
Proof. intros Hf v w. unfold modify. by rewrite Hf. Qed.

Lemma blind_send_message data :
  blind_to_listening (_send_message (sample := sample) data).
Proof.
  intros v w. unfold _send_message.
  change (websocket (self (upd_self (set_is_listening v) w)))
    with (websocket (self w)).
  by destruct (websocket (self w)).
Qed.

Lemma blind_send_audio a r : blind_to_listening (_send_audio env a r).
Proof.
  intros v w. unfold _send_audio.
  change (websocket (self (upd_self (set_is_listening v) w)))
    with (websocket (self w)).
  by destruct (websocket (self w)).
Qed.

Lemma blind_on_memory {A} (m : M Db A) :
  blind_to_listening (on_memory (sample := sample) m).
Proof.
  intros v w. unfold on_memory.
  change (memory (upd_self (set_is_listening v) w)) with (memory w).
  by destruct (m (memory w)).
Qed.

Lemma blind_on_buffer {A} (m : M (AudioBuffer sample) A) :
  blind_to_listening (on_buffer m).
Proof.
  intros v w. unfold on_buffer.
  change (audio_buffer (self (upd_self (set_is_listening v) w)))
    with (audio_buffer (self w)).
  by destruct (m (audio_buffer (self w))).
Qed.

End BlindFacts.

(** Decomposes a goal [blind_to_listening m] along the structure of [m]. *)
Ltac blind_steps :=
  repeat match goal with
    | |- blind_to_listening (mret _) => apply blind_ret
    | |- blind_to_listening (call _) => apply blind_call
    | |- blind_to_listening (raise _) => apply blind_raise
    | |- blind_to_listening (_send_message _) => apply blind_send_message
    | |- blind_to_listening (_send_audio _ _ _) => apply blind_send_audio
    | |- blind_to_listening (on_memory _) => apply blind_on_memory
    | |- blind_to_listening (on_buffer _) => apply blind_on_buffer
    | |- blind_to_listening (modify _) =>
        apply blind_modify; intros ? ?; reflexivity
    | |- blind_to_listening (gets self ≫= _) =>
        apply blind_gets_self; [intros ? ?; reflexivity|intros ?]
    | |- blind_to_listening (_ ≫= _) => apply blind_bind; [|intros ?]
    | |- blind_to_listening (try_except _ _) =>
        apply blind_try_except; [|intros ?]
    | |- blind_to_listening (try_finally _ _) => apply blind_try_finally
    | |- blind_to_listening (if ?c then _ else _) => destruct c
    | |- blind_to_listening (match ?x with Some _ => _ | None => _ end) =>
        destruct x
    | H : forall t, blind_to_listening (?f t) |- blind_to_listening (?f _) =>
        apply H
    | H : blind_to_listening ?m |- blind_to_listening ?m => exact H
    end.

Section ListeningFacts.
Context {sample : Type} `{Unicode} (env : Env sample).
Implicit Types (w : World sample) (h : Handler sample).

Lemma blind_send_error msg :
  blind_to_listening (_send_error (sample := sample) msg).
Proof. unfold _send_error. blind_steps. Qed.

Lemma blind_remember text : blind_to_listening (remember env text).
Proof. unfold remember. blind_steps. Qed.

Lemma blind_prompt_for text : blind_to_listening (prompt_for env text).
Proof. unfold prompt_for. blind_steps. Qed.

Lemma blind_process_text_message text :
  blind_to_listening (_process_text_message env text).
Proof.
  pose proof blind_send_error. pose proof blind_remember.
  pose proof blind_prompt_for.
  unfold _process_text_message. blind_steps.
Qed.

Lemma blind_process_segment : blind_to_listening (process_segment env).
Proof.
  pose proof blind_remember. pose proof blind_prompt_for.
  unfold process_segment. blind_steps.
Qed.

Lemma blind_process_audio : blind_to_listening (_process_audio env).
Proof.
  pose proof blind_send_error. pose proof blind_process_segment.
  unfold _process_audio. blind_steps.
Qed.

Lemma blind_audio_callback c t : blind_to_listening (audio_callback env c t).
Proof. unfold audio_callback. blind_steps. Qed.

Lemma blind_step v w e :
  step env (upd_self (set_is_listening v) w) e
  = upd_self (set_is_listening v) (step env w e)
  /\ hands_off (upd_self (set_is_listening v) w) e = hands_off w e.
Proof.
  split; [|by destruct e].
  destruct e as [c t|]; simpl.
  - by rewrite blind_audio_callback.
  - destruct (tasks w) as [|k]; [done|].
    change (set_tasks k (upd_self (set_is_listening v) w))
      with (upd_self (set_is_listening v) (set_tasks k w)).
    by rewrite blind_process_audio.
Qed.

(** X20. Nothing reads the [is_listening] flag: with the flag set either
    way, the chunks that arrive are buffered and cut into the same
    segments, the tasks send the same frames and store the same facts, and
    a typed message is answered in the same way. A [stop_listening]
    message therefore stops nothing. *)
Theorem listening_flag_is_never_read w (v : bool) :
  (forall es,
     run env (upd_self (set_is_listening v) w) es
     = upd_self (set_is_listening v) (run env w es)
     /\ handoffs env (upd_self (set_is_listening v) w) es = handoffs env w es)
  /\ (forall text,
        _process_text_message env text (upd_self (set_is_listening v) w)
        = (upd_self (set_is_listening v)
             (fst (_process_text_message env text w)),
           snd (_process_text_message env text w))).
Proof.
  split; [|intros text; apply blind_process_text_message].
  intros es. revert w. induction es as [|e es IH]; intros w; [done|].
  rewrite !run_cons, !handoffs_cons.
  destruct (blind_step v w e) as [-> ->].
  destruct (IH (step env w e)) as [-> ->]. done.
Qed.

End ListeningFacts.

Section PauseFacts.
Context {sample : Type} `{Unicode} (env : Env sample).
Implicit Types (w : World sample) (h : Handler sample).



(** X23. Silence alone never starts a turn: on a session that is not
    recording and has no task waiting, unvoiced chunks (and runs of the
    event loop) send no frame, leave the store untouched, create no task
    and hand nothing off. *)
Theorem silence_while_idle_is_ignored w n es :
  ready n w ->
  is_recording (audio_buffer (self w)) = false ->
  tasks w = O ->
  Forall (silent_event env (vad_threshold (self w)) n) es ->
  handoffs env w es = 0%nat
  /\ tasks (run env w es) = O
  /\ is_recording (audio_buffer (self (run env w es))) = false
  /\ sent (run env w es) = sent w
  /\ memory (run env w es) = memory w.
Proof.
  intros Hready Hrec Htasks Hes.
  remember (vad_threshold (self w)) as th eqn:Hth. symmetry in Hth.
  revert w Hready Hrec Htasks Hth.
  induction Hes as [|e es He Hes IH]; intros w Hready Hrec Htasks Hth; [done|].
  rewrite handoffs_cons, run_cons.
  destruct e as [c t|].
  - destruct He as [Hc Hquiet]. rewrite <- Hth in Hquiet.
    destruct (callback_unvoiced env w c t n Hready Hc Hquiet)
      as (w' & E & Hready' & Hrec' & Hth' & Ht' & _).
    assert (silent w w') as [Hsent Hmem].
    { pose proof (keeps_audio_callback env silent
                    (PreOrder0 := silent_preorder)) as Hk.
      specialize (Hk ltac:(by intros) c t w).
      by rewrite E in Hk. }
    rewrite hands_off_chunk, (step_chunk _ _ _ _ _ _ E).
    destruct (IH w') as (-> & -> & -> & -> & ->); [done|congruence..|].
    by rewrite Hsent, Hmem.
  - rewrite hands_off_task, step_task_none by done.
    rewrite bool_decide_eq_false_2 by auto. cbn [andb].
    by apply IH.
Qed.

End PauseFacts.

Lemma segment_keeps_first_ten_seconds_witness :
  segment Sessions.long_take
  = Ok (take (Z.to_nat 160000) (window (audio_buffer Sessions.long_take))).
Proof.
  assert (well_formed (audio_buffer Sessions.long_take)) as Hwf.
  { unfold well_formed, Sessions.long_take.
    cbn [audio_buffer set_audio_buffer data start_idx end_idx].
    rewrite length_replicate. lia. }
  assert (sample_rate (audio_buffer Sessions.long_take) = SAMPLE_RATE) as Hsr
    by reflexivity.
  assert (160000 <= end_idx (audio_buffer Sessions.long_take)
                    - start_idx (audio_buffer Sessions.long_take))%Z as Hlong.
  { unfold Sessions.long_take.
    cbn [audio_buffer set_audio_buffer start_idx end_idx]. lia. }
  exact (segment_keeps_first_ten_seconds Sessions.long_take Hwf Hsr Hlong).
Defined.

Lemma spoken_turn_completion_failure_witness :
  exists w',
    @_process_audio Z latin1
      (Scenario.collaborators (Raise Scenario.offline) None)
      Sessions.speaking = (w', Ok tt)
    /\ sent w' = sent Sessions.speaking
                 ++ [user_speech_frame Sessions.heard;
                     error_frame (py "Error processing audio: "
                                  ++ exn_str Scenario.offline)]
    /\ memory w' = memory Sessions.speaking
    /\ audio_buffer (self w') = clear (audio_buffer (self Sessions.speaking)).
Proof.
  assert (websocket (self Sessions.speaking) = Some (Socket 1)) as Hws
    by reflexivity.
  assert (is_recording (audio_buffer (self Sessions.speaking)) = true) as Hrec
    by reflexivity.
  assert (segment (self Sessions.speaking) = Ok [4; 1]%Z) as Hseg
    by (vm_compute; reflexivity).
  assert ([4; 1]%Z <> []) as Hsome by discriminate.
  assert (transcribe (Scenario.collaborators (Raise Scenario.offline) None)
            (normalize (Scenario.collaborators (Raise Scenario.offline) None)
                       [4; 1]%Z) = Ok Sessions.heard) as Hstt
    by reflexivity.
  assert (strip (stt_text Sessions.heard) <> []) as Htext
    by (vm_compute; discriminate).
  assert (@audio_completion Z latin1
            (Scenario.collaborators (Raise Scenario.offline) None)
            (self Sessions.speaking) (memory Sessions.speaking)
            (stt_text Sessions.heard) = Raise Scenario.offline) as Hllm
    by (vm_compute; reflexivity).
  exact (@spoken_turn_completion_failure Z latin1
           (Scenario.collaborators (Raise Scenario.offline) None)
           Sessions.speaking (Socket 1) [4; 1]%Z Sessions.heard
           Scenario.offline Hws Hrec Hseg Hsome Hstt Htext Hllm).
Defined.

Lemma handle_message_raises_only_witness :
  fst (@_handle_message Z latin1
         (Scenario.collaborators (Raise Scenario.offline) None)
         (NotDict JOther) Sessions.speaking) = Sessions.speaking
  /\ fst (@_handle_message Z latin1
            (Scenario.collaborators (Raise Scenario.offline) None)
            Sessions.huge_threshold Sessions.speaking) = Sessions.speaking.
Proof.
  assert (snd (@_handle_message Z latin1
                 (Scenario.collaborators (Raise Scenario.offline) None)
                 (NotDict JOther) Sessions.speaking)
          = Raise (AttributeError (py "object has no attribute get")))
    as Hlist by reflexivity.
  assert (snd (@_handle_message Z latin1
                 (Scenario.collaborators (Raise Scenario.offline) None)
                 Sessions.huge_threshold Sessions.speaking)
          = Raise (OverflowError (py "int too large to convert to float")))
    as Hhuge by (vm_compute; reflexivity).
  split.
  - exact (proj1 (@handle_message_raises_only Z latin1
                    (Scenario.collaborators (Raise Scenario.offline) None)
                    Sessions.speaking (NotDict JOther) _ Hlist)).
  - exact (proj1 (@handle_message_raises_only Z latin1
                    (Scenario.collaborators (Raise Scenario.offline) None)
                    Sessions.speaking Sessions.huge_threshold _ Hhuge)).
Defined.


Lemma silence_while_idle_is_ignored_witness :
  handoffs (Scenario.collaborators (Ok (py "Oi!")) None) Sessions.waiting
           Sessions.short_pause = 0%nat
  /\ tasks (run (Scenario.collaborators (Ok (py "Oi!")) None)
                Sessions.waiting Sessions.short_pause) = O
  /\ is_recording
       (audio_buffer
          (self (run (Scenario.collaborators (Ok (py "Oi!")) None)
                     Sessions.waiting Sessions.short_pause))) = false
  /\ sent (run (Scenario.collaborators (Ok (py "Oi!")) None)
               Sessions.waiting Sessions.short_pause)
     = sent Sessions.waiting
  /\ memory (run (Scenario.collaborators (Ok (py "Oi!")) None)
                 Sessions.waiting Sessions.short_pause)
     = memory Sessions.waiting.
Proof.
  assert (ready 4 Sessions.waiting) as Hready
    by (repeat split; vm_compute; congruence).
  assert (Forall (silent_event (Scenario.collaborators (Ok (py "Oi!")) None)
                    (vad_threshold (self Sessions.waiting)) 4)
                 Sessions.short_pause) as Hpause
    by (repeat constructor; vm_compute; lia).
  exact (@silence_while_idle_is_ignored Z latin1
           (Scenario.collaborators (Ok (py "Oi!")) None)
           Sessions.waiting 4 Sessions.short_pause
           Hready eq_refl eq_refl Hpause).
Defined.

Lemma maybe_extract_fact_fixed_point_witness :
  @maybe_extract_fact latin1 (py "Eu moro em Natal.")
  = Some (py "Eu moro em Natal.").
Proof.
  apply (@maybe_extract_fact_fixed_point latin1 (py " Eu moro em Natal. ")).
  vm_compute. reflexivity.
Defined.

Section TwoTurns.
Context {sample : Type} `{Unicode} (env : Env sample).
Implicit Types (w : World sample) (h : Handler sample).

(** X24. Told in one turn, recalled in the next: after a typed turn on a
    connected session in which the text was extracted as a fact and
    stored, the messages built for a later text all of whose tokens (there
    is at least one) occur in that fact carry the fact as the first line of
    the memory block. (The prompt of the turn that tells the fact is built
    before the fact is stored.) *)
Theorem told_fact_is_recalled_next_turn w ws told fact asked :
  websocket (self w) = Some ws ->
  memory_write_fault env = None ->
  memory_read_fault env = None ->
  maybe_extract_fact told = Some fact ->
  query_tokens asked <> [] ->
  matches_all asked fact ->
  exists w1 more,
    _process_text_message env told w = (w1, Ok tt)
    /\ prompt_for env asked w1
       = (w1, Ok [ {| role := py "system";
                      content := with_memories (system_prompt (self w))
                                   (memory_block (fact :: more)) |};
                   {| role := py "user"; content := asked |} ]).
Proof.
  intros Hws Hw Hr Hf Htok Hall.
  rewrite (text_turn env w ws told Hws), Hf, Hw. cbv zeta.
  pose proof (maybe_extract_fact_some _ _ Hf) as [-> _].
  destruct (top_facts_full_match (strip told) (utcnow env) asked 6
              (take 199 (map (fun r => (Memory.fact r, created_at r))
                 (rev (filter (fun r => user_id r = user_of (self w))
                         (facts (memory w)))))))
    as [more Htop]; [done..|].
  eexists _, more. split; [reflexivity|].
  set (w1 := push_frame _ _).
  destruct (prompt_for_pure env w1 asked) as (messages & -> & Hb).
  f_equal. f_equal.
  rewrite build_messages_outcome, get_top_facts_run, Hr in Hb.
  cbn [snd] in Hb.
  change (memory w1)
    with (insert (memory w) (user_of (self w)) (strip told) (utcnow env))
    in Hb.
  change (self w1) with (self w) in Hb.
  rewrite select_recent_insert_own, Htop in Hb.
  by injection Hb as <-.
Qed.

End TwoTurns.

Lemma told_fact_is_recalled_next_turn_witness :
  exists w1 more,
    @_process_text_message Z latin1
      (Scenario.collaborators (Ok (py "Que legal!")) None)
      (py "Eu moro em Natal.") Sessions.waiting = (w1, Ok tt)
    /\ @prompt_for Z latin1
         (Scenario.collaborators (Ok (py "Que legal!")) None)
         (py "Moro em Natal?") w1
       = (w1, Ok [ {| role := py "system";
                      content := with_memories
                                   (system_prompt (self Sessions.waiting))
                                   (memory_block
                                      (py "Eu moro em Natal." :: more)) |};
                   {| role := py "user"; content := py "Moro em Natal?" |} ]).
Proof.
  assert (websocket (self Sessions.waiting) = Some (Socket 1)) as Hws
    by reflexivity.
  assert (memory_write_fault
            (Scenario.collaborators (Ok (py "Que legal!")) None) = None)
    as Hw by reflexivity.
  assert (memory_read_fault
            (Scenario.collaborators (Ok (py "Que legal!")) None) = None)
    as Hr by reflexivity.
  assert (@maybe_extract_fact latin1 (py "Eu moro em Natal.")
          = Some (py "Eu moro em Natal.")) as Hf
    by (vm_compute; reflexivity).
  assert (@query_tokens latin1 (py "Moro em Natal?") <> []) as Htok
    by (vm_compute; discriminate).
  assert (@matches_all latin1 (py "Moro em Natal?") (py "Eu moro em Natal."))
    as Hall.
  { unfold matches_all. vm_compute. repeat constructor. }
  exact (@told_fact_is_recalled_next_turn Z latin1
           (Scenario.collaborators (Ok (py "Que legal!")) None)
           Sessions.waiting (Socket 1) (py "Eu moro em Natal.")
           (py "Eu moro em Natal.") (py "Moro em Natal?")
           Hws Hw Hr Hf Htok Hall).
Defined.

Section NoHandOff.
Context {sample : Type} `{Unicode} (env : Env sample).
Implicit Types (w : World sample) (es : list (event sample)).






(** Where the hand-off is due, the callback raises: on a recording session
    whose silence timer has run for [SILENCE_DURATION], an unvoiced chunk
    ends the callback in [RuntimeError], with the session still
    recording. *)
Lemma callback_raises_at_end_of_speech w c t n t0 :
  ready n w -> (0 < length c <= n)%nat ->
  louder_than env c (vad_threshold (self w)) = false ->
  is_recording (audio_buffer (self w)) = true ->
  silence_start_time (self w) = Some t0 ->
  silence_elapsed t0 t ->
  exists w',
    audio_callback env c t w
      = (w', Raise (RuntimeError (py "no running event loop")))
    /\ is_recording (audio_buffer (self w')) = true
    /\ tasks w' = tasks w.
Proof.
  intros Hready Hc Hquiet Hrec Hs Hlong.
  destruct (callback_unvoiced env w c t n Hready Hc Hquiet)
    as (w' & E & _ & Hrec' & _ & Htasks' & _).
  rewrite Hrec, Hs in E. change (default t (Some t0)) with t0 in E.
  cbn [andb] in E.
  unfold silence_elapsed in Hlong. rewrite Hlong in E.
  exists w'. split; [exact E|]. split; congruence.
Qed.

End NoHandOff.

